(** * Placement and session state machine of the AR pipe viewer

    A shallow embedding of [src/js/ar-app.js]: the module-level variables of
    the script become one record [App], every event handler becomes a function
    on [App], and the handlers are tied together by [step] / [run].

    Numbers.  JavaScript numbers are IEEE doubles; the model computes with
    exact rationals ([Q]), so every statement below is about the arithmetic
    the code writes down, not about its rounding.

    Three.js and the browser are outside the repository.  What the handlers
    obtain from them (the rotation a quaternion encodes, the outcome of a
    permission prompt, the pose list of a hit test) enters the model as the
    payload of the event that delivers it.  DOM styling and status texts are
    left out: no handler reads them back.

    Beside the state machine stand the parts of the script that keep state
    of their own: [ExcavationManager] ([src/js/excavation.js]) with the
    sample it is fed from ([World]), the dependency check at the head of
    [init], the pointer rig of [setupFallbackControls] ([Rig]), the defaults
    of [loadARPipeData] ([PipeData]) and the fitting of an imported model
    ([ImportedModel]). *)

From Stdlib Require Import QArith Qround Qabs Bool List Lia Lqa.
From Stdlib Require Import Reals Qreals Lra.
From Stdlib Require Import NArith.
From Stdlib Require String DecimalString.
Import ListNotations.

Local Open Scope Q_scope.

(** ** Numbers *)

(** [a < b] on JavaScript numbers, as a boolean. *)
Definition Qltb (a b : Q) : bool := negb (Qle_bool b a).

(** ** THREE.Vector3 *)

Module Vector3.

Record t : Type := mk { x : Q; y : Q; z : Q }.

(** [a.copy(b)] and [b.clone()] both yield the components of [b]. *)
Definition clone (v : t) : t := v.

Definition add (a b : t) : t := mk (x a + x b) (y a + y b) (z a + z b).

Definition multiplyScalar (v : t) (k : Q) : t := mk (x v * k) (y v * k) (z v * k).

Definition negate (v : t) : t := mk (- x v) (- y v) (- z v).

(** [v.z = k] *)
Definition setZ (v : t) (k : Q) : t := mk (x v) (y v) k.

(** [v.y += k] *)
Definition addY (v : t) (k : Q) : t := mk (x v) (y v + k) (z v).

Definition distanceToSquared (a b : t) : Q :=
  (x a - x b) * (x a - x b) + (y a - y b) * (y a - y b) + (z a - z b) * (z a - z b).

(** [a.distanceTo(b) < r] for a literal [r >= 0].  [distanceTo] is the
    square root of [distanceToSquared]; the comparison is decided on the
    squares (see [distanceTo_ltb_iff]). *)
Definition distanceTo_ltb (a b : t) (r : Q) : bool :=
  Qltb (distanceToSquared a b) (r * r).

(** Component-wise equality of numbers (the records may differ as
    fractions: [1#2] and [2#4]). *)
Definition equiv (a b : t) : Prop := x a == x b /\ y a == y b /\ z a == z b.

End Vector3.

Abbreviation Vec3 := Vector3.t.
Abbreviation vec3 := Vector3.mk.
Infix "=v=" := Vector3.equiv (at level 70, no associativity).

(** ** Scene objects *)

(** The placed asset ([pipeGroup]) and the excavation volume
    ([excavationGroup]): a THREE.Group with its [position], [rotation.y] and
    [visible].  [rotation.y] is kept in degrees: the handlers only ever store
    [THREE.MathUtils.degToRad(angle)] there, which is [angle] in another
    unit. *)
Record Object3D : Type := mkObject3D {
  position : Vec3;
  rotation_y : Q;
  visible : bool
}.

(** The tracked backend's reticle ([createARReticle]): [matrixAutoUpdate] is
    off and the frame loop writes [matrix] from the hit pose; the model keeps
    the translation column, which is all [setFromMatrixPosition] reads. *)
Record ARReticle : Type := mkARReticle {
  ar_visible : bool;
  ar_matrixPosition : Vec3
}.

(** The fallback backend's reticle ([createFallbackReticle]): a group with a
    child sprite named [reticleLabel]. *)
Record FallbackReticle : Type := mkFallbackReticle {
  fr_position : Vec3;
  fr_visible : bool;
  fr_labelVisible : bool
}.

(** The rotation a THREE.Quaternion encodes, given by the images of the X, Y
    and Z axes (the columns of the rotation matrix). *)
Record Rotation : Type := mkRotation {
  rot_right : Vec3;
  rot_up : Vec3;
  rot_back : Vec3
}.

(** The camera: [camera.position], [camera.quaternion] and [camera.fov]. *)
Record Camera : Type := mkCamera {
  cam_position : Vec3;
  cam_quaternion : Rotation;
  fov : Q
}.

(** [new THREE.Vector3(0, 0, -1).applyQuaternion(camera.quaternion)] *)
Definition cam_dir (c : Camera) : Vec3 :=
  Vector3.negate (rot_back (cam_quaternion c)).

(** [v.applyMatrix4(camera.matrixWorld)], for the rigid [matrixWorld] of a
    camera that has no parent. *)
Definition applyMatrixWorld (c : Camera) (v : Vec3) : Vec3 :=
  Vector3.add (cam_position c)
    (Vector3.add (Vector3.multiplyScalar (rot_right (cam_quaternion c)) (Vector3.x v))
       (Vector3.add (Vector3.multiplyScalar (rot_up (cam_quaternion c)) (Vector3.y v))
          (Vector3.multiplyScalar (rot_back (cam_quaternion c)) (Vector3.z v)))).

(** Acquisition calls issued to the platform. *)
Inductive Request : Type :=
| CameraStreamRequest          (* navigator.mediaDevices.getUserMedia *)
| OrientationPermissionRequest (* DeviceOrientationEvent.requestPermission *)
| TrackedSessionRequest.       (* navigator.xr.requestSession *)

Definition Request_eqb (a b : Request) : bool :=
  match a, b with
  | CameraStreamRequest, CameraStreamRequest => true
  | OrientationPermissionRequest, OrientationPermissionRequest => true
  | TrackedSessionRequest, TrackedSessionRequest => true
  | _, _ => false
  end.

(** ** The script's state *)

(** One field per module-level [let] of the script that a handler reads back.
    A JavaScript reference that is [null] or an object is an [option]; where
    only null-ness is ever inspected ([xrSession], [hitTestSource],
    [cameraVideo]) it is a [bool].  [xrLoop] is whether
    [renderer.setAnimationLoop] currently holds [onXRFrame];
    [deviceOrientation] is the rotation [updateCameraFromOrientation] builds
    from the last sample [{alpha, beta, gamma}] and [screenOrientation] (its
    trigonometry is three.js's; the event that delivers a sample delivers this
    rotation); [requests] logs the acquisition calls, newest first.

    Left out, because no handler modelled here branches on them or lets them
    reach a pose: [loaded3DModel] and [currentPipeData] (which asset is
    built), [groundGrid], [showPipeInfo], [lastPinchDist], the reference
    space, and the pointer rig's angles, which reach the camera as the
    payload of the pointer events. *)
Record App : Type := mkApp {
  xrSession : bool;
  hitTestSource : bool;
  xrLoop : bool;
  reticle : option ARReticle;
  fallbackReticle : option FallbackReticle;
  pipePlaced : bool;
  pipeGroup : option Object3D;
  excavationGroup : option Object3D;
  excavationState : nat;
  fallbackMode : bool;
  fallbackAnimateRunning : bool;
  fallbackControlsReady : bool;
  cameraVideo : bool;
  useDeviceOrientation : bool;
  deviceOrientation : Rotation;
  wasDragged : bool;
  placedMarkers : list Vec3;
  placedPosition : option Vec3;
  camera : Camera;
  requests : list Request
}.

(** Assignment to one variable of the script: [set_f v s] is the state after
    [f = v]. *)
Definition set_xrSession v (s : App) : App :=
  mkApp v (hitTestSource s) (xrLoop s) (reticle s) (fallbackReticle s)
    (pipePlaced s) (pipeGroup s) (excavationGroup s) (excavationState s)
    (fallbackMode s) (fallbackAnimateRunning s) (fallbackControlsReady s)
    (cameraVideo s) (useDeviceOrientation s) (deviceOrientation s)
    (wasDragged s) (placedMarkers s) (placedPosition s) (camera s)
    (requests s).

Definition set_hitTestSource v (s : App) : App :=
  mkApp (xrSession s) v (xrLoop s) (reticle s) (fallbackReticle s)
    (pipePlaced s) (pipeGroup s) (excavationGroup s) (excavationState s)
    (fallbackMode s) (fallbackAnimateRunning s) (fallbackControlsReady s)
    (cameraVideo s) (useDeviceOrientation s) (deviceOrientation s)
    (wasDragged s) (placedMarkers s) (placedPosition s) (camera s)
    (requests s).

Definition set_xrLoop v (s : App) : App :=
  mkApp (xrSession s) (hitTestSource s) v (reticle s) (fallbackReticle s)
    (pipePlaced s) (pipeGroup s) (excavationGroup s) (excavationState s)
    (fallbackMode s) (fallbackAnimateRunning s) (fallbackControlsReady s)
    (cameraVideo s) (useDeviceOrientation s) (deviceOrientation s)
    (wasDragged s) (placedMarkers s) (placedPosition s) (camera s)
    (requests s).

Definition set_reticle v (s : App) : App :=
  mkApp (xrSession s) (hitTestSource s) (xrLoop s) v (fallbackReticle s)
    (pipePlaced s) (pipeGroup s) (excavationGroup s) (excavationState s)
    (fallbackMode s) (fallbackAnimateRunning s) (fallbackControlsReady s)
    (cameraVideo s) (useDeviceOrientation s) (deviceOrientation s)
    (wasDragged s) (placedMarkers s) (placedPosition s) (camera s)
    (requests s).

Definition set_fallbackReticle v (s : App) : App :=
  mkApp (xrSession s) (hitTestSource s) (xrLoop s) (reticle s) v
    (pipePlaced s) (pipeGroup s) (excavationGroup s) (excavationState s)
    (fallbackMode s) (fallbackAnimateRunning s) (fallbackControlsReady s)
    (cameraVideo s) (useDeviceOrientation s) (deviceOrientation s)
    (wasDragged s) (placedMarkers s) (placedPosition s) (camera s)
    (requests s).

Definition set_pipePlaced v (s : App) : App :=
  mkApp (xrSession s) (hitTestSource s) (xrLoop s) (reticle s)
    (fallbackReticle s) v (pipeGroup s) (excavationGroup s)
    (excavationState s) (fallbackMode s) (fallbackAnimateRunning s)
    (fallbackControlsReady s) (cameraVideo s) (useDeviceOrientation s)
    (deviceOrientation s) (wasDragged s) (placedMarkers s) (placedPosition s)
    (camera s) (requests s).

Definition set_pipeGroup v (s : App) : App :=
  mkApp (xrSession s) (hitTestSource s) (xrLoop s) (reticle s)
    (fallbackReticle s) (pipePlaced s) v (excavationGroup s)
    (excavationState s) (fallbackMode s) (fallbackAnimateRunning s)
    (fallbackControlsReady s) (cameraVideo s) (useDeviceOrientation s)
    (deviceOrientation s) (wasDragged s) (placedMarkers s) (placedPosition s)
    (camera s) (requests s).

Definition set_excavationGroup v (s : App) : App :=
  mkApp (xrSession s) (hitTestSource s) (xrLoop s) (reticle s)
    (fallbackReticle s) (pipePlaced s) (pipeGroup s) v (excavationState s)
    (fallbackMode s) (fallbackAnimateRunning s) (fallbackControlsReady s)
    (cameraVideo s) (useDeviceOrientation s) (deviceOrientation s)
    (wasDragged s) (placedMarkers s) (placedPosition s) (camera s)
    (requests s).

Definition set_excavationState v (s : App) : App :=
  mkApp (xrSession s) (hitTestSource s) (xrLoop s) (reticle s)
    (fallbackReticle s) (pipePlaced s) (pipeGroup s) (excavationGroup s) v
    (fallbackMode s) (fallbackAnimateRunning s) (fallbackControlsReady s)
    (cameraVideo s) (useDeviceOrientation s) (deviceOrientation s)
    (wasDragged s) (placedMarkers s) (placedPosition s) (camera s)
    (requests s).

Definition set_fallbackMode v (s : App) : App :=
  mkApp (xrSession s) (hitTestSource s) (xrLoop s) (reticle s)
    (fallbackReticle s) (pipePlaced s) (pipeGroup s) (excavationGroup s)
    (excavationState s) v (fallbackAnimateRunning s) (fallbackControlsReady s)
    (cameraVideo s) (useDeviceOrientation s) (deviceOrientation s)
    (wasDragged s) (placedMarkers s) (placedPosition s) (camera s)
    (requests s).

Definition set_fallbackAnimateRunning v (s : App) : App :=
  mkApp (xrSession s) (hitTestSource s) (xrLoop s) (reticle s)
    (fallbackReticle s) (pipePlaced s) (pipeGroup s) (excavationGroup s)
    (excavationState s) (fallbackMode s) v (fallbackControlsReady s)
    (cameraVideo s) (useDeviceOrientation s) (deviceOrientation s)
    (wasDragged s) (placedMarkers s) (placedPosition s) (camera s)
    (requests s).

Definition set_fallbackControlsReady v (s : App) : App :=
  mkApp (xrSession s) (hitTestSource s) (xrLoop s) (reticle s)
    (fallbackReticle s) (pipePlaced s) (pipeGroup s) (excavationGroup s)
    (excavationState s) (fallbackMode s) (fallbackAnimateRunning s) v
    (cameraVideo s) (useDeviceOrientation s) (deviceOrientation s)
    (wasDragged s) (placedMarkers s) (placedPosition s) (camera s)
    (requests s).

Definition set_cameraVideo v (s : App) : App :=
  mkApp (xrSession s) (hitTestSource s) (xrLoop s) (reticle s)
    (fallbackReticle s) (pipePlaced s) (pipeGroup s) (excavationGroup s)
    (excavationState s) (fallbackMode s) (fallbackAnimateRunning s)
    (fallbackControlsReady s) v (useDeviceOrientation s) (deviceOrientation s)
    (wasDragged s) (placedMarkers s) (placedPosition s) (camera s)
    (requests s).

Definition set_useDeviceOrientation v (s : App) : App :=
  mkApp (xrSession s) (hitTestSource s) (xrLoop s) (reticle s)
    (fallbackReticle s) (pipePlaced s) (pipeGroup s) (excavationGroup s)
    (excavationState s) (fallbackMode s) (fallbackAnimateRunning s)
    (fallbackControlsReady s) (cameraVideo s) v (deviceOrientation s)
    (wasDragged s) (placedMarkers s) (placedPosition s) (camera s)
    (requests s).

Definition set_deviceOrientation v (s : App) : App :=
  mkApp (xrSession s) (hitTestSource s) (xrLoop s) (reticle s)
    (fallbackReticle s) (pipePlaced s) (pipeGroup s) (excavationGroup s)
    (excavationState s) (fallbackMode s) (fallbackAnimateRunning s)
    (fallbackControlsReady s) (cameraVideo s) (useDeviceOrientation s) v
    (wasDragged s) (placedMarkers s) (placedPosition s) (camera s)
    (requests s).

Definition set_wasDragged v (s : App) : App :=
  mkApp (xrSession s) (hitTestSource s) (xrLoop s) (reticle s)
    (fallbackReticle s) (pipePlaced s) (pipeGroup s) (excavationGroup s)
    (excavationState s) (fallbackMode s) (fallbackAnimateRunning s)
    (fallbackControlsReady s) (cameraVideo s) (useDeviceOrientation s)
    (deviceOrientation s) v (placedMarkers s) (placedPosition s) (camera s)
    (requests s).

Definition set_placedMarkers v (s : App) : App :=
  mkApp (xrSession s) (hitTestSource s) (xrLoop s) (reticle s)
    (fallbackReticle s) (pipePlaced s) (pipeGroup s) (excavationGroup s)
    (excavationState s) (fallbackMode s) (fallbackAnimateRunning s)
    (fallbackControlsReady s) (cameraVideo s) (useDeviceOrientation s)
    (deviceOrientation s) (wasDragged s) v (placedPosition s) (camera s)
    (requests s).

Definition set_placedPosition v (s : App) : App :=
  mkApp (xrSession s) (hitTestSource s) (xrLoop s) (reticle s)
    (fallbackReticle s) (pipePlaced s) (pipeGroup s) (excavationGroup s)
    (excavationState s) (fallbackMode s) (fallbackAnimateRunning s)
    (fallbackControlsReady s) (cameraVideo s) (useDeviceOrientation s)
    (deviceOrientation s) (wasDragged s) (placedMarkers s) v (camera s)
    (requests s).

Definition set_camera v (s : App) : App :=
  mkApp (xrSession s) (hitTestSource s) (xrLoop s) (reticle s)
    (fallbackReticle s) (pipePlaced s) (pipeGroup s) (excavationGroup s)
    (excavationState s) (fallbackMode s) (fallbackAnimateRunning s)
    (fallbackControlsReady s) (cameraVideo s) (useDeviceOrientation s)
    (deviceOrientation s) (wasDragged s) (placedMarkers s) (placedPosition s)
    v (requests s).

Definition set_requests v (s : App) : App :=
  mkApp (xrSession s) (hitTestSource s) (xrLoop s) (reticle s)
    (fallbackReticle s) (pipePlaced s) (pipeGroup s) (excavationGroup s)
    (excavationState s) (fallbackMode s) (fallbackAnimateRunning s)
    (fallbackControlsReady s) (cameraVideo s) (useDeviceOrientation s)
    (deviceOrientation s) (wasDragged s) (placedMarkers s) (placedPosition s)
    (camera s) v.
(** ** Reticles *)

(** [createARReticle]: [group.visible = false], identity [matrix]. *)
Definition createARReticle : ARReticle := mkARReticle false (vec3 0 0 0).

(** [createFallbackReticle]: a visible group with a visible label,
    [group.position.set(0, 0, -3)]. *)
Definition createFallbackReticle : FallbackReticle :=
  mkFallbackReticle (vec3 0 0 (-3)) true true.

(** [updateFallbackReticle], on the camera and the reticle it reads and
    writes. *)
Definition projectFallbackReticle (c : Camera) (r : FallbackReticle) : FallbackReticle :=
  let dir := cam_dir c in
  let p := cam_position c in
  if Qltb (Vector3.y dir) (-0.01) then
    let t := - Vector3.y p / Vector3.y dir in
    let groundPoint :=
      vec3 (Vector3.x p + Vector3.x dir * t) 0 (Vector3.z p + Vector3.z dir * t) in
    if Vector3.distanceTo_ltb groundPoint p 30
    then mkFallbackReticle (Vector3.clone groundPoint) (fr_visible r) (fr_labelVisible r)
    else r
  else
    mkFallbackReticle
      (vec3 (Vector3.x p + Vector3.x dir * 3) 0 (Vector3.z p + Vector3.z dir * 3))
      (fr_visible r) (fr_labelVisible r).

(** [updateFallbackReticle()].  The script dereferences [fallbackReticle]
    without a test; its only caller has tested it. *)
Definition updateFallbackReticle (s : App) : App :=
  match fallbackReticle s with
  | Some r => set_fallbackReticle (Some (projectFallbackReticle (camera s) r)) s
  | None => s
  end.

(** ** Pipe placement *)

(** [placePipe(position)].  Both branches on [loaded3DModel] build a fresh
    group and copy [position] into it; so does the excavation volume, shown
    when [excavationState > 0]; the ground marker sits 1 mm above. *)
Definition placePipe (pos : Vec3) (s : App) : App :=
  let s := set_pipeGroup (Some (mkObject3D (Vector3.clone pos) 0 true)) s in
  let s := set_excavationGroup
             (Some (mkObject3D (Vector3.clone pos) 0 (0 <? excavationState s)%nat)) s in
  let s := set_placedMarkers
             (placedMarkers s ++ [Vector3.addY (Vector3.clone pos) 0.001]) s in
  let s := set_fallbackReticle
             (option_map (fun r => mkFallbackReticle (fr_position r) (fr_visible r) false)
                (fallbackReticle s)) s in
  let s := set_reticle
             (option_map (fun r => mkARReticle false (ar_matrixPosition r)) (reticle s)) s in
  let s := set_pipePlaced true s in
  set_placedPosition (Some (Vector3.clone pos)) s.

(** [onARSelect]: the tracked session's [select] event. *)
Definition onARSelect (s : App) : App :=
  if pipePlaced s then s
  else
    match reticle s with
    | Some r =>
        if ar_visible r then placePipe (ar_matrixPosition r) s
        else placePipe (applyMatrixWorld (camera s) (vec3 0 (-0.5) (-1.5))) s
    | None => placePipe (applyMatrixWorld (camera s) (vec3 0 (-0.5) (-1.5))) s
    end.

(** The click handler of [btnPlace]. *)
Definition btnPlace_click (s : App) : App :=
  if pipePlaced s then s
  else
    match fallbackMode s, fallbackReticle s with
    | true, Some r => placePipe (Vector3.clone (fr_position r)) s
    | _, _ => s
    end.

(** The click handler of the canvas. *)
Definition canvas_click (s : App) : App :=
  if negb (fallbackMode s) || pipePlaced s then s
  else if negb (useDeviceOrientation s) && wasDragged s then s
  else
    match fallbackReticle s with
    | Some r => placePipe (Vector3.clone (fr_position r)) s
    | None => s
    end.

(** [autoPlaceAtDefaultPosition] *)
Definition autoPlaceAtDefaultPosition (s : App) : App :=
  if pipePlaced s then s
  else
    match fallbackReticle s with
    | Some r => placePipe (Vector3.clone (fr_position r)) s
    | None => placePipe (vec3 0 0 (-3)) s
    end.

(** The part of [setAR3DModel] that follows the import: a placed asset is
    rebuilt where it stands, with the excavation volume, and [placedPosition]
    is moved there; otherwise the model is placed at once. *)
Definition setAR3DModel (s : App) : App :=
  match pipePlaced s, pipeGroup s with
  | true, Some g =>
      let pos := Vector3.clone (position g) in
      let rot := rotation_y g in
      let s := set_pipeGroup (Some (mkObject3D pos rot true)) s in
      let s := set_excavationGroup
                 (Some (mkObject3D pos rot (0 <? excavationState s)%nat)) s in
      set_placedPosition (Some (Vector3.clone pos)) s
  | _, _ => autoPlaceAtDefaultPosition s
  end.

(** What [loadARPipeData] finds at [json.pipes[0]] and keeps as
    [currentPipeData]: nothing when the array is empty ([None]), or a pipe,
    of which the tail of the function needs [length] and [depth].  The
    entries of [json.pipes] are taken to be objects, as the defaults loop at
    the head of the function needs them. *)
Record FirstPipe : Type := mkFirstPipe {
  hasLength : bool;
  hasDepth : bool
}.

(** [updatePipeInfoPanel()] clears the panel when there is no pipe, and
    throws on a pipe without [length] or without [depth]
    ([currentPipeData.length.toLocaleString()]). *)
Definition updatePipeInfoPanel_throws (first : option FirstPipe) : bool :=
  match first with
  | Some p => negb (hasLength p && hasDepth p)
  | None => false
  end.

(** [PipeModelFactory.createPipeAssembly(currentPipeData)] throws when there
    is no pipe ([pipeData.diameter] of undefined). *)
Definition createPipeAssembly_throws (first : option FirstPipe) : bool :=
  match first with
  | Some _ => false
  | None => true
  end.

(** The same part of [loadARPipeData], which leaves the excavation volume
    alone.  An exception ends the handler with the script's variables as
    they stand: [updatePipeInfoPanel] throws before the branch,
    [createPipeAssembly] before [pipeGroup] or [placedPosition] is assigned,
    and inside [autoPlaceAtDefaultPosition] before [placePipe] has assigned
    anything (when something is placed [autoPlaceAtDefaultPosition] returns
    at once).  The scene graph is not part of [App], nor is
    [currentPipeData]: [placePipe] takes the asset to be buildable. *)
Definition loadARPipeData (first : option FirstPipe) (s : App) : App :=
  if updatePipeInfoPanel_throws first then s
  else
    match pipePlaced s, pipeGroup s with
    | true, Some g =>
        if createPipeAssembly_throws first then s
        else
          let pos := Vector3.clone (position g) in
          let rot := rotation_y g in
          let s := set_pipeGroup (Some (mkObject3D pos rot true)) s in
          set_placedPosition (Some (Vector3.clone pos)) s
    | _, _ =>
        if createPipeAssembly_throws first then s
        else autoPlaceAtDefaultPosition s
    end.

(** ** Sliders *)

(** The [input] handler of [rotationSlider]; [angle] is
    [parseFloat(rotSlider.value)], in degrees. *)
Definition rotationSlider_input (angle : Q) (s : App) : App :=
  let s := set_pipeGroup
             (option_map (fun g => mkObject3D (position g) angle (visible g))
                (pipeGroup s)) s in
  set_excavationGroup
    (option_map (fun g => mkObject3D (position g) angle (visible g))
       (excavationGroup s)) s.

(** The [input] handler of [distanceSlider]; [value] is
    [parseFloat(distSlider.value)], in millimetres. *)
Definition distanceSlider_input (value : Q) (s : App) : App :=
  let dist := value * 0.001 in
  match pipeGroup s, placedPosition s with
  | Some g, Some base =>
      let g' := mkObject3D (Vector3.setZ (position g) (Vector3.z base - dist))
                  (rotation_y g) (visible g) in
      let s := set_pipeGroup (Some g') s in
      set_excavationGroup
        (option_map
           (fun e => mkObject3D (Vector3.setZ (position e) (Vector3.z (position g')))
                       (rotation_y e) (visible e))
           (excavationGroup s)) s
  | _, _ => s
  end.

(** The click handler of [btnExcavation]: a three-state toggle. *)
Definition btnExcavation_click (s : App) : App :=
  let n := ((excavationState s + 1) mod 3)%nat in
  let s := set_excavationState n s in
  set_excavationGroup
    (option_map (fun e => mkObject3D (position e) (rotation_y e) (0 <? n)%nat)
       (excavationGroup s)) s.

(** ** Reset *)

(** The click handler of [btnReset]. *)
Definition btnReset_click (s : App) : App :=
  let s := set_pipeGroup None s in
  let s := set_excavationGroup None s in
  let s := set_placedMarkers [] s in
  let s := set_pipePlaced false s in
  let s := set_placedPosition None s in
  let s := set_excavationState 0%nat s in
  let s := set_camera
             (mkCamera (cam_position (camera s)) (cam_quaternion (camera s)) 70) s in
  set_fallbackReticle (Some createFallbackReticle) s.

(** ** Camera passthrough *)

(** How [getUserMedia] answers. *)
Inductive StreamOutcome : Type :=
| StreamGranted   (* the promise resolves with a stream *)
| StreamRefused.  (* the promise rejects: no camera, or permission denied *)

(** [startCameraBackground].  [cameraVideo] is assigned as soon as the stream
    is there; a later failure of [play()] lands in the same [catch] as a
    refusal and leaves [cameraVideo] assigned. *)
Definition startCameraBackground (o : StreamOutcome) (s : App) : App :=
  if cameraVideo s then s
  else
    let s := set_requests (CameraStreamRequest :: requests s) s in
    match o with
    | StreamGranted => set_cameraVideo true s
    | StreamRefused => s
    end.

(** ** Fallback backend *)

(** [camera.position.set(0, 1.6, 0); camera.lookAt(0, 0, -3)]: the viewing
    direction is (0, -1.6, -3) / 3.4. *)
Definition lookAtDefault : Rotation :=
  mkRotation (vec3 1 0 0) (vec3 0 (15 # 17) (- 8 # 17)) (vec3 0 (8 # 17) (15 # 17)).

(** [updateCameraFromOrientation] *)
Definition updateCameraFromOrientation (s : App) : App :=
  set_camera (mkCamera (cam_position (camera s)) (deviceOrientation s) (fov (camera s))) s.

(** One turn of [animate], the fallback render loop. *)
Definition animate (s : App) : App :=
  let s := if useDeviceOrientation s then updateCameraFromOrientation s else s in
  match fallbackReticle s with
  | Some r => if fr_visible r && negb (pipePlaced s) then updateFallbackReticle s else s
  | None => s
  end.

(** What [startFallbackMode] receives from outside: the answer to the camera
    request, and the pose [updateCameraPos] computes from the pointer rig's
    spherical coordinates when [setupFallbackControls] first runs. *)
Record FallbackStart : Type := mkFallbackStart {
  stream : StreamOutcome;
  rigPosition : Vec3;
  rigRotation : Rotation
}.

(** [setupFallbackControls]: the listeners are installed (see [step]); at its
    end the camera is put on the pointer rig unless the gyroscope drives it. *)
Definition setupFallbackControls (i : FallbackStart) (s : App) : App :=
  if useDeviceOrientation s then s
  else set_camera (mkCamera (rigPosition i) (rigRotation i) (fov (camera s))) s.

(** [startFallbackMode], with its one [await] run to completion.
    [tryDeviceOrientation] only installs listeners and a button. *)
Definition startFallbackMode (i : FallbackStart) (s : App) : App :=
  if fallbackMode s && fallbackAnimateRunning s then s
  else
    let s := set_fallbackMode true s in
    let s := startCameraBackground (stream i) s in
    let s := set_camera (mkCamera (vec3 0 1.6 0) lookAtDefault (fov (camera s))) s in
    let s := set_fallbackReticle (Some createFallbackReticle) s in
    let s := if fallbackControlsReady s then s
             else set_fallbackControlsReady true (setupFallbackControls i s) in
    let s := if fallbackAnimateRunning s then s
             else animate (set_fallbackAnimateRunning true s) in
    if pipePlaced s
    then set_fallbackReticle
           (option_map (fun r => mkFallbackReticle (fr_position r) false (fr_labelVisible r))
              (fallbackReticle s)) s
    else s.

(** [activateDeviceOrientation] *)
Definition activateDeviceOrientation (s : App) : App :=
  let s := set_useDeviceOrientation true s in
  set_camera (mkCamera (vec3 0 1.6 0) (cam_quaternion (camera s)) (fov (camera s))) s.

(** The click handler of [btnGyroPermission]. *)
Definition btnGyroPermission_click (granted : bool) (s : App) : App :=
  let s := set_requests (OrientationPermissionRequest :: requests s) s in
  if granted then activateDeviceOrientation s else s.

(** ** Tracked backend *)

(** How the platform answers [startARSession]: a session, with or without a
    hit-test source, or a rejection. *)
Inductive SessionOutcome : Type :=
| SessionStarted (hitTest : bool)
| SessionFailed.

(** [startARSession], with its [await]s run to completion.  On a rejection the
    [catch] block arms a timer that calls [startFallbackMode] (a later
    event). *)
Definition startARSession (o : SessionOutcome) (s : App) : App :=
  let s := set_requests (TrackedSessionRequest :: requests s) s in
  match o with
  | SessionStarted hitTest =>
      let s := set_xrSession true s in
      let s := set_hitTestSource hitTest s in
      let s := set_reticle (Some createARReticle) s in
      set_xrLoop true s
  | SessionFailed => s
  end.

(** [onXRFrame(timestamp, frame)].  [hits] is [frame.getHitTestResults]:
    for each result what [hit.getPose(xrRefSpace)] returns, reduced to the
    translation of [pose.transform.matrix]. *)
Definition onXRFrame (frame : option (list (option Vec3))) (s : App) : App :=
  match frame with
  | None => s
  | Some hits =>
      if hitTestSource s && negb (pipePlaced s) then
        match hits with
        | Some pose :: _ =>
            set_reticle (option_map (fun _ => mkARReticle true pose) (reticle s)) s
        | None :: _ => s
        | [] =>
            set_reticle
              (option_map (fun r => mkARReticle false (ar_matrixPosition r)) (reticle s)) s
        end
      else s
  end.

(** The [end] handler of the tracked session: the hand-off. *)
Definition xrSession_end (i : FallbackStart) (s : App) : App :=
  let s := set_xrSession false s in
  let s := set_hitTestSource false s in
  let s := set_xrLoop false s in
  if negb (fallbackMode s) then startFallbackMode i s else s.

(** ** Pointer rig and sensors *)

(** [pointerdown] with the primary button. *)
Definition canvas_pointerdown (s : App) : App :=
  if useDeviceOrientation s then s else set_wasDragged false s.

(** [pointermove] while dragging: [beyond] says whether the pointer has left
    the 8-pixel threshold; [p], [r] are what [updateCameraPos] computes. *)
Definition canvas_pointermove (beyond : bool) (p : Vec3) (r : Rotation) (s : App) : App :=
  if useDeviceOrientation s then s
  else
    let s := if beyond then set_wasDragged true s else s in
    set_camera (mkCamera p r (fov (camera s))) s.

(** The [deviceorientation] listener of [activateDeviceOrientation], for a
    sample whose [alpha] is not null. *)
Definition deviceorientation_sample (r : Rotation) (s : App) : App :=
  set_deviceOrientation r s.

(** ** Events *)

Inductive Event : Type :=
| StartAR (o : SessionOutcome)          (* click on btnStartAR *)
| StartFallback (i : FallbackStart)     (* init without WebXR, btnSkipAR, failure timer *)
| XRFrame (frame : option (list (option Vec3)))
| XRViewerPose (p : Vec3) (r : Rotation)   (* the renderer moves the camera with the viewer *)
| XRSelect
| XREnd (i : FallbackStart)
| Animate
| FirstOrientation                      (* first sample with alpha, no permission needed *)
| GyroPermission (granted : bool)
| OrientationSample (r : Rotation)
| PointerDown
| PointerMove (beyond : bool) (p : Vec3) (r : Rotation)
| PinchFov (f : Q)
| PlaceButton
| CanvasClick
| ResetButton
| RotationSlider (angle : Q)
| DistanceSlider (value : Q)
| ExcavationButton
| ModelLoaded
| PipeDataLoaded (first : option FirstPipe).

(** The state before [init] has chosen a backend: a camera at the origin with
    the identity rotation, and the rotation of the all-zero orientation sample
    (a quarter turn about X: the device lies flat, the camera looks down). *)
Definition initial : App :=
  {| xrSession := false; hitTestSource := false; xrLoop := false;
     reticle := None; fallbackReticle := None;
     pipePlaced := false; pipeGroup := None; excavationGroup := None;
     excavationState := 0%nat;
     fallbackMode := false; fallbackAnimateRunning := false;
     fallbackControlsReady := false;
     cameraVideo := false;
     useDeviceOrientation := false;
     deviceOrientation := mkRotation (vec3 1 0 0) (vec3 0 0 (-1)) (vec3 0 1 0);
     wasDragged := false;
     placedMarkers := []; placedPosition := None;
     camera := mkCamera (vec3 0 0 0)
                 (mkRotation (vec3 1 0 0) (vec3 0 1 0) (vec3 0 0 1)) 70;
     requests := [] |}.

(** Delivery of one event.  A listener that is not installed yet, or a loop
    that is not running, leaves the state alone. *)
Definition step (e : Event) (s : App) : App :=
  match e with
  | StartAR o => startARSession o s
  | StartFallback i => startFallbackMode i s
  | XRFrame frame => if xrLoop s then onXRFrame frame s else s
  | XRViewerPose p r =>
      if xrLoop s then set_camera (mkCamera p r (fov (camera s))) s else s
  | XRSelect => if xrSession s then onARSelect s else s
  | XREnd i => if xrSession s then xrSession_end i s else s
  | Animate => if fallbackAnimateRunning s then animate s else s
  | FirstOrientation =>
      if fallbackControlsReady s && negb (useDeviceOrientation s)
      then activateDeviceOrientation s else s
  | GyroPermission granted =>
      if fallbackControlsReady s then btnGyroPermission_click granted s else s
  | OrientationSample r =>
      if useDeviceOrientation s then deviceorientation_sample r s else s
  | PointerDown => if fallbackControlsReady s then canvas_pointerdown s else s
  | PointerMove beyond p r =>
      if fallbackControlsReady s then canvas_pointermove beyond p r s else s
  | PinchFov f =>
      if fallbackControlsReady s && useDeviceOrientation s
      then set_camera (mkCamera (cam_position (camera s)) (cam_quaternion (camera s)) f) s
      else s
  | PlaceButton => btnPlace_click s
  | CanvasClick => canvas_click s
  | ResetButton => btnReset_click s
  | RotationSlider angle => rotationSlider_input angle s
  | DistanceSlider value => distanceSlider_input value s
  | ExcavationButton => btnExcavation_click s
  | ModelLoaded => setAR3DModel s
  | PipeDataLoaded first => loadARPipeData first s
  end.

(** The state after the events [es], delivered in order. *)
Definition run (es : list Event) (s : App) : App :=
  fold_left (fun s e => step e s) es s.

Definition reachable (s : App) : Prop := exists es, s = run es initial.

(** ** ExcavationManager (excavation.js) *)

(** [Math.round]: the nearest integer, halves towards plus infinity. *)
Definition Math_round (x : Q) : Q := inject_Z (Qfloor (x + (1 # 2))).

Definition Math_max (a b : Q) : Q := if Qltb a b then b else a.

Definition Math_min (a b : Q) : Q := if Qltb b a then b else a.

Module ExcavationManager.

(** [this.params], in millimetres. *)
Record Params : Type := mkParams {
  width : Q;
  depth : Q;
  lengthFront : Q;
  lengthBack : Q
}.

(** The argument of [create]:
    [{ width, depth, length?, lengthFront?, lengthBack? }].  [None] is a
    property that is absent or null. *)
Record Arg : Type := mkArg {
  arg_width : Q;
  arg_depth : Q;
  arg_length : option Q;
  arg_lengthFront : option Q;
  arg_lengthBack : option Q
}.

(** The argument of [update], which [Object.assign] merges into
    [this.params]: the properties the caller has set. *)
Record Changes : Type := mkChanges {
  new_width : option Q;
  new_depth : option Q;
  new_lengthFront : option Q;
  new_lengthBack : option Q
}.

(** What [_buildMesh] adds to the group, in metres: the box
    ([BoxGeometry(w, d, totalL)] and [mesh.position]), the outline on the
    ground ([PlaneGeometry(w, totalL)], laid flat, and its position), the two
    ends of the divider, the positions of the five labels and the volume
    printed on the last one (before [toFixed]). *)
Record Group : Type := mkGroup {
  mesh_size : Vec3;
  mesh_position : Vec3;
  wireframe_position : Vec3;
  topLine_size : Q * Q;
  topLine_position : Vec3;
  divLine : Vec3 * Vec3;
  widthLabel : Vec3;
  depthLabel : Vec3;
  frontLabel : Vec3;
  backLabel : Vec3;
  volLabel : Vec3;
  vol : Q
}.

(** The manager: [this.params] and [this.group] ([None] is null). *)
Record t : Type := mk {
  params : Params;
  group : option Group
}.

Definition initial : t := mk (mkParams 800 1500 3000 3000) None.

(** [v || d] on a number that may be absent: zero is falsy. *)
Definition orDefault (v : option Q) (d : Q) : Q :=
  match v with
  | Some x => if Qeq_bool x 0 then d else x
  | None => d
  end.

(** [_buildMesh] *)
Definition _buildMesh (p : Params) : Group :=
  let s := 0.001 in
  let w := width p * s in
  let d := depth p * s in
  let lf := lengthFront p * s in
  let lb := lengthBack p * s in
  let totalL := lf + lb in
  let zOffset := (lb - lf) / 2 in
  let mesh_position := vec3 0 (- d / 2) zOffset in
  let totalLenMM := lengthFront p + lengthBack p in
  {| mesh_size := vec3 w d totalL;
     mesh_position := mesh_position;
     wireframe_position := mesh_position;
     topLine_size := (w, totalL);
     topLine_position := vec3 0 0.005 zOffset;
     divLine := (vec3 (- w / 2) 0.006 0, vec3 (w / 2) 0.006 0);
     widthLabel := vec3 0 0.3 (- lf + zOffset - 0.2);
     depthLabel := vec3 (w / 2 + 0.3) (- d / 2) zOffset;
     frontLabel := vec3 0 0.3 (- lf / 2);
     backLabel := vec3 0 0.3 (lb / 2);
     volLabel := vec3 0 (- d - 0.2) zOffset;
     vol := (width p * depth p * totalLenMM) / 1000000000 |}.

(** [create(params)].  The one-length form is split in two on the argument
    itself, which the caller keeps: the first component of the result is the
    argument after the call. *)
Definition create (a : Arg) (m : t) : Arg * t :=
  let a :=
    match arg_length a, arg_lengthFront a with
    | Some l, None =>
        let f := Math_round (l / 2) in
        mkArg (arg_width a) (arg_depth a) (arg_length a) (Some f) (Some (l - f))
    | _, _ => a
    end in
  let p := mkParams (arg_width a) (arg_depth a)
             (orDefault (arg_lengthFront a) 3000)
             (orDefault (arg_lengthBack a) 3000) in
  (a, mk p (Some (_buildMesh p))).

(** [Object.assign(this.params, newParams)] *)
Definition assign (p : Params) (c : Changes) : Params :=
  mkParams
    (match new_width c with Some v => v | None => width p end)
    (match new_depth c with Some v => v | None => depth p end)
    (match new_lengthFront c with Some v => v | None => lengthFront p end)
    (match new_lengthBack c with Some v => v | None => lengthBack p end).

(** [update(newParams)] *)
Definition update (c : Changes) (m : t) : t :=
  let p := assign (params m) c in
  mk p (match group m with
        | Some _ => Some (_buildMesh p)
        | None => None
        end).

(** [getTotalLength()] *)
Definition getTotalLength (m : t) : Q :=
  lengthFront (params m) + lengthBack (params m).

(** [getParams()]: a fresh copy of [this.params]. *)
Definition getParams (m : t) : Arg :=
  mkArg (width (params m)) (depth (params m)) None
    (Some (lengthFront (params m))) (Some (lengthBack (params m))).

(** [getVolume()], in cubic metres. *)
Definition getVolume (m : t) : Q :=
  let totalLen := lengthFront (params m) + lengthBack (params m) in
  (width (params m) * depth (params m) * totalLen) / 1000000000.

(** A call of the manager by the script. *)
Inductive Call : Type :=
| Create (a : Arg)
| Update (c : Changes).

Definition call (k : Call) (m : t) : t :=
  match k with
  | Create a => snd (create a m)
  | Update c => update c m
  end.

Definition calls (ks : list Call) (m : t) : t :=
  fold_left (fun m k => call k m) ks m.

End ExcavationManager.

(** [SAMPLE_PIPE_DATA.excavation] (pipe-data.js) as the page loads it. *)
Definition SAMPLE_PIPE_DATA_excavation : ExcavationManager.Arg :=
  ExcavationManager.mkArg 800 1500 (Some 6000) None None.

(** ** The script and the excavation manager *)

(** The script's state together with the two objects it shares with
    excavation.js and pipe-data.js. *)
Record World : Type := mkWorld {
  app : App;
  manager : ExcavationManager.t;
  sampleExcavation : ExcavationManager.Arg
}.

(** [placePipe(position)] with its call
    [ExcavationManager.create(SAMPLE_PIPE_DATA.excavation)]. *)
Definition placePipe_world (pos : Vec3) (w : World) : World :=
  let (a, m) := ExcavationManager.create (sampleExcavation w) (manager w) in
  mkWorld (placePipe pos (app w)) m a.

(** [autoPlaceAtDefaultPosition] *)
Definition autoPlaceAtDefaultPosition_world (w : World) : World :=
  if pipePlaced (app w) then w
  else
    match fallbackReticle (app w) with
    | Some r => placePipe_world (Vector3.clone (fr_position r)) w
    | None => placePipe_world (vec3 0 0 (-3)) w
    end.

(** [setAR3DModel] after the import, with its call
    [ExcavationManager.create(ExcavationManager.getParams())]: the argument is
    a copy that nobody keeps. *)
Definition setAR3DModel_world (w : World) : World :=
  match pipePlaced (app w), pipeGroup (app w) with
  | true, Some _ =>
      let m := snd (ExcavationManager.create
                      (ExcavationManager.getParams (manager w)) (manager w)) in
      mkWorld (setAR3DModel (app w)) m (sampleExcavation w)
  | _, _ => autoPlaceAtDefaultPosition_world w
  end.

(** [rebuildExcavation(changedParams)], called by the four excavation
    sliders. *)
Definition rebuildExcavation (c : ExcavationManager.Changes) (w : World) : World :=
  let m := ExcavationManager.update c (manager w) in
  match excavationGroup (app w) with
  | Some e =>
      let pos := Vector3.clone (position e) in
      let rot := rotation_y e in
      let m := snd (ExcavationManager.create (ExcavationManager.getParams m) m) in
      let s := set_excavationGroup
                 (Some (mkObject3D pos rot (0 <? excavationState (app w))%nat))
                 (app w) in
      mkWorld s m (sampleExcavation w)
  | None => mkWorld (app w) m (sampleExcavation w)
  end.

(** The volume [rebuildExcavation] writes into [excVolume] (before
    [toFixed]). *)
Definition excVolume (w : World) : Q := ExcavationManager.getVolume (manager w).

(** ** CDN dependency check *)

Inductive Dependency : Type :=
| ThreeJs | GLTFLoader | FBXLoader | STLLoader | OBJLoader.

(** Which of the globals the page's script tags have defined. *)
Record Globals : Type := mkGlobals {
  THREE : bool;
  THREE_GLTFLoader : bool;
  THREE_FBXLoader : bool;
  THREE_STLLoader : bool;
  THREE_OBJLoader : bool
}.

(** What a run of [init] up to [checkDependencies] leaves: whether [init]
    goes on, whether [sessionStorage] holds the item [ar_cdn_retry], and
    whether the timer that calls [location.reload] is armed. *)
Record Checked : Type := mkChecked {
  proceeds : bool;
  ar_cdn_retry : bool;
  reloads : bool
}.

(** The list [missing] of [checkDependencies]. *)
Definition missing (g : Globals) : list Dependency :=
  if negb (THREE g) then [ThreeJs]
  else
    (if THREE_GLTFLoader g then [] else [GLTFLoader])
    ++ (if THREE_FBXLoader g then [] else [FBXLoader])
    ++ (if THREE_STLLoader g then [] else [STLLoader])
    ++ (if THREE_OBJLoader g then [] else [OBJLoader]).

(** [checkDependencies()]; [retry] is whether [sessionStorage] holds
    [ar_cdn_retry] at the call. *)
Definition checkDependencies (g : Globals) (retry : bool) : Checked :=
  if (0 <? length (missing g))%nat then
    if negb retry then mkChecked false true true
    else mkChecked true false false
  else mkChecked true false false.

(** The head of [init]: without [THREE] it returns before the check. *)
Definition init_check (g : Globals) (retry : bool) : Checked :=
  if negb (THREE g) then mkChecked false retry false
  else checkDependencies g retry.

(** Successive loads of the page in one tab, each with the globals it got:
    [sessionStorage] is carried from one load to the next. *)
Fixpoint pageLoads (gs : list Globals) (retry : bool) : list Checked :=
  match gs with
  | [] => []
  | g :: gs =>
      let c := init_check g retry in
      c :: pageLoads gs (ar_cdn_retry c)
  end.

(** ** The pointer rig of [setupFallbackControls] *)

Module Rig.

(** The variables of the closure, and [lastPinchDist]. *)
Record t : Type := mk {
  isDragging : bool;
  prevX : Q;
  prevY : Q;
  startX : Q;
  startY : Q;
  cameraAngleH : Q;
  cameraAngleV : Q;
  cameraDistance : Q;
  isPanning : bool;
  panStartX : Q;
  panStartY : Q;
  panTargetX : Q;
  panTargetZ : Q;
  lastPinchDist : Q
}.

Definition initial : t :=
  mk false 0 0 0 0 0 0.5 5 false 0 0 0 0 0.

Definition DRAG_THRESHOLD : Q := 8.

(** [Math.max(lo, Math.min(hi, x / y))] for the positive [x] the rig divides
    (a distance of at least 0.5, a field of view of at least 20): dividing
    by zero gives [Infinity], which [Math.min] cuts to [hi]. *)
Definition clampQuotient (lo hi x y : Q) : Q :=
  if Qeq_bool y 0 then Math_max lo hi
  else Math_max lo (Math_min hi (x / y)).

Section Trigonometry.

(** [Math.sin] and [Math.cos], whose values are numbers like the others. *)
Variables sin cos : Q -> Q.

(** [updateCameraPos]: the position it gives the camera.  The rotation
    [camera.lookAt(panTargetX, 0, panTargetZ)] computes comes with the
    event. *)
Definition updateCameraPos (g : t) : Vec3 :=
  vec3
    (cameraDistance g * sin (cameraAngleH g) * cos (cameraAngleV g) + panTargetX g)
    (Math_max 0.5 (cameraDistance g * sin (cameraAngleV g)))
    (cameraDistance g * cos (cameraAngleH g) * cos (cameraAngleV g) + panTargetZ g).

(** [pointerdown]; [button2] is [e.button === 2], [x], [y] are [e.clientX],
    [e.clientY]. *)
Definition pointerdown (button2 : bool) (x y : Q) (st : t * App) : t * App :=
  let (g, s) := st in
  if useDeviceOrientation s then (g, s)
  else if button2 then
    (mk (isDragging g) (prevX g) (prevY g) (startX g) (startY g)
        (cameraAngleH g) (cameraAngleV g) (cameraDistance g)
        true x y (panTargetX g) (panTargetZ g) (lastPinchDist g), s)
  else
    (mk true x y x y
        (cameraAngleH g) (cameraAngleV g) (cameraDistance g)
        (isPanning g) (panStartX g) (panStartY g) (panTargetX g) (panTargetZ g)
        (lastPinchDist g),
     canvas_pointerdown s).

(** [pointermove] *)
Definition pointermove (x y : Q) (r : Rotation) (st : t * App) : t * App :=
  let (g, s) := st in
  if useDeviceOrientation s then (g, s)
  else if isPanning g then
    let dx := (x - panStartX g) * 0.01 in
    let dz := (y - panStartY g) * 0.01 in
    let g' :=
      mk (isDragging g) (prevX g) (prevY g) (startX g) (startY g)
         (cameraAngleH g) (cameraAngleV g) (cameraDistance g)
         (isPanning g) x y
         (panTargetX g - (dx * cos (cameraAngleH g) + dz * sin (cameraAngleH g)))
         (panTargetZ g - (- dx * sin (cameraAngleH g) + dz * cos (cameraAngleH g)))
         (lastPinchDist g) in
    (g', set_camera (mkCamera (updateCameraPos g') r (fov (camera s))) s)
  else if negb (isDragging g) then (g, s)
  else
    let dx := x - prevX g in
    let dy := y - prevY g in
    let beyond :=
      Qltb DRAG_THRESHOLD (Qabs (x - startX g))
      || Qltb DRAG_THRESHOLD (Qabs (y - startY g)) in
    let g' :=
      mk (isDragging g) x y (startX g) (startY g)
         (cameraAngleH g + dx * 0.01)
         (Math_max 0.1 (Math_min 1.4 (cameraAngleV g + dy * 0.01)))
         (cameraDistance g)
         (isPanning g) (panStartX g) (panStartY g) (panTargetX g) (panTargetZ g)
         (lastPinchDist g) in
    (g', canvas_pointermove beyond (updateCameraPos g') r s).

(** [pointerup] *)
Definition pointerup (st : t * App) : t * App :=
  let (g, s) := st in
  (mk false (prevX g) (prevY g) (startX g) (startY g)
      (cameraAngleH g) (cameraAngleV g) (cameraDistance g)
      false (panStartX g) (panStartY g) (panTargetX g) (panTargetZ g)
      (lastPinchDist g), s).

(** [wheel] *)
Definition wheel (deltaY : Q) (r : Rotation) (st : t * App) : t * App :=
  let (g, s) := st in
  if useDeviceOrientation s then (g, s)
  else
    let g' :=
      mk (isDragging g) (prevX g) (prevY g) (startX g) (startY g)
         (cameraAngleH g) (cameraAngleV g)
         (Math_max 0.5 (Math_min 30 (cameraDistance g + deltaY * 0.01)))
         (isPanning g) (panStartX g) (panStartY g) (panTargetX g) (panTargetZ g)
         (lastPinchDist g) in
    (g', set_camera (mkCamera (updateCameraPos g') r (fov (camera s))) s).

Definition set_lastPinchDist (d : Q) (g : t) : t :=
  mk (isDragging g) (prevX g) (prevY g) (startX g) (startY g)
     (cameraAngleH g) (cameraAngleV g) (cameraDistance g)
     (isPanning g) (panStartX g) (panStartY g) (panTargetX g) (panTargetZ g) d.

(** [touchstart] with two touches, [dist] apart. *)
Definition touchstart (dist : Q) (st : t * App) : t * App :=
  let (g, s) := st in (set_lastPinchDist dist g, s).

(** [touchmove] with two touches, [dist] apart. *)
Definition touchmove (dist : Q) (r : Rotation) (st : t * App) : t * App :=
  let (g, s) := st in
  if Qltb 0 (lastPinchDist g) then
    let ratio := dist / lastPinchDist g in
    if useDeviceOrientation s then
      (set_lastPinchDist dist g,
       set_camera
         (mkCamera (cam_position (camera s)) (cam_quaternion (camera s))
            (clampQuotient 20 100 (fov (camera s)) ratio)) s)
    else
      let g' :=
        mk (isDragging g) (prevX g) (prevY g) (startX g) (startY g)
           (cameraAngleH g) (cameraAngleV g)
           (clampQuotient 0.5 30 (cameraDistance g) ratio)
           (isPanning g) (panStartX g) (panStartY g) (panTargetX g) (panTargetZ g)
           (lastPinchDist g) in
      (set_lastPinchDist dist g',
       set_camera (mkCamera (updateCameraPos g') r (fov (camera s))) s)
  else (set_lastPinchDist dist g, s).

(** [touchend] *)
Definition touchend (st : t * App) : t * App :=
  let (g, s) := st in (set_lastPinchDist 0 g, s).

(** What the listeners of the canvas receive. *)
Inductive Input : Type :=
| Down (button2 : bool) (x y : Q)
| Move (x y : Q) (r : Rotation)
| Up
| Wheel (deltaY : Q) (r : Rotation)
| TouchStart (dist : Q)
| TouchMove (dist : Q) (r : Rotation)
| TouchEnd.

Definition deliver (i : Input) (st : t * App) : t * App :=
  match i with
  | Down button2 x y => pointerdown button2 x y st
  | Move x y r => pointermove x y r st
  | Up => pointerup st
  | Wheel deltaY r => wheel deltaY r st
  | TouchStart dist => touchstart dist st
  | TouchMove dist r => touchmove dist r st
  | TouchEnd => touchend st
  end.

Definition deliverAll (inputs : list Input) (st : t * App) : t * App :=
  fold_left (fun st i => deliver i st) inputs st.

End Trigonometry.

End Rig.

(** ** Defaults of the pipe data ([loadARPipeData]) *)

Module PipeData.

Import String.
Local Open Scope string_scope.

(** The four properties of a pipe the loop looks at.  The empty string and
    the colour 0 stand for every falsy value, an absent property included:
    the loop tells them apart from nothing else. *)
Record Pipe : Type := mkPipe {
  id : string;
  type : string;
  color : N;
  label : string
}.

Definition falsy (s : string) : bool :=
  match s with EmptyString => true | _ => false end.

(** A number in a template literal. *)
Definition decimal (n : nat) : string :=
  DecimalString.NilEmpty.string_of_uint (Nat.to_uint n).

(** The body of the loop, for the pipe [p] at index [i]. *)
Definition fillDefaults (p : Pipe) (i : nat) : Pipe :=
  let p := if falsy (id p)
           then mkPipe ("P-" ++ decimal (i + 1)) (type p) (color p) (label p)
           else p in
  let p := if falsy (type p)
           then mkPipe (id p) "service" (color p) (label p)
           else p in
  let p := if N.eqb (color p) 0
           then mkPipe (id p) (type p)
                  (if type p =? "main" then 16747109%N else 5227511%N) (label p)
           else p in
  if falsy (label p)
  then mkPipe (id p) (type p) (color p)
         ((if type p =? "main" then "本管" else "取付管") ++ " " ++ id p)
  else p.

(** [pipes.forEach((p, i) => ...)], from index [i] on. *)
Fixpoint forEachFrom (i : nat) (pipes : list Pipe) : list Pipe :=
  match pipes with
  | [] => []
  | p :: rest => fillDefaults p i :: forEachFrom (S i) rest
  end.

Definition forEach (pipes : list Pipe) : list Pipe := forEachFrom 0 pipes.

End PipeData.

(** ** Fitting an imported model ([setAR3DModel]) *)

Module Box3.

(** THREE.Box3 *)
Record t : Type := mk { min : Vec3; max : Vec3 }.

Definition isEmpty (b : t) : bool :=
  Qltb (Vector3.x (max b)) (Vector3.x (min b))
  || Qltb (Vector3.y (max b)) (Vector3.y (min b))
  || Qltb (Vector3.z (max b)) (Vector3.z (min b)).

Definition getSize (b : t) : Vec3 :=
  if isEmpty b then vec3 0 0 0
  else vec3 (Vector3.x (max b) - Vector3.x (min b))
            (Vector3.y (max b) - Vector3.y (min b))
            (Vector3.z (max b) - Vector3.z (min b)).

Definition getCenter (b : t) : Vec3 :=
  if isEmpty b then vec3 0 0 0
  else Vector3.multiplyScalar (Vector3.add (min b) (max b)) 0.5.

(** The box moved by [d]. *)
Definition translate (d : Vec3) (b : t) : t :=
  mk (Vector3.add (min b) d) (Vector3.add (max b) d).

(** The box of an object at [p] after [scale.multiplyScalar(k)] with a
    positive [k]: every point of the object moves to [p + k (q - p)]. *)
Definition scaleAbout (p : Vec3) (k : Q) (b : t) : t :=
  mk (Vector3.add p (Vector3.multiplyScalar (Vector3.add (min b) (Vector3.negate p)) k))
     (Vector3.add p (Vector3.multiplyScalar (Vector3.add (max b) (Vector3.negate p)) k)).

End Box3.

Module ImportedModel.

(** The model a loader hands over: its [position], the factor its [scale]
    has been multiplied by, and the box [Box3.setFromObject] finds for
    it. *)
Record t : Type := mk {
  position : Vec3;
  scaled : Q;
  box : Box3.t
}.

(** The head of [setAR3DModel]: scale a model that is too large or too
    small to 2 m, then move it so that its box is centred on the origin and
    lowered by half its height. *)
Definition fit (m : t) : t :=
  let size := Box3.getSize (box m) in
  let center := Box3.getCenter (box m) in
  let maxDim := Math_max (Math_max (Vector3.x size) (Vector3.y size)) (Vector3.z size) in
  let m :=
    if Qltb 0.0001 maxDim then
      let targetSize := 2 in
      if Qltb (targetSize * 5) maxDim || Qltb maxDim (targetSize * 0.1) then
        let scale := targetSize / maxDim in
        mk (position m) (scaled m * scale) (Box3.scaleAbout (position m) scale (box m))
      else m
    else m in
  let size := Box3.getSize (box m) in
  let center := Box3.getCenter (box m) in
  let d := Vector3.addY (Vector3.negate center) (- (Vector3.y size / 2)) in
  mk (Vector3.add (position m) d) (scaled m) (Box3.translate d (box m)).

(** [Math.max(size.x, size.y, size.z)] of the model's box. *)
Definition maxDim (m : t) : Q :=
  let size := Box3.getSize (box m) in
  Math_max (Math_max (Vector3.x size) (Vector3.y size)) (Vector3.z size).

End ImportedModel.

(** * Vocabulary of the properties

    Nothing from here on is part of the script: these are the notions the
    statements are written with, the invariants the proofs carry and the
    scenarios the statements are tried on. *)

(** ** Placement, commit, reticle *)

(** The spec's Placement is spread over three variables: [placedPosition] is
    the base position, and [pipeGroup] carries the derived position and the
    yaw.  [effectivePose] is what is rendered: the asset's position and yaw. *)
Definition effectivePose (s : App) : option (Vec3 * Q) :=
  option_map (fun g => (position g, rotation_y g)) (pipeGroup s).

(** The spec's Placement: a base position, a yaw in degrees and a forward
    offset in millimetres. *)
Record Placement : Type := mkPlacement {
  basePosition : Vec3;
  yawOffsetDeg : Q;
  forwardOffsetMm : Q
}.

(** How the script comes to hold the Placement [p]: the commit puts the asset
    at the base position, the rotation slider sets the yaw, the distance
    slider sets the forward offset. *)
Definition holdPlacement (p : Placement) (s : App) : App :=
  distanceSlider_input (forwardOffsetMm p)
    (rotationSlider_input (yawOffsetDeg p) (placePipe (basePosition p) s)).

(** The sliders in the other order. *)
Definition holdPlacement' (p : Placement) (s : App) : App :=
  rotationSlider_input (yawOffsetDeg p)
    (distanceSlider_input (forwardOffsetMm p) (placePipe (basePosition p) s)).

(** The three user actions that commit a placement. *)
Inductive Commit : Type := BySelect | ByPlaceButton | ByCanvasClick.

Definition commitPlacement (c : Commit) (s : App) : App :=
  match c with
  | BySelect => onARSelect s
  | ByPlaceButton => btnPlace_click s
  | ByCanvasClick => canvas_click s
  end.

(** No reticle is drawn: the tracked one is absent or invisible, and so is the
    fallback one. *)
Definition reticleHidden (s : App) : bool :=
  negb (match reticle s with Some r => ar_visible r | None => false end)
  && negb (match fallbackReticle s with Some r => fr_visible r | None => false end).

(** The reticle of the backend that is active: the fallback reticle once the
    fallback backend runs, the tracked reticle while only the tracked session
    does. *)
Definition activeReticleVisible (s : App) : bool :=
  if fallbackMode s
  then match fallbackReticle s with Some r => fr_visible r | None => false end
  else match reticle s with Some r => ar_visible r | None => false end.

(** How often [r] was requested. *)
Definition requested (r : Request) (s : App) : nat :=
  length (filter (Request_eqb r) (requests s)).

Definition isReset (e : Event) : bool :=
  match e with ResetButton => true | _ => false end.

(** The frame inputs of the two backends. *)
Definition isFrame (e : Event) : bool :=
  match e with XRFrame _ | Animate => true | _ => false end.

(** ** Geometry *)

(** The spec's intersection of the forward ray with the ground:
    [P + D * t] with [t = -P.y / D.y]. *)
Definition groundIntersection (c : Camera) : Vec3 :=
  let p := cam_position c in
  let d := cam_dir c in
  Vector3.add p (Vector3.multiplyScalar d (- Vector3.y p / Vector3.y d)).

(** The local [groundPoint] of [updateFallbackReticle]: the same point with
    its height written as the literal 0. *)
Definition groundPoint (c : Camera) : Vec3 :=
  let p := cam_position c in
  let d := cam_dir c in
  let t := - Vector3.y p / Vector3.y d in
  vec3 (Vector3.x p + Vector3.x d * t) 0 (Vector3.z p + Vector3.z d * t).

(** The square of the distance between [a] and [b] as seen from above. *)
Definition horizontalDistanceSquared (a b : Vec3) : Q :=
  (Vector3.x a - Vector3.x b) * (Vector3.x a - Vector3.x b)
  + (Vector3.z a - Vector3.z b) * (Vector3.z a - Vector3.z b).

Definition lengthSquared (v : Vec3) : Q :=
  Vector3.x v * Vector3.x v + Vector3.y v * Vector3.y v + Vector3.z v * Vector3.z v.

(** The real-number reading of the model, for what the rationals cannot say:
    square roots and the sine and cosine of the yaw. *)
Module RealView.

Local Open Scope R_scope.

Record Vec3R : Type := mkVec3R { rx : R; ry : R; rz : R }.

Definition ofVec3 (v : Vec3) : Vec3R :=
  mkVec3R (Q2R (Vector3.x v)) (Q2R (Vector3.y v)) (Q2R (Vector3.z v)).

Definition addR (a b : Vec3R) : Vec3R :=
  mkVec3R (rx a + rx b) (ry a + ry b) (rz a + rz b).

Definition scaleR (v : Vec3R) (k : R) : Vec3R := mkVec3R (rx v * k) (ry v * k) (rz v * k).

(** [a.distanceTo(b)] *)
Definition distanceTo (a b : Vec3) : R :=
  sqrt (Q2R (Vector3.distanceToSquared a b)).

(** [THREE.MathUtils.degToRad] *)
Definition degToRad (d : R) : R := d * PI / 180.

(** The spec's [forward(yawOffsetDeg)]: the forward axis -Z turned about the
    vertical by the yaw, as [rotation.y] turns the asset. *)
Definition forward (yawDeg : R) : Vec3R :=
  mkVec3R (- sin (degToRad yawDeg)) 0 (- cos (degToRad yawDeg)).

(** The same with +Z for the forward axis. *)
Definition forward' (yawDeg : R) : Vec3R :=
  mkVec3R (sin (degToRad yawDeg)) 0 (cos (degToRad yawDeg)).

(** The spec's formula:
    [basePosition + forward(yawOffsetDeg) * (-forwardOffsetMm / 1000)]. *)
Definition specEffectivePosition (fwd : R -> Vec3R) (p : Placement) : Vec3R :=
  addR (ofVec3 (basePosition p))
    (scaleR (fwd (Q2R (yawOffsetDeg p))) (- Q2R (forwardOffsetMm p) / 1000)).

(** The script follows the formula at the Placement [p]: the position it
    renders, once it holds [p], is the formula's. *)
Definition followsSpecFormula (fwd : R -> Vec3R) (p : Placement) : Prop :=
  forall pos yaw,
    effectivePose (holdPlacement p initial) = Some (pos, yaw) ->
    ofVec3 pos = specEffectivePosition fwd p.

End RealView.

(** ** Statements of the spec that the script does not satisfy

    Each is written down as the spec words it, to be refuted at a concrete
    state further down. *)

(** A commit with no candidate and nothing placed changes no state. *)
Definition commitIgnoredWithoutCandidate : Prop :=
  forall (c : Commit) (s : App),
    reachable s -> pipePlaced s = false -> reticleHidden s = true ->
    commitPlacement c s = s.

(** Once a placement exists no reticle is drawn. *)
Definition reticleHiddenOncePlaced : Prop :=
  forall s : App, reachable s -> pipePlaced s = true -> reticleHidden s = true.

(** With the camera level or pitched up (forward direction [D] of unit
    length, [D.y >= -0.01]) a frame with a live reticle puts it on the
    ground, 3 m ahead of the camera. *)
Definition reticleThreeMetresAhead : Prop :=
  forall (s : App) (r : FallbackReticle),
    reachable s ->
    fallbackReticle s = Some r -> fr_visible r = true -> pipePlaced s = false ->
    lengthSquared (cam_dir (camera (animate s))) == 1 ->
    -0.01 <= Vector3.y (cam_dir (camera (animate s))) ->
    exists r', fallbackReticle (animate s) = Some r'
               /\ Vector3.y (fr_position r') == 0
               /\ horizontalDistanceSquared (fr_position r')
                    (cam_position (camera (animate s))) == 3 * 3.

(** Reset leaves the reticle of the active backend visible. *)
Definition resetShowsActiveReticle : Prop :=
  forall s : App,
    reachable s -> xrSession s = true \/ fallbackMode s = true ->
    activeReticleVisible (step ResetButton s) = true.

(** A positive forward offset moves the asset towards +Z. *)
Definition positiveOffsetTowardsCamera : Prop :=
  forall (v : Q) (s : App) (base pos : Vec3) (yaw : Q),
    reachable s -> placedPosition s = Some base -> 0 < v ->
    effectivePose (distanceSlider_input v s) = Some (pos, yaw) ->
    Vector3.z base < Vector3.z pos.

(** ** Invariants and frames *)

(** The placed flag and the variables of the Placement move together: while
    [pipePlaced] holds there is one asset, one base position and one ground
    marker, the tracked reticle is hidden and the fallback reticle's label is
    not drawn; while it does not hold there is none of them. *)
Definition placementInv (s : App) : Prop :=
  if pipePlaced s then
    pipeGroup s <> None /\ placedPosition s <> None
    /\ length (placedMarkers s) = 1%nat
    /\ (forall r, reticle s = Some r -> ar_visible r = false)
    /\ (forall r, fallbackReticle s = Some r -> fr_visible r && fr_labelVisible r = false)
  else
    pipeGroup s = None /\ placedPosition s = None /\ placedMarkers s = [].

(** Once the fallback backend is active it has a reticle, and the reticle is
    visible for as long as nothing is placed. *)
Definition fallbackInv (s : App) : Prop :=
  fallbackMode s = true ->
  exists r, fallbackReticle s = Some r /\ (pipePlaced s = false -> fr_visible r = true).

(** [s'] holds the Placement and the tracked reticle exactly as [s] does. *)
Definition samePlacement (s s' : App) : Prop :=
  pipePlaced s' = pipePlaced s
  /\ pipeGroup s' = pipeGroup s
  /\ excavationGroup s' = excavationGroup s
  /\ placedPosition s' = placedPosition s
  /\ placedMarkers s' = placedMarkers s
  /\ reticle s' = reticle s.

(** [s'] has the backends in the state [s] has them. *)
Definition sameSession (s s' : App) : Prop :=
  fallbackMode s' = fallbackMode s
  /\ xrSession s' = xrSession s
  /\ hitTestSource s' = hitTestSource s
  /\ xrLoop s' = xrLoop s.

(** [s'] has the camera stream and the request log of [s]. *)
Definition sameRequests (s s' : App) : Prop :=
  cameraVideo s' = cameraVideo s /\ requests s' = requests s.

(** [s'] has the three flags of the fallback backend as [s] has them. *)
Definition sameFallbackFlags (s s' : App) : Prop :=
  fallbackMode s' = fallbackMode s
  /\ fallbackAnimateRunning s' = fallbackAnimateRunning s
  /\ fallbackControlsReady s' = fallbackControlsReady s.

(** Once the fallback backend is active its loop runs and its controls are
    set up. *)
Definition startedInv (s : App) : Prop :=
  fallbackMode s = true ->
  fallbackAnimateRunning s = true /\ fallbackControlsReady s = true.

(** The state holds exactly one Placement Store entry: the flag, one asset,
    one base position, one ground marker. *)
Definition holdsOnePlacement (s : App) : Prop :=
  pipePlaced s = true
  /\ length (placedMarkers s) = 1%nat
  /\ pipeGroup s <> None
  /\ placedPosition s <> None.

(** The state serves the commit [c]: the tracked session's select is served
    wherever it arrives; the place button and the tap on the canvas are
    served by the fallback backend, the tap unless the pointer rig has
    marked it as the end of a drag. *)
Definition served (c : Commit) (s : App) : Prop :=
  match c with
  | BySelect => True
  | ByPlaceButton => fallbackMode s = true
  | ByCanvasClick =>
      fallbackMode s = true
      /\ (useDeviceOrientation s = true \/ wasDragged s = false)
  end.

(** A tap on the canvas as the browser delivers it: the pointer goes down,
    then the click. *)
Definition tap : list Event := [PointerDown; CanvasClick].

(** The two halves of [animate]: the camera follows the gyroscope, then the
    reticle follows the camera. *)
Definition followGyroscope (s : App) : App :=
  if useDeviceOrientation s then updateCameraFromOrientation s else s.

Definition followCamera (s : App) : App :=
  match fallbackReticle s with
  | Some r => if fr_visible r && negb (pipePlaced s) then updateFallbackReticle s else s
  | None => s
  end.

(** ** Scenarios *)

(** What a fallback start is given when the camera is granted and the pointer
    rig stands at (0, 2, 4), looking down at the ground in front of it. *)
Definition demoStart : FallbackStart :=
  mkFallbackStart StreamGranted (vec3 0 2 4) lookAtDefault.

(** The fallback backend just started. *)
Definition fallbackStarted : App := run [StartFallback demoStart] initial.

(** A commit by a tap in the fallback backend. *)
Definition fallbackPlacedTrace : list Event := [StartFallback demoStart; CanvasClick].

(** A tracked session whose hit test has found no surface yet. *)
Definition searchingTrace : list Event :=
  [StartAR (SessionStarted true); XRFrame (Some [])].

(** A tracked session that has committed a placement at a hit pose, turned the
    asset by 90 degrees and slid it by 500 mm. *)
Definition trackedPlacedTrace : list Event :=
  [StartAR (SessionStarted true); XRFrame (Some [Some (vec3 1 0 (-2))]); XRSelect;
   RotationSlider 90; DistanceSlider 500].

Definition trackedPlaced : App := run trackedPlacedTrace initial.

(** The camera at eye height, pitched up: its forward direction is the unit
    vector (0, 3/5, -4/5). *)
Definition lookingUp : Rotation :=
  mkRotation (vec3 1 0 0) (vec3 0 (4 # 5) (3 # 5)) (vec3 0 (- 3 # 5) (4 # 5)).

Definition fallbackLookingUp : App :=
  run [StartFallback demoStart; PointerMove false (vec3 0 1.6 0) lookingUp] initial.

(** The camera at eye height, pitched down by about three degrees: its
    forward direction is the unit vector (0, -80/1601, -1599/1601). *)
Definition lookingAtHorizon : Rotation :=
  mkRotation (vec3 1 0 0) (vec3 0 (1599 # 1601) (- 80 # 1601))
    (vec3 0 (80 # 1601) (1599 # 1601)).

Definition fallbackLookingAtHorizon : App :=
  run [StartFallback demoStart; PointerMove false (vec3 0 1.6 0) lookingAtHorizon] initial.

(** A quarter turn and a slide of one metre, from the origin. *)
Definition quarterTurnOneMetre : Placement := mkPlacement (vec3 0 0 0) 90 1000.

(** ** Further invariants *)

(** The excavation volume goes with the asset: both exist or neither does,
    they share position and yaw, the volume is shown exactly when
    [excavationState] is positive, and [excavationState] is 0, 1 or 2. *)
Definition excavationInv (s : App) : Prop :=
  (excavationState s < 3)%nat
  /\ match pipeGroup s, excavationGroup s with
     | Some g, Some e =>
         position e = position g /\ rotation_y e = rotation_y g
         /\ visible e = (0 <? excavationState s)%nat
     | None, None => True
     | _, _ => False
     end.

(** Where [activateDeviceOrientation] and [startFallbackMode] put the
    camera. *)
Definition eyeHeight : Vec3 := vec3 0 1.6 0.

Definition isViewerPose (e : Event) : bool :=
  match e with XRViewerPose _ _ => true | _ => false end.

Definition isStartAR (e : Event) : bool :=
  match e with StartAR _ => true | _ => false end.



(** The one kind of event that can issue the request [r]: the start button
    for a tracked session, the gyroscope button for the orientation
    permission, a fallback start or a hand-off for the camera stream. *)
Definition issues (r : Request) (e : Event) : bool :=
  match r, e with
  | TrackedSessionRequest, StartAR _ => true
  | OrientationPermissionRequest, GyroPermission _ => true
  | CameraStreamRequest, StartFallback _ => true
  | CameraStreamRequest, XREnd _ => true
  | _, _ => false
  end.

(** The fallback backend on a device whose first orientation sample has
    arrived. *)
Definition gyroStarted : App := run [StartFallback demoStart; FirstOrientation] initial.

(** ** The excavation volume's parameters *)

(** [SAMPLE_PIPE_DATA.excavation] as the page loads it, or as the first
    [create] leaves it. *)
Definition sampleAsKept (a : ExcavationManager.Arg) : Prop :=
  a = SAMPLE_PIPE_DATA_excavation
  \/ a = fst (ExcavationManager.create SAMPLE_PIPE_DATA_excavation
                ExcavationManager.initial).

(** The group, where there is one, holds what [_buildMesh] makes of the
    current parameters. *)
Definition builtFromParams (m : ExcavationManager.t) : Prop :=
  forall g, ExcavationManager.group m = Some g ->
            g = ExcavationManager._buildMesh (ExcavationManager.params m).

(** The world after a first placement, a move of the width slider to
    1000 mm, and a reset. *)
Definition widenedThenReset : World :=
  let w := mkWorld initial ExcavationManager.initial SAMPLE_PIPE_DATA_excavation in
  let w := placePipe_world (vec3 0 0 (-3)) w in
  let w := rebuildExcavation
             (ExcavationManager.mkChanges (Some 1000) None None None) w in
  mkWorld (btnReset_click (app w)) (manager w) (sampleExcavation w).

(** ** The pointer rig *)

(** The ranges the listeners clamp to. *)
Definition rigInRange (st : Rig.t * App) : Prop :=
  (0.1 <= Rig.cameraAngleV (fst st) /\ Rig.cameraAngleV (fst st) <= 1.4)
  /\ (0.5 <= Rig.cameraDistance (fst st) /\ Rig.cameraDistance (fst st) <= 30)
  /\ (20 <= fov (camera (snd st)) /\ fov (camera (snd st)) <= 100).

(** A pointer position more than [DRAG_THRESHOLD] pixels from [(x0, y0)] along
    one of the axes. *)
Definition beyondThreshold (x0 y0 : Q) (m : Q * Q * Rotation) : bool :=
  let '(x, y, _) := m in
  Qltb Rig.DRAG_THRESHOLD (Qabs (x - x0)) || Qltb Rig.DRAG_THRESHOLD (Qabs (y - y0)).

(** A drag: the primary button goes down at [(x0, y0)], then the pointer
    moves. *)
Definition drag (x0 y0 : Q) (moves : list (Q * Q * Rotation)) : list Rig.Input :=
  Rig.Down false x0 y0 :: map (fun m => let '(x, y, r) := m in Rig.Move x y r) moves.

(** The events of the script that stand for pointer input. *)
Definition isPointerEvent (e : Event) : bool :=
  match e with
  | PointerDown | PointerMove _ _ _ | PinchFov _ => true
  | _ => false
  end.

(** ** Pipe data *)

(** A pipe with its four properties set. *)
Definition pipeComplete (p : PipeData.Pipe) : Prop :=
  PipeData.falsy (PipeData.id p) = false
  /\ PipeData.falsy (PipeData.type p) = false
  /\ PipeData.color p <> 0%N
  /\ PipeData.falsy (PipeData.label p) = false.

(** [p'] has every property that [p] has set, with the same value. *)
Definition pipeKeeps (p p' : PipeData.Pipe) : Prop :=
  (PipeData.falsy (PipeData.id p) = false -> PipeData.id p' = PipeData.id p)
  /\ (PipeData.falsy (PipeData.type p) = false -> PipeData.type p' = PipeData.type p)
  /\ (PipeData.color p <> 0%N -> PipeData.color p' = PipeData.color p)
  /\ (PipeData.falsy (PipeData.label p) = false
      -> PipeData.label p' = PipeData.label p).

(** ** Imported models *)

(** A box with something in it. *)
Definition boxInhabited (b : Box3.t) : Prop :=
  Vector3.x (Box3.min b) <= Vector3.x (Box3.max b)
  /\ Vector3.y (Box3.min b) <= Vector3.y (Box3.max b)
  /\ Vector3.z (Box3.min b) <= Vector3.z (Box3.max b).

(** * Properties *)

(** ** Tactics *)

(** Closed conjunctions of equations, by evaluation. *)
Ltac by_computation :=
  cbv zeta; repeat match goal with |- _ /\ _ => split end; vm_compute; reflexivity.

(** Case analysis on the tests a handler makes. *)
Ltac branch :=
  repeat match goal with
    | |- context [if ?b then _ else _] => destruct b eqn:?
    | |- context [match ?o with Some _ => _ | None => _ end] => destruct o eqn:?
    end.

(** ** Comparisons *)

Lemma Qltb_lt (a b : Q) : Qltb a b = true <-> a < b.
Proof.
  unfold Qltb. rewrite negb_true_iff.
  split; intro H.
  - apply Qnot_le_lt. intro Hle. apply Qle_bool_iff in Hle. congruence.
  - destruct (Qle_bool b a) eqn:E; [|reflexivity].
    apply Qle_bool_iff in E. exfalso. exact (Qlt_not_le _ _ H E).
Qed.

Lemma Qltb_ge (a b : Q) : Qltb a b = false <-> b <= a.
Proof.
  unfold Qltb. rewrite negb_false_iff. apply Qle_bool_iff.
Qed.

(** ** Loading pipe data *)

(** [loadARPipeData] either throws, leaving the state, or runs its tail. *)
Lemma loadARPipeData_cases (first : option FirstPipe) (s : App) :
  loadARPipeData first s = s
  \/ loadARPipeData first s
     = match pipePlaced s, pipeGroup s with
       | true, Some g =>
           set_placedPosition (Some (Vector3.clone (Vector3.clone (position g))))
             (set_pipeGroup
                (Some (mkObject3D (Vector3.clone (position g)) (rotation_y g) true)) s)
       | _, _ => autoPlaceAtDefaultPosition s
       end.
Proof.
  unfold loadARPipeData.
  destruct (updatePipeInfoPanel_throws first); [left; reflexivity|].
  destruct (createPipeAssembly_throws first).
  - left. destruct (pipePlaced s); [destruct (pipeGroup s)|]; reflexivity.
  - right. reflexivity.
Qed.

(** ** What every reachable state satisfies *)

Lemma placePipe_inv (pos : Vec3) (s : App) :
  pipePlaced s = false -> placementInv s -> placementInv (placePipe pos s).
Proof.
  unfold placementInv. intros Hp. rewrite Hp. intros (_ & _ & Hm).
  simpl. rewrite Hm. repeat split; try discriminate.
  - intros r. destruct (reticle s); simpl; [|discriminate].
    intros [= <-]. reflexivity.
  - intros r. destruct (fallbackReticle s); simpl; [|discriminate].
    intros [= <-]. simpl. apply andb_false_r.
Qed.

Lemma initial_inv : placementInv initial.
Proof. unfold placementInv. simpl. auto. Qed.

Ltac by_placePipe :=
  match goal with
  | |- placementInv (placePipe _ _) => apply placePipe_inv; assumption
  end.

Lemma commit_inv (c : Commit) (s : App) :
  placementInv s -> placementInv (commitPlacement c s).
Proof.
  intros H. destruct c; simpl.
  - unfold onARSelect. branch; try assumption; by_placePipe.
  - unfold btnPlace_click. branch; try assumption; by_placePipe.
  - unfold canvas_click.
    destruct (pipePlaced s) eqn:Hp.
    + rewrite orb_true_r. assumption.
    + rewrite orb_false_r. branch; try assumption; by_placePipe.
Qed.

Lemma autoPlace_inv (s : App) :
  placementInv s -> placementInv (autoPlaceAtDefaultPosition s).
Proof.
  intros H. unfold autoPlaceAtDefaultPosition. branch; try assumption; by_placePipe.
Qed.

(** Handlers that touch neither the placed flag nor what it guards. *)
Lemma placementInv_ext (s s' : App) :
  pipePlaced s' = pipePlaced s ->
  (pipeGroup s' = None <-> pipeGroup s = None) ->
  placedPosition s' = placedPosition s ->
  placedMarkers s' = placedMarkers s ->
  (pipePlaced s = true -> forall r, reticle s' = Some r -> ar_visible r = false) ->
  (pipePlaced s = true ->
   forall r, fallbackReticle s' = Some r -> fr_visible r && fr_labelVisible r = false) ->
  placementInv s -> placementInv s'.
Proof.
  unfold placementInv. intros Hp Hg Hb Hm Hr Hf. rewrite Hp, Hb, Hm.
  destruct (pipePlaced s).
  - intros (H1 & H2 & H3 & _ & _). repeat split; auto.
    intro E. apply H1, Hg, E.
  - intros (H1 & H2 & H3). repeat split; auto. apply Hg, H1.
Qed.

Lemma inv_reticle (s : App) :
  placementInv s -> pipePlaced s = true ->
  forall r, reticle s = Some r -> ar_visible r = false.
Proof. unfold placementInv. intros H Hp. rewrite Hp in H. apply H. Qed.

Lemma inv_label (s : App) :
  placementInv s -> pipePlaced s = true ->
  forall r, fallbackReticle s = Some r -> fr_visible r && fr_labelVisible r = false.
Proof. unfold placementInv. intros H Hp. rewrite Hp in H. apply H. Qed.

Lemma animate_inv (s : App) : placementInv s -> placementInv (animate s).
Proof.
  intros H. unfold animate.
  assert (Hu : forall t, placementInv t ->
             placementInv (if useDeviceOrientation t then updateCameraFromOrientation t else t)).
  { intros t Ht. destruct (useDeviceOrientation t); [|exact Ht].
    apply (placementInv_ext t); simpl; try reflexivity; try assumption.
    - intros Hp. apply inv_reticle; assumption.
    - intros Hp. apply inv_label; assumption. }
  specialize (Hu s H).
  set (t := if useDeviceOrientation s then updateCameraFromOrientation s else s) in *.
  destruct (fallbackReticle t) as [r|] eqn:Er; [|exact Hu].
  destruct (fr_visible r && negb (pipePlaced t)) eqn:Eg; [|exact Hu].
  apply andb_true_iff in Eg. destruct Eg as [_ Eg]. apply negb_true_iff in Eg.
  unfold updateFallbackReticle. rewrite Er.
  apply (placementInv_ext t); simpl; try reflexivity; try assumption; congruence.
Qed.

(** ** What the fallback backend leaves alone *)

Lemma samePlacement_refl (s : App) : samePlacement s s.
Proof. repeat split. Qed.

Lemma samePlacement_trans (a b c : App) :
  samePlacement a b -> samePlacement b c -> samePlacement a c.
Proof.
  unfold samePlacement.
  intros (A1 & A2 & A3 & A4 & A5 & A6) (B1 & B2 & B3 & B4 & B5 & B6).
  repeat split; congruence.
Qed.

Lemma animate_samePlacement (s : App) : samePlacement s (animate s).
Proof.
  unfold animate, updateFallbackReticle, updateCameraFromOrientation.
  destruct (useDeviceOrientation s); simpl; branch; simpl; repeat split.
Qed.

Lemma startCameraBackground_samePlacement (o : StreamOutcome) (s : App) :
  samePlacement s (startCameraBackground o s).
Proof.
  unfold startCameraBackground. destruct (cameraVideo s), o; repeat split.
Qed.

Lemma startFallbackMode_samePlacement (i : FallbackStart) (s : App) :
  samePlacement s (startFallbackMode i s).
Proof.
  unfold startFallbackMode.
  destruct (fallbackMode s && fallbackAnimateRunning s); [apply samePlacement_refl|].
  cbv zeta.
  set (s1 := set_fallbackMode true s).
  set (s2 := startCameraBackground (stream i) s1).
  set (s3 := set_camera _ s2).
  set (s4 := set_fallbackReticle (Some createFallbackReticle) s3).
  set (s5 := if fallbackControlsReady s4 then s4 else _).
  set (s6 := if fallbackAnimateRunning s5 then s5 else _).
  assert (H2 : samePlacement s s2).
  { apply samePlacement_trans with s1; [repeat split|].
    apply startCameraBackground_samePlacement. }
  assert (H4 : samePlacement s s4).
  { apply samePlacement_trans with s2; [exact H2|]. repeat split. }
  assert (H5 : samePlacement s s5).
  { apply samePlacement_trans with s4; [exact H4|]. subst s5.
    unfold setupFallbackControls.
    destruct (fallbackControlsReady s4); [apply samePlacement_refl|].
    destruct (useDeviceOrientation s4); repeat split. }
  assert (H6 : samePlacement s s6).
  { apply samePlacement_trans with s5; [exact H5|]. subst s6.
    destruct (fallbackAnimateRunning s5); [apply samePlacement_refl|].
    apply samePlacement_trans with (set_fallbackAnimateRunning true s5);
      [repeat split | apply animate_samePlacement]. }
  destruct (pipePlaced s6); [|exact H6].
  apply samePlacement_trans with s6; [exact H6|]. repeat split.
Qed.

(** With a placement in hand, [startFallbackMode] ends with its reticle
    hidden. *)
Lemma startFallbackMode_hides (i : FallbackStart) (s : App) :
  fallbackMode s && fallbackAnimateRunning s = false -> pipePlaced s = true ->
  exists p l, fallbackReticle (startFallbackMode i s) = Some (mkFallbackReticle p false l).
Proof.
  intros Hf Hp. unfold startFallbackMode. rewrite Hf. cbv zeta.
  set (s1 := set_fallbackMode true s).
  set (s2 := startCameraBackground (stream i) s1).
  set (s3 := set_camera _ s2).
  set (s4 := set_fallbackReticle (Some createFallbackReticle) s3).
  set (s5 := if fallbackControlsReady s4 then s4 else _).
  set (s6 := if fallbackAnimateRunning s5 then s5 else _).
  assert (P2 : pipePlaced s2 = true).
  { destruct (startCameraBackground_samePlacement (stream i) s1) as [E _].
    fold s2 in E. rewrite E. exact Hp. }
  assert (F5 : fallbackReticle s5 = Some createFallbackReticle /\ pipePlaced s5 = true).
  { subst s5. unfold setupFallbackControls.
    destruct (fallbackControlsReady s4); [split; [reflexivity | exact P2]|].
    destruct (useDeviceOrientation s4); split; solve [reflexivity | exact P2]. }
  destruct F5 as [F5 P5].
  assert (F6 : fallbackReticle s6 = Some createFallbackReticle /\ pipePlaced s6 = true).
  { subst s6. destruct (fallbackAnimateRunning s5); [split; assumption|].
    unfold animate, updateCameraFromOrientation.
    destruct (useDeviceOrientation (set_fallbackAnimateRunning true s5)); simpl;
      rewrite F5, P5; simpl; split; assumption. }
  destruct F6 as [F6 P6]. rewrite P6. simpl. rewrite F6. simpl.
  eexists _, _. reflexivity.
Qed.

Lemma startFallbackMode_inv (i : FallbackStart) (s : App) :
  placementInv s -> placementInv (startFallbackMode i s).
Proof.
  intros H.
  destruct (fallbackMode s && fallbackAnimateRunning s) eqn:Eg.
  { unfold startFallbackMode. rewrite Eg. exact H. }
  destruct (startFallbackMode_samePlacement i s) as (E1 & E2 & _ & E4 & E5 & E6).
  apply (placementInv_ext s); try assumption.
  - rewrite E2. reflexivity.
  - intros Hp r. rewrite E6. apply inv_reticle; assumption.
  - intros Hp r. destruct (startFallbackMode_hides i s Eg Hp) as (p & l & E).
    rewrite E. intros [= <-]. reflexivity.
Qed.

Lemma step_inv (e : Event) (s : App) : placementInv s -> placementInv (step e s).
Proof.
  intros H. destruct e; simpl.
  - (* StartAR *)
    unfold startARSession. destruct o.
    + apply (placementInv_ext s); simpl; try reflexivity; try assumption.
      * intros _ r [= <-]. reflexivity.
      * intros Hp. apply inv_label; assumption.
    + apply (placementInv_ext s); simpl; try reflexivity; try assumption.
      * intros Hp. apply inv_reticle; assumption.
      * intros Hp. apply inv_label; assumption.
  - apply startFallbackMode_inv, H.
  - (* XRFrame *)
    destruct (xrLoop s); [|exact H]. unfold onXRFrame.
    destruct frame as [hits|]; [|exact H].
    destruct (hitTestSource s && negb (pipePlaced s)) eqn:Eg; [|exact H].
    apply andb_true_iff in Eg. destruct Eg as [_ Eg]. apply negb_true_iff in Eg.
    destruct hits as [|[pose|] rest]; try exact H;
      apply (placementInv_ext s); simpl; try reflexivity; try assumption; congruence.
  - (* XRViewerPose *)
    destruct (xrLoop s); [|exact H].
    apply (placementInv_ext s); simpl; try reflexivity; try assumption.
    + intros Hp. apply inv_reticle; assumption.
    + intros Hp. apply inv_label; assumption.
  - destruct (xrSession s); [|exact H]. apply (commit_inv BySelect), H.
  - (* XREnd *)
    destruct (xrSession s); [|exact H]. unfold xrSession_end. cbv zeta.
    set (t := set_xrLoop false _).
    assert (Ht : placementInv t).
    { apply (placementInv_ext s); simpl; try reflexivity; try assumption.
      - intros Hp. apply inv_reticle; assumption.
      - intros Hp. apply inv_label; assumption. }
    destruct (negb (fallbackMode t)); [apply startFallbackMode_inv|]; exact Ht.
  - destruct (fallbackAnimateRunning s); [apply animate_inv|]; exact H.
  - (* FirstOrientation *)
    destruct (fallbackControlsReady s && negb (useDeviceOrientation s)); [|exact H].
    apply (placementInv_ext s); simpl; try reflexivity; try assumption.
    + intros Hp. apply inv_reticle; assumption.
    + intros Hp. apply inv_label; assumption.
  - (* GyroPermission *)
    destruct (fallbackControlsReady s); [|exact H].
    unfold btnGyroPermission_click, activateDeviceOrientation.
    destruct granted;
      (apply (placementInv_ext s); simpl; try reflexivity; try assumption;
       [ intros Hp; apply inv_reticle; assumption
       | intros Hp; apply inv_label; assumption ]).
  - (* OrientationSample *)
    destruct (useDeviceOrientation s); [|exact H].
    apply (placementInv_ext s); simpl; try reflexivity; try assumption.
    + intros Hp. apply inv_reticle; assumption.
    + intros Hp. apply inv_label; assumption.
  - (* PointerDown *)
    destruct (fallbackControlsReady s); [|exact H]. unfold canvas_pointerdown.
    destruct (useDeviceOrientation s); [exact H|].
    apply (placementInv_ext s); simpl; try reflexivity; try assumption.
    + intros Hp. apply inv_reticle; assumption.
    + intros Hp. apply inv_label; assumption.
  - (* PointerMove *)
    destruct (fallbackControlsReady s); [|exact H]. unfold canvas_pointermove.
    destruct (useDeviceOrientation s); [exact H|].
    destruct beyond;
      (apply (placementInv_ext s); simpl; try reflexivity; try assumption;
       [ intros Hp; apply inv_reticle; assumption
       | intros Hp; apply inv_label; assumption ]).
  - (* PinchFov *)
    destruct (fallbackControlsReady s && useDeviceOrientation s); [|exact H].
    apply (placementInv_ext s); simpl; try reflexivity; try assumption.
    + intros Hp. apply inv_reticle; assumption.
    + intros Hp. apply inv_label; assumption.
  - apply (commit_inv ByPlaceButton), H.
  - apply (commit_inv ByCanvasClick), H.
  - (* ResetButton *)
    unfold placementInv. simpl. auto.
  - (* RotationSlider *)
    apply (placementInv_ext s); simpl; try reflexivity; try assumption.
    + destruct (pipeGroup s); simpl; split; congruence.
    + intros Hp. apply inv_reticle; assumption.
    + intros Hp. apply inv_label; assumption.
  - (* DistanceSlider *)
    unfold distanceSlider_input.
    destruct (pipeGroup s) as [g|] eqn:Eg; [|exact H].
    destruct (placedPosition s) as [b|] eqn:Eb; [|exact H].
    apply (placementInv_ext s); simpl; try reflexivity; try assumption.
    + rewrite Eg. split; congruence.
    + intros Hp. apply inv_reticle; assumption.
    + intros Hp. apply inv_label; assumption.
  - (* ExcavationButton *)
    apply (placementInv_ext s); simpl; try reflexivity; try assumption.
    + intros Hp. apply inv_reticle; assumption.
    + intros Hp. apply inv_label; assumption.
  - (* ModelLoaded *)
    unfold setAR3DModel.
    destruct (pipePlaced s) eqn:Hp; [|apply autoPlace_inv, H].
    destruct (pipeGroup s) as [g|] eqn:Eg; [|apply autoPlace_inv, H].
    pose proof H as H'. unfold placementInv in H'. rewrite Hp in H'.
    destruct H' as (_ & _ & Hm & Hr & Hl).
    unfold placementInv. simpl. rewrite Hp. repeat split; try discriminate; assumption.
  - (* PipeDataLoaded *)
    destruct (loadARPipeData_cases first s) as [-> | ->]; [exact H|].
    destruct (pipePlaced s) eqn:Hp; [|apply autoPlace_inv, H].
    destruct (pipeGroup s) as [g|] eqn:Eg; [|apply autoPlace_inv, H].
    pose proof H as H'. unfold placementInv in H'. rewrite Hp in H'.
    destruct H' as (_ & _ & Hm & Hr & Hl).
    unfold placementInv. simpl. rewrite Hp. repeat split; try discriminate; assumption.
Qed.

Lemma run_inv (es : list Event) (s : App) : placementInv s -> placementInv (run es s).
Proof.
  revert s. induction es as [|e es IH]; intros s H; simpl.
  - exact H.
  - apply IH, step_inv, H.
Qed.

Lemma reachable_inv (s : App) : reachable s -> placementInv s.
Proof. intros [es ->]. apply run_inv, initial_inv. Qed.

Lemma run_app (es es' : list Event) (s : App) :
  run (es ++ es') s = run es' (run es s).
Proof. unfold run. apply fold_left_app. Qed.

Lemma reachable_trace (es : list Event) : reachable (run es initial).
Proof. exists es. reflexivity. Qed.

Lemma reachable_run (es : list Event) (s : App) :
  reachable s -> reachable (run es s).
Proof. intros [es0 ->]. exists (es0 ++ es). symmetry. apply run_app. Qed.

Lemma sameSession_trans (a b c : App) :
  sameSession a b -> sameSession b c -> sameSession a c.
Proof.
  unfold sameSession. intros (A1 & A2 & A3 & A4) (B1 & B2 & B3 & B4).
  repeat split; congruence.
Qed.

Lemma startCameraBackground_sameSession (o : StreamOutcome) (s : App) :
  sameSession s (startCameraBackground o s)
  /\ fallbackControlsReady (startCameraBackground o s) = fallbackControlsReady s
  /\ fallbackAnimateRunning (startCameraBackground o s) = fallbackAnimateRunning s.
Proof.
  unfold startCameraBackground. destruct (cameraVideo s), o; repeat split.
Qed.

Lemma animate_sameSession (s : App) :
  sameSession s (animate s)
  /\ fallbackControlsReady (animate s) = fallbackControlsReady s
  /\ fallbackAnimateRunning (animate s) = fallbackAnimateRunning s.
Proof.
  unfold animate, updateFallbackReticle, updateCameraFromOrientation.
  destruct (useDeviceOrientation s); simpl; branch; simpl; repeat split.
Qed.

(** Unless it returns at once, [startFallbackMode] leaves the fallback
    backend active and its loop running, and does not touch the tracked
    session's variables. *)
Lemma startFallbackMode_backend (i : FallbackStart) (s : App) :
  fallbackMode s && fallbackAnimateRunning s = false ->
  let s' := startFallbackMode i s in
  fallbackMode s' = true /\ fallbackAnimateRunning s' = true
  /\ fallbackControlsReady s' = true
  /\ xrSession s' = xrSession s /\ hitTestSource s' = hitTestSource s
  /\ xrLoop s' = xrLoop s.
Proof.
  intros Hg. unfold startFallbackMode. rewrite Hg. cbv zeta.
  set (s1 := set_fallbackMode true s).
  set (s2 := startCameraBackground (stream i) s1).
  set (s3 := set_camera _ s2).
  set (s4 := set_fallbackReticle (Some createFallbackReticle) s3).
  set (s5 := if fallbackControlsReady s4 then s4 else _).
  set (s6 := if fallbackAnimateRunning s5 then s5 else _).
  assert (H4 : sameSession s1 s4).
  { apply sameSession_trans with s2;
      [apply startCameraBackground_sameSession | repeat split]. }
  assert (H5 : sameSession s1 s5 /\ fallbackControlsReady s5 = true).
  { subst s5. unfold setupFallbackControls.
    destruct (fallbackControlsReady s4) eqn:E; [split; assumption|].
    split; [|destruct (useDeviceOrientation s4); reflexivity].
    apply sameSession_trans with s4; [exact H4|].
    destruct (useDeviceOrientation s4); repeat split. }
  destruct H5 as [H5 R5].
  assert (H6 : sameSession s1 s6 /\ fallbackControlsReady s6 = true
               /\ fallbackAnimateRunning s6 = true).
  { subst s6. destruct (fallbackAnimateRunning s5) eqn:E;
      [split; [exact H5 | split; assumption]|].
    destruct (animate_sameSession (set_fallbackAnimateRunning true s5))
      as (A & A5 & A6).
    split; [|split; [rewrite A5; exact R5 | rewrite A6; reflexivity]].
    apply sameSession_trans with s5; [exact H5|].
    apply sameSession_trans with (set_fallbackAnimateRunning true s5);
      [repeat split | exact A]. }
  destruct H6 as ((C1 & C2 & C3 & C4) & R6 & A6).
  assert (G : fallbackMode s6 = true /\ fallbackAnimateRunning s6 = true
              /\ fallbackControlsReady s6 = true
              /\ xrSession s6 = xrSession s /\ hitTestSource s6 = hitTestSource s
              /\ xrLoop s6 = xrLoop s).
  { repeat split; assumption. }
  destruct (pipePlaced s6); exact G.
Qed.

(** ** Session hand-off *)

(** C1. In every reachable state where the tracked backend is active (a
    session, fallback not started) and a Placement exists, the tracked
    session's [end] event leaves the session in the fallback backend (flag
    set, loop running, tracked session and its loop gone), with the placed
    flag still set, the asset's effective pose (position and yaw) and the base
    position unchanged, and no reticle drawn. *)
Theorem handoff_preserves_placement (i : FallbackStart) (s : App) :
  reachable s ->
  xrSession s = true -> fallbackMode s = false -> pipePlaced s = true ->
  let s' := step (XREnd i) s in
  (xrSession s' = false /\ xrLoop s' = false
   /\ fallbackMode s' = true /\ fallbackAnimateRunning s' = true)
  /\ pipePlaced s' = true
  /\ (exists pose, effectivePose s = Some pose /\ effectivePose s' = Some pose)
  /\ placedPosition s' = placedPosition s
  /\ reticleHidden s' = true.
Proof.
  intros Hr Hx Hf Hp. simpl. rewrite Hx. unfold xrSession_end. cbv zeta.
  set (t := set_xrLoop false _).
  assert (Hft : fallbackMode t = false) by exact Hf.
  rewrite Hft. simpl negb. cbv iota.
  assert (Hg : fallbackMode t && fallbackAnimateRunning t = false)
    by (rewrite Hft; reflexivity).
  assert (Hpt : pipePlaced t = true) by exact Hp.
  destruct (startFallbackMode_backend i t Hg) as (B1 & B2 & _ & B4 & _ & B6).
  destruct (startFallbackMode_samePlacement i t) as (E1 & E2 & _ & E4 & _ & E6).
  destruct (startFallbackMode_hides i t Hg Hpt) as (p & l & Efr).
  pose proof (reachable_inv s Hr) as Hinv.
  unfold placementInv in Hinv. rewrite Hp in Hinv.
  destruct Hinv as (Hgrp & _ & _ & Har & _).
  repeat split.
  - rewrite B4. reflexivity.
  - rewrite B6. reflexivity.
  - exact B1.
  - exact B2.
  - rewrite E1. exact Hp.
  - unfold effectivePose. rewrite E2. change (pipeGroup t) with (pipeGroup s).
    destruct (pipeGroup s) as [g|]; [|congruence].
    exists (position g, rotation_y g). split; reflexivity.
  - rewrite E4. reflexivity.
  - unfold reticleHidden. rewrite E6, Efr. change (reticle t) with (reticle s).
    destruct (reticle s) as [r|]; simpl; [|reflexivity].
    rewrite (Har r eq_refl). reflexivity.
Qed.

Lemma handoff_preserves_placement_witness :
  let s := run trackedPlacedTrace initial in
  let s' := step (XREnd demoStart) s in
  (xrSession s' = false /\ xrLoop s' = false
   /\ fallbackMode s' = true /\ fallbackAnimateRunning s' = true)
  /\ pipePlaced s' = true
  /\ (exists pose, effectivePose s = Some pose /\ effectivePose s' = Some pose)
  /\ placedPosition s' = placedPosition s
  /\ reticleHidden s' = true.
Proof.
  apply (handoff_preserves_placement demoStart (run trackedPlacedTrace initial)).
  - exists trackedPlacedTrace. reflexivity.
  - reflexivity.
  - reflexivity.
  - reflexivity.
Defined.

(** ** The Placement and its effective position *)

(** *** What the sliders and the commit store *)

Lemma placePipe_pipeGroup (pos : Vec3) (s : App) :
  pipeGroup (placePipe pos s) = Some (mkObject3D pos 0 true).
Proof. reflexivity. Qed.

Lemma placePipe_placedPosition (pos : Vec3) (s : App) :
  placedPosition (placePipe pos s) = Some pos.
Proof. reflexivity. Qed.

Lemma rotationSlider_pipeGroup (angle : Q) (s : App) :
  pipeGroup (rotationSlider_input angle s)
  = option_map (fun g => mkObject3D (position g) angle (visible g)) (pipeGroup s).
Proof. reflexivity. Qed.

Lemma rotationSlider_placedPosition (angle : Q) (s : App) :
  placedPosition (rotationSlider_input angle s) = placedPosition s.
Proof. reflexivity. Qed.

Lemma distanceSlider_pipeGroup (value : Q) (s : App) (g : Object3D) (base : Vec3) :
  pipeGroup s = Some g -> placedPosition s = Some base ->
  pipeGroup (distanceSlider_input value s)
  = Some (mkObject3D (Vector3.setZ (position g) (Vector3.z base - value * 0.001))
            (rotation_y g) (visible g)).
Proof. intros Hg Hb. unfold distanceSlider_input. rewrite Hg, Hb. reflexivity. Qed.

Lemma distanceSlider_placedPosition (value : Q) (s : App) :
  placedPosition (distanceSlider_input value s) = placedPosition s.
Proof.
  unfold distanceSlider_input.
  destruct (pipeGroup s) eqn:Eg, (placedPosition s) eqn:Eb; simpl; congruence.
Qed.

Lemma holdPlacement_effectivePose (p : Placement) (s : App) :
  effectivePose (holdPlacement p s)
  = Some (vec3 (Vector3.x (basePosition p)) (Vector3.y (basePosition p))
            (Vector3.z (basePosition p) - forwardOffsetMm p * 0.001),
          yawOffsetDeg p).
Proof.
  unfold effectivePose, holdPlacement.
  rewrite (distanceSlider_pipeGroup _ _
             (mkObject3D (basePosition p) (yawOffsetDeg p) true) (basePosition p)).
  - reflexivity.
  - rewrite rotationSlider_pipeGroup, placePipe_pipeGroup. reflexivity.
  - rewrite rotationSlider_placedPosition. apply placePipe_placedPosition.
Qed.

Lemma holdPlacement'_effectivePose (p : Placement) (s : App) :
  effectivePose (holdPlacement' p s) = effectivePose (holdPlacement p s).
Proof.
  etransitivity; [|symmetry; apply holdPlacement_effectivePose].
  unfold effectivePose, holdPlacement'.
  rewrite rotationSlider_pipeGroup.
  rewrite (distanceSlider_pipeGroup _ _ (mkObject3D (basePosition p) 0 true) (basePosition p)).
  - reflexivity.
  - apply placePipe_pipeGroup.
  - apply placePipe_placedPosition.
Qed.

(** C2, as stated, fails: with a yaw of 90 degrees and a forward offset of
    1000 mm from the origin the formula moves the asset along X, and the
    script has moved it along Z, by -1 m.  It fails with either sign of the
    forward axis. *)
Lemma effective_position_not_along_yaw :
  effectivePose
    (run [StartAR (SessionStarted true); XRFrame (Some [Some (vec3 0 0 0)]); XRSelect;
          RotationSlider 90; DistanceSlider 1000] initial)
  = effectivePose (holdPlacement quarterTurnOneMetre initial)
  /\ ~ RealView.followsSpecFormula RealView.forward quarterTurnOneMetre
  /\ ~ RealView.followsSpecFormula RealView.forward' quarterTurnOneMetre.
Proof.
  split; [vm_compute; reflexivity|].
  assert (Hs : sin (RealView.degToRad (Q2R 90)) = 1%R).
  { unfold RealView.degToRad.
    replace (Q2R 90 * PI / 180)%R with (PI / 2)%R
      by (unfold Q2R; simpl; field).
    apply sin_PI2. }
  split; intro H;
    specialize (H _ _ (holdPlacement_effectivePose quarterTurnOneMetre initial));
    unfold RealView.specEffectivePosition, RealView.addR, RealView.scaleR,
      RealView.ofVec3, RealView.forward, RealView.forward', quarterTurnOneMetre in H;
    cbn [basePosition yawOffsetDeg forwardOffsetMm Vector3.x Vector3.y Vector3.z
         RealView.rx RealView.ry RealView.rz] in H;
    injection H as Hx _ _; rewrite Hs in Hx;
    unfold Q2R in Hx; simpl in Hx; Lra.lra.
Qed.

(** C2, amended: for every Placement the effective position is the base
    position moved by [forwardOffsetMm / 1000] along the world's -Z axis,
    whatever the yaw, and the yaw is the asset's turn about the vertical;
    the two sliders commute. *)
Theorem effective_position_along_world_z (p : Placement) (s : App) :
  effectivePose (holdPlacement p s)
  = Some (vec3 (Vector3.x (basePosition p)) (Vector3.y (basePosition p))
            (Vector3.z (basePosition p) - forwardOffsetMm p * 0.001),
          yawOffsetDeg p)
  /\ effectivePose (holdPlacement' p s) = effectivePose (holdPlacement p s).
Proof.
  split.
  - apply holdPlacement_effectivePose.
  - apply holdPlacement'_effectivePose.
Qed.

(** ** The fallback reticle while the fallback backend is active *)

Lemma fallbackInv_ext (s s' : App) :
  fallbackMode s' = fallbackMode s ->
  fallbackReticle s' = fallbackReticle s ->
  (pipePlaced s' = false -> pipePlaced s = false) ->
  fallbackInv s -> fallbackInv s'.
Proof.
  unfold fallbackInv. intros Hm Hr Hp H Hf. rewrite Hm in Hf.
  destruct (H Hf) as (r & Er & Hv). exists r. rewrite Hr. auto.
Qed.

Lemma placePipe_fallbackInv (pos : Vec3) (s : App) :
  fallbackInv s -> fallbackInv (placePipe pos s).
Proof.
  unfold fallbackInv. intros H Hf. destruct (H Hf) as (r & Er & _).
  exists (mkFallbackReticle (fr_position r) (fr_visible r) false). split.
  - change (fallbackReticle (placePipe pos s))
      with (option_map (fun r => mkFallbackReticle (fr_position r) (fr_visible r) false)
              (fallbackReticle s)).
    rewrite Er. reflexivity.
  - intros Hp. discriminate Hp.
Qed.

Lemma commit_fallbackInv (c : Commit) (s : App) :
  fallbackInv s -> fallbackInv (commitPlacement c s).
Proof.
  intros H. destruct c; simpl.
  - unfold onARSelect. branch; try assumption; apply placePipe_fallbackInv, H.
  - unfold btnPlace_click. branch; try assumption; apply placePipe_fallbackInv, H.
  - unfold canvas_click. branch; try assumption; apply placePipe_fallbackInv, H.
Qed.

Lemma autoPlace_fallbackInv (s : App) :
  fallbackInv s -> fallbackInv (autoPlaceAtDefaultPosition s).
Proof.
  intros H. unfold autoPlaceAtDefaultPosition.
  branch; try assumption; apply placePipe_fallbackInv, H.
Qed.

Lemma projectFallbackReticle_visible (c : Camera) (r : FallbackReticle) :
  fr_visible (projectFallbackReticle c r) = fr_visible r
  /\ fr_labelVisible (projectFallbackReticle c r) = fr_labelVisible r.
Proof. unfold projectFallbackReticle. branch; split; reflexivity. Qed.

Lemma animate_halves (s : App) : animate s = followCamera (followGyroscope s).
Proof. reflexivity. Qed.

Lemma followGyroscope_fallbackReticle (s : App) :
  fallbackReticle (followGyroscope s) = fallbackReticle s
  /\ pipePlaced (followGyroscope s) = pipePlaced s.
Proof. unfold followGyroscope. destruct (useDeviceOrientation s); split; reflexivity. Qed.

Lemma followCamera_fallbackReticle (s : App) :
  match fallbackReticle s with
  | None => fallbackReticle (followCamera s) = None
  | Some r => exists r', fallbackReticle (followCamera s) = Some r'
                         /\ fr_visible r' = fr_visible r
                         /\ fr_labelVisible r' = fr_labelVisible r
  end.
Proof.
  unfold followCamera. destruct (fallbackReticle s) as [r|] eqn:Er; [|exact Er].
  destruct (fr_visible r && negb (pipePlaced s)).
  - unfold updateFallbackReticle. rewrite Er. eexists. split; [reflexivity|].
    apply projectFallbackReticle_visible.
  - exists r. repeat split. exact Er.
Qed.

Lemma animate_fallbackReticle (s : App) :
  match fallbackReticle s with
  | None => fallbackReticle (animate s) = None
  | Some r => exists r', fallbackReticle (animate s) = Some r'
                         /\ fr_visible r' = fr_visible r
                         /\ fr_labelVisible r' = fr_labelVisible r
  end.
Proof.
  rewrite animate_halves.
  destruct (followGyroscope_fallbackReticle s) as [E _]. rewrite <- E.
  apply followCamera_fallbackReticle.
Qed.

Lemma animate_fallbackInv (s : App) : fallbackInv s -> fallbackInv (animate s).
Proof.
  unfold fallbackInv. intros H Hf.
  destruct (animate_sameSession s) as ((Em & _) & _).
  destruct (animate_samePlacement s) as (Ep & _).
  rewrite Em in Hf. destruct (H Hf) as (r & Er & Hv).
  pose proof (animate_fallbackReticle s) as Ha. rewrite Er in Ha.
  destruct Ha as (r' & Er' & Ev & _). exists r'. split; [exact Er'|].
  rewrite Ep, Ev. exact Hv.
Qed.

(** [startFallbackMode] ends with a reticle, visible when nothing is
    placed. *)
Lemma startFallbackMode_reticle (i : FallbackStart) (s : App) :
  fallbackMode s && fallbackAnimateRunning s = false ->
  exists r, fallbackReticle (startFallbackMode i s) = Some r
            /\ (pipePlaced s = false -> fr_visible r = true).
Proof.
  intros Hg.
  destruct (pipePlaced s) eqn:Hp.
  { destruct (startFallbackMode_hides i s Hg Hp) as (p & l & E).
    eexists. split; [exact E | discriminate]. }
  unfold startFallbackMode. rewrite Hg. cbv zeta.
  set (s1 := set_fallbackMode true s).
  set (s2 := startCameraBackground (stream i) s1).
  set (s3 := set_camera _ s2).
  set (s4 := set_fallbackReticle (Some createFallbackReticle) s3).
  set (s5 := if fallbackControlsReady s4 then s4 else _).
  set (s6 := if fallbackAnimateRunning s5 then s5 else _).
  assert (P2 : pipePlaced s2 = false).
  { destruct (startCameraBackground_samePlacement (stream i) s1) as [E _].
    fold s2 in E. rewrite E. exact Hp. }
  assert (F5 : fallbackReticle s5 = Some createFallbackReticle /\ pipePlaced s5 = false).
  { subst s5. unfold setupFallbackControls.
    destruct (fallbackControlsReady s4); [split; [reflexivity | exact P2]|].
    destruct (useDeviceOrientation s4); split; solve [reflexivity | exact P2]. }
  destruct F5 as [F5 P5].
  assert (F6 : (exists r, fallbackReticle s6 = Some r /\ fr_visible r = true)
               /\ pipePlaced s6 = false).
  { subst s6. destruct (fallbackAnimateRunning s5).
    - split; [|exact P5]. exists createFallbackReticle. split; [exact F5 | reflexivity].
    - set (t := set_fallbackAnimateRunning true s5).
      destruct (animate_samePlacement t) as (Ep & _).
      pose proof (animate_fallbackReticle t) as Ha.
      change (fallbackReticle t) with (fallbackReticle s5) in Ha. rewrite F5 in Ha.
      destruct Ha as (r' & Er' & Ev & _).
      split; [exists r'; split; [exact Er' | rewrite Ev; reflexivity] |].
      rewrite Ep. exact P5. }
  destruct F6 as [(r & Er & Ev) P6]. rewrite P6. exists r. split; auto.
Qed.

Lemma startFallbackMode_fallbackInv (i : FallbackStart) (s : App) :
  fallbackInv s -> fallbackInv (startFallbackMode i s).
Proof.
  intros H.
  destruct (fallbackMode s && fallbackAnimateRunning s) eqn:Eg.
  { unfold startFallbackMode. rewrite Eg. exact H. }
  intros _. destruct (startFallbackMode_reticle i s Eg) as (r & Er & Hv).
  destruct (startFallbackMode_samePlacement i s) as (Ep & _).
  exists r. split; [exact Er|]. rewrite Ep. exact Hv.
Qed.

Lemma step_fallbackInv (e : Event) (s : App) : fallbackInv s -> fallbackInv (step e s).
Proof.
  intros H.
  assert (ext : forall s', fallbackMode s' = fallbackMode s ->
                           fallbackReticle s' = fallbackReticle s ->
                           pipePlaced s' = pipePlaced s -> fallbackInv s').
  { intros s' E1 E2 E3. apply (fallbackInv_ext s); try assumption.
    rewrite E3. auto. }
  destruct e; simpl.
  - unfold startARSession. destruct o; apply ext; reflexivity.
  - apply startFallbackMode_fallbackInv, H.
  - destruct (xrLoop s); [|exact H]. unfold onXRFrame.
    destruct frame as [hits|]; [|exact H].
    destruct (hitTestSource s && negb (pipePlaced s)); [|exact H].
    destruct hits as [|[pose|] rest]; try exact H; apply ext; reflexivity.
  - destruct (xrLoop s); [apply ext; reflexivity | exact H].
  - destruct (xrSession s); [apply (commit_fallbackInv BySelect) |]; exact H.
  - destruct (xrSession s); [|exact H]. unfold xrSession_end. cbv zeta.
    set (t := set_xrLoop false _).
    assert (Ht : fallbackInv t) by (apply ext; reflexivity).
    destruct (negb (fallbackMode t)); [apply startFallbackMode_fallbackInv|]; exact Ht.
  - destruct (fallbackAnimateRunning s); [apply animate_fallbackInv|]; exact H.
  - destruct (fallbackControlsReady s && negb (useDeviceOrientation s));
      [apply ext; reflexivity | exact H].
  - destruct (fallbackControlsReady s); [|exact H].
    unfold btnGyroPermission_click. destruct granted; apply ext; reflexivity.
  - destruct (useDeviceOrientation s); [apply ext; reflexivity | exact H].
  - destruct (fallbackControlsReady s); [|exact H]. unfold canvas_pointerdown.
    destruct (useDeviceOrientation s); [exact H | apply ext; reflexivity].
  - destruct (fallbackControlsReady s); [|exact H]. unfold canvas_pointermove.
    destruct (useDeviceOrientation s); [exact H|].
    destruct beyond; apply ext; reflexivity.
  - destruct (fallbackControlsReady s && useDeviceOrientation s);
      [apply ext; reflexivity | exact H].
  - apply (commit_fallbackInv ByPlaceButton), H.
  - apply (commit_fallbackInv ByCanvasClick), H.
  - intros _. exists createFallbackReticle. split; reflexivity.
  - apply ext; reflexivity.
  - unfold distanceSlider_input.
    destruct (pipeGroup s), (placedPosition s); try exact H; apply ext; reflexivity.
  - apply ext; reflexivity.
  - unfold setAR3DModel.
    destruct (pipePlaced s) eqn:Hp; [|apply autoPlace_fallbackInv, H].
    destruct (pipeGroup s); [|apply autoPlace_fallbackInv, H].
    apply ext; try reflexivity. exact Hp.
  - destruct (loadARPipeData_cases first s) as [-> | ->]; [exact H|].
    destruct (pipePlaced s) eqn:Hp; [|apply autoPlace_fallbackInv, H].
    destruct (pipeGroup s); [|apply autoPlace_fallbackInv, H].
    apply ext; try reflexivity. exact Hp.
Qed.

Lemma reachable_fallbackInv (s : App) : reachable s -> fallbackInv s.
Proof.
  intros [es ->].
  assert (G : forall es s, fallbackInv s -> fallbackInv (run es s)).
  { clear es. induction es as [|e es IH]; intros s H; simpl; [exact H|].
    apply IH, step_fallbackInv, H. }
  apply G. intros Hf. discriminate Hf.
Qed.

(** ** Commit without a candidate *)

(** C3, as stated, fails: in a tracked session that has found no surface (no
    reticle is visible, nothing is placed) the [select] event is not ignored;
    it places the pipe. *)
Lemma select_without_candidate_commits :
  let s := run searchingTrace initial in
  (pipePlaced s = false /\ reticleHidden s = true /\ xrSession s = true
   /\ pipePlaced (step XRSelect s) = true)
  /\ ~ commitIgnoredWithoutCandidate.
Proof.
  split; [by_computation|].
  intros H.
  assert (Hp : pipePlaced (run searchingTrace initial) = false)
    by (vm_compute; reflexivity).
  assert (Hh : reticleHidden (run searchingTrace initial) = true)
    by (vm_compute; reflexivity).
  specialize (H BySelect _ (reachable_trace searchingTrace) Hp Hh).
  apply (f_equal pipePlaced) in H. vm_compute in H. discriminate H.
Qed.

Lemma hidden_not_fallback (s : App) :
  reachable s -> pipePlaced s = false -> reticleHidden s = true ->
  fallbackMode s = false.
Proof.
  intros Hr Hp Hh. destruct (fallbackMode s) eqn:Hf; [|reflexivity].
  destruct (reachable_fallbackInv s Hr Hf) as (r & Er & Hv).
  unfold reticleHidden in Hh. rewrite Er, (Hv Hp) in Hh.
  rewrite andb_false_r in Hh. discriminate Hh.
Qed.

(** C3, amended: in every reachable state where nothing is placed and no
    reticle is visible, the place button and the tap on the canvas are
    ignored, the state is unchanged; the tracked session's [select] is not:
    it commits a Placement at the default pose, 0.5 m below and 1.5 m in
    front of the camera. *)
Theorem commit_without_candidate (s : App) :
  reachable s -> pipePlaced s = false -> reticleHidden s = true ->
  commitPlacement ByPlaceButton s = s
  /\ commitPlacement ByCanvasClick s = s
  /\ commitPlacement BySelect s
     = placePipe (applyMatrixWorld (camera s) (vec3 0 (-0.5) (-1.5))) s
  /\ pipePlaced (commitPlacement BySelect s) = true
  /\ placedPosition (commitPlacement BySelect s)
     = Some (applyMatrixWorld (camera s) (vec3 0 (-0.5) (-1.5))).
Proof.
  intros Hr Hp Hh.
  pose proof (hidden_not_fallback s Hr Hp Hh) as Hf.
  assert (Hs : commitPlacement BySelect s
               = placePipe (applyMatrixWorld (camera s) (vec3 0 (-0.5) (-1.5))) s).
  { simpl. unfold onARSelect. rewrite Hp.
    destruct (reticle s) as [r|] eqn:Er; [|reflexivity].
    unfold reticleHidden in Hh. rewrite Er in Hh.
    destruct (ar_visible r); [discriminate Hh | reflexivity]. }
  split; [|split; [|split; [exact Hs|]]].
  - simpl. unfold btnPlace_click. rewrite Hp, Hf. reflexivity.
  - simpl. unfold canvas_click. rewrite Hf. reflexivity.
  - rewrite Hs. split; reflexivity.
Qed.

Lemma commit_without_candidate_witness :
  let s := run searchingTrace initial in
  commitPlacement ByPlaceButton s = s
  /\ commitPlacement ByCanvasClick s = s
  /\ commitPlacement BySelect s
     = placePipe (applyMatrixWorld (camera s) (vec3 0 (-0.5) (-1.5))) s
  /\ pipePlaced (commitPlacement BySelect s) = true
  /\ placedPosition (commitPlacement BySelect s)
     = Some (applyMatrixWorld (camera s) (vec3 0 (-0.5) (-1.5))).
Proof.
  apply (commit_without_candidate (run searchingTrace initial)).
  - exists searchingTrace. reflexivity.
  - reflexivity.
  - reflexivity.
Defined.

(** ** After the commit *)

Lemma commit_placed (c : Commit) (s : App) :
  pipePlaced s = true -> commitPlacement c s = s.
Proof.
  intros Hp. destruct c; simpl.
  - unfold onARSelect. rewrite Hp. reflexivity.
  - unfold btnPlace_click. rewrite Hp. reflexivity.
  - unfold canvas_click. rewrite Hp, orb_true_r. reflexivity.
Qed.

Lemma step_keeps_placed (e : Event) (s : App) :
  isReset e = false -> pipePlaced s = true -> pipePlaced (step e s) = true.
Proof.
  intros He Hp. destruct e; simpl; try discriminate He.
  - unfold startARSession. destruct o; exact Hp.
  - destruct (startFallbackMode_samePlacement i s) as (E & _). rewrite E. exact Hp.
  - destruct (xrLoop s); [|exact Hp]. unfold onXRFrame.
    destruct frame; [|exact Hp]. rewrite Hp, andb_false_r. exact Hp.
  - destruct (xrLoop s); exact Hp.
  - destruct (xrSession s); [|exact Hp].
    rewrite (commit_placed BySelect s Hp : onARSelect s = s). exact Hp.
  - destruct (xrSession s); [|exact Hp]. unfold xrSession_end. cbv zeta.
    set (t := set_xrLoop false _).
    destruct (negb (fallbackMode t)); [|exact Hp].
    destruct (startFallbackMode_samePlacement i t) as (E & _). rewrite E. exact Hp.
  - destruct (fallbackAnimateRunning s); [|exact Hp].
    destruct (animate_samePlacement s) as (E & _). rewrite E. exact Hp.
  - destruct (fallbackControlsReady s && negb (useDeviceOrientation s)); exact Hp.
  - destruct (fallbackControlsReady s); [|exact Hp].
    unfold btnGyroPermission_click. destruct granted; exact Hp.
  - destruct (useDeviceOrientation s); exact Hp.
  - destruct (fallbackControlsReady s); [|exact Hp]. unfold canvas_pointerdown.
    destruct (useDeviceOrientation s); exact Hp.
  - destruct (fallbackControlsReady s); [|exact Hp]. unfold canvas_pointermove.
    destruct (useDeviceOrientation s); [exact Hp|]. destruct beyond; exact Hp.
  - destruct (fallbackControlsReady s && useDeviceOrientation s); exact Hp.
  - rewrite (commit_placed ByPlaceButton s Hp : btnPlace_click s = s). exact Hp.
  - rewrite (commit_placed ByCanvasClick s Hp : canvas_click s = s). exact Hp.
  - exact Hp.
  - unfold distanceSlider_input. destruct (pipeGroup s), (placedPosition s); exact Hp.
  - exact Hp.
  - unfold setAR3DModel, autoPlaceAtDefaultPosition. rewrite Hp.
    destruct (pipeGroup s); exact Hp.
  - destruct (loadARPipeData_cases first s) as [-> | ->]; [exact Hp|].
    unfold autoPlaceAtDefaultPosition. rewrite Hp.
    destruct (pipeGroup s); exact Hp.
Qed.

Lemma run_keeps_placed (es : list Event) (s : App) :
  existsb isReset es = false -> pipePlaced s = true -> pipePlaced (run es s) = true.
Proof.
  revert s. induction es as [|e es IH]; intros s He Hp; simpl in *; [exact Hp|].
  apply orb_false_iff in He. destruct He as [He Hes].
  apply IH; [exact Hes|]. apply step_keeps_placed; assumption.
Qed.

(** With a placement in hand a frame of either backend writes no reticle. *)
Lemma frame_placed (e : Event) (s : App) :
  isFrame e = true -> pipePlaced s = true ->
  reticle (step e s) = reticle s /\ fallbackReticle (step e s) = fallbackReticle s.
Proof.
  intros He Hp. destruct e; try discriminate He; simpl.
  - destruct (xrLoop s); [|split; reflexivity]. unfold onXRFrame.
    destruct frame; [|split; reflexivity].
    rewrite Hp, andb_false_r. split; reflexivity.
  - destruct (fallbackAnimateRunning s); [|split; reflexivity].
    rewrite animate_halves.
    destruct (followGyroscope_fallbackReticle s) as [Ef Eq].
    assert (Ec : followCamera (followGyroscope s) = followGyroscope s).
    { unfold followCamera. rewrite Eq, Hp.
      destruct (fallbackReticle (followGyroscope s)) as [r|]; [|reflexivity].
      rewrite andb_false_r. reflexivity. }
    rewrite Ec. split; [|exact Ef].
    unfold followGyroscope. destruct (useDeviceOrientation s); reflexivity.
Qed.

(** *** The flags of the fallback backend *)

Lemma commit_flags (c : Commit) (s : App) : sameFallbackFlags s (commitPlacement c s).
Proof.
  destruct c; simpl.
  - unfold onARSelect. branch; repeat split.
  - unfold btnPlace_click. branch; repeat split.
  - unfold canvas_click. branch; repeat split.
Qed.

Lemma autoPlace_flags (s : App) : sameFallbackFlags s (autoPlaceAtDefaultPosition s).
Proof. unfold autoPlaceAtDefaultPosition. branch; repeat split. Qed.

(** An event leaves the three flags alone, or leaves all three set. *)
Lemma step_flags (e : Event) (s : App) :
  sameFallbackFlags s (step e s)
  \/ (fallbackMode (step e s) = true
      /\ fallbackAnimateRunning (step e s) = true
      /\ fallbackControlsReady (step e s) = true).
Proof.
  destruct e; cbn [step].
  - left. unfold startARSession. destruct o; repeat split.
  - destruct (fallbackMode s && fallbackAnimateRunning s) eqn:Hg.
    + left. unfold startFallbackMode. rewrite Hg. repeat split.
    + right. destruct (startFallbackMode_backend i s Hg) as (B1 & B2 & B3 & _). auto.
  - left. destruct (xrLoop s); [|repeat split]. unfold onXRFrame.
    destruct frame as [hits|]; [|repeat split].
    destruct (hitTestSource s && negb (pipePlaced s)); [|repeat split].
    destruct hits as [|[pose|] rest]; repeat split.
  - left. destruct (xrLoop s); repeat split.
  - destruct (xrSession s); [|left; repeat split].
    left. apply (commit_flags BySelect).
  - destruct (xrSession s); [|left; repeat split].
    unfold xrSession_end. cbv zeta.
    set (t := set_xrLoop false _).
    destruct (fallbackMode t) eqn:Ef; cbn [negb].
    + left. split; [reflexivity|]. split; reflexivity.
    + right. assert (Hg : fallbackMode t && fallbackAnimateRunning t = false)
        by (rewrite Ef; reflexivity).
      destruct (startFallbackMode_backend i t Hg) as (B1 & B2 & B3 & _). auto.
  - left. destruct (fallbackAnimateRunning s); [|repeat split].
    destruct (animate_sameSession s) as ((A1 & _) & A2 & A3). repeat split; assumption.
  - left. destruct (fallbackControlsReady s && negb (useDeviceOrientation s));
      repeat split.
  - left. destruct (fallbackControlsReady s); [|repeat split].
    unfold btnGyroPermission_click. destruct granted; repeat split.
  - left. destruct (useDeviceOrientation s); repeat split.
  - left. destruct (fallbackControlsReady s) eqn:E; [|repeat split; exact E].
    unfold canvas_pointerdown. destruct (useDeviceOrientation s); repeat split; exact E.
  - left. destruct (fallbackControlsReady s) eqn:E; [|repeat split; exact E].
    unfold canvas_pointermove. destruct (useDeviceOrientation s); [repeat split; exact E|].
    destruct beyond; repeat split; exact E.
  - left. destruct (fallbackControlsReady s && useDeviceOrientation s); repeat split.
  - left. apply (commit_flags ByPlaceButton).
  - left. apply (commit_flags ByCanvasClick).
  - left. repeat split.
  - left. repeat split.
  - left. unfold distanceSlider_input.
    destruct (pipeGroup s), (placedPosition s); repeat split.
  - left. repeat split.
  - left. unfold setAR3DModel.
    destruct (pipePlaced s); [|apply autoPlace_flags].
    destruct (pipeGroup s); [repeat split | apply autoPlace_flags].
  - left. destruct (loadARPipeData_cases first s) as [-> | ->]; [repeat split|].
    destruct (pipePlaced s); [|apply autoPlace_flags].
    destruct (pipeGroup s); [repeat split | apply autoPlace_flags].
Qed.

Lemma reachable_startedInv (s : App) : reachable s -> startedInv s.
Proof.
  intros [es ->].
  assert (G : forall es s, startedInv s -> startedInv (run es s)).
  { clear es. induction es as [|e es IH]; intros s H; simpl; [exact H|].
    apply IH. unfold startedInv in *.
    destruct (step_flags e s) as [(E1 & E2 & E3) | (F1 & F2 & F3)].
    - rewrite E1, E2, E3. exact H.
    - intros _. split; assumption. }
  apply G. intros Hf. discriminate Hf.
Qed.

(** *** The fallback reticle once placed *)

(** With a placement and the fallback backend active, no event but reset
    touches the fallback reticle. *)
Lemma step_ring_frozen (e : Event) (s : App) :
  pipePlaced s = true -> fallbackMode s = true -> fallbackAnimateRunning s = true ->
  isReset e = false ->
  fallbackReticle (step e s) = fallbackReticle s.
Proof.
  intros Hp Hf Ha He. destruct e; try discriminate He; cbn [step].
  - unfold startARSession. destruct o; reflexivity.
  - unfold startFallbackMode. rewrite Hf, Ha. reflexivity.
  - apply (frame_placed (XRFrame frame) s eq_refl Hp).
  - destruct (xrLoop s); reflexivity.
  - destruct (xrSession s); [|reflexivity].
    rewrite (commit_placed BySelect s Hp : onARSelect s = s). reflexivity.
  - destruct (xrSession s); [|reflexivity].
    unfold xrSession_end. cbv zeta.
    set (t := set_xrLoop false _).
    assert (Ef : fallbackMode t = true) by exact Hf.
    rewrite Ef. reflexivity.
  - apply (frame_placed Animate s eq_refl Hp).
  - destruct (fallbackControlsReady s && negb (useDeviceOrientation s)); reflexivity.
  - destruct (fallbackControlsReady s); [|reflexivity].
    unfold btnGyroPermission_click. destruct granted; reflexivity.
  - destruct (useDeviceOrientation s); reflexivity.
  - destruct (fallbackControlsReady s); [|reflexivity].
    unfold canvas_pointerdown. destruct (useDeviceOrientation s); reflexivity.
  - destruct (fallbackControlsReady s); [|reflexivity].
    unfold canvas_pointermove. destruct (useDeviceOrientation s); [reflexivity|].
    destruct beyond; reflexivity.
  - destruct (fallbackControlsReady s && useDeviceOrientation s); reflexivity.
  - rewrite (commit_placed ByPlaceButton s Hp : btnPlace_click s = s). reflexivity.
  - rewrite (commit_placed ByCanvasClick s Hp : canvas_click s = s). reflexivity.
  - reflexivity.
  - unfold distanceSlider_input.
    destruct (pipeGroup s), (placedPosition s); reflexivity.
  - reflexivity.
  - unfold setAR3DModel, autoPlaceAtDefaultPosition. rewrite Hp.
    destruct (pipeGroup s); reflexivity.
  - destruct (loadARPipeData_cases first s) as [-> | ->]; [reflexivity|].
    unfold autoPlaceAtDefaultPosition. rewrite Hp.
    destruct (pipeGroup s); reflexivity.
Qed.

Lemma run_ring_frozen (es : list Event) (s : App) :
  pipePlaced s = true -> fallbackMode s = true -> fallbackAnimateRunning s = true ->
  existsb isReset es = false ->
  fallbackReticle (run es s) = fallbackReticle s.
Proof.
  revert s. induction es as [|e es IH]; intros s Hp Hf Ha He; simpl in *; [reflexivity|].
  apply orb_false_iff in He. destruct He as [He Hes].
  rewrite IH.
  - apply step_ring_frozen; assumption.
  - apply step_keeps_placed; assumption.
  - destruct (step_flags e s) as [(E1 & _) | (F1 & _)]; [rewrite E1|]; assumption.
  - destruct (step_flags e s) as [(_ & E2 & _) | (_ & F2 & _)]; [rewrite E2|]; assumption.
  - exact Hes.
Qed.

Lemma placePipe_fallbackReticle (pos : Vec3) (s : App) :
  fallbackReticle (placePipe pos s)
  = option_map (fun r => mkFallbackReticle (fr_position r) (fr_visible r) false)
      (fallbackReticle s).
Proof. reflexivity. Qed.

(** A commit that places the pipe does so through [placePipe]. *)
Lemma commit_placePipe (c : Commit) (s : App) :
  commitPlacement c s = s \/ exists pos, commitPlacement c s = placePipe pos s.
Proof.
  destruct c; simpl.
  - unfold onARSelect. branch; eauto.
  - unfold btnPlace_click. branch; eauto.
  - unfold canvas_click. branch; eauto.
Qed.

(** A commit in the fallback backend hides the reticle's label and leaves
    its ring visible. *)
Lemma commit_ring (c : Commit) (s : App) :
  fallbackInv s -> pipePlaced s = false -> fallbackMode s = true ->
  pipePlaced (commitPlacement c s) = true ->
  exists r, fallbackReticle (commitPlacement c s) = Some r
            /\ fr_visible r = true /\ fr_labelVisible r = false.
Proof.
  intros Hinv Hp Hf Hc.
  destruct (Hinv Hf) as (r0 & Er & Hv). specialize (Hv Hp).
  destruct (commit_placePipe c s) as [E | (pos & E)].
  - rewrite E in Hc. congruence.
  - rewrite E, placePipe_fallbackReticle, Er. simpl.
    eexists. split; [reflexivity|]. split; [exact Hv | reflexivity].
Qed.

(** C4, as stated, fails: after a commit in the fallback backend the reticle
    group is still visible (only its label is hidden), and stays so on the
    next frame. *)
Lemma fallback_reticle_stays_visible :
  let s := run fallbackPlacedTrace initial in
  (pipePlaced s = true
   /\ option_map fr_visible (fallbackReticle s) = Some true
   /\ reticleHidden s = false
   /\ reticleHidden (step Animate s) = false)
  /\ ~ reticleHiddenOncePlaced.
Proof.
  split; [by_computation|].
  intros H.
  assert (Hp : pipePlaced (run fallbackPlacedTrace initial) = true)
    by (vm_compute; reflexivity).
  specialize (H _ (reachable_trace fallbackPlacedTrace) Hp).
  vm_compute in H. discriminate H.
Qed.

(** C4, amended: from a reachable state with a placement, and for as long as
    no reset is delivered, the placement stays, the tracked reticle is hidden
    and the fallback reticle's label is not drawn, and a frame of either
    backend changes neither reticle: not its pose, not its visibility.  With
    the fallback backend active no event at all touches the fallback reticle
    until reset; and where the placement was committed in the fallback
    backend, its ring is visible from the commit on, with the label hidden. *)
Theorem placed_reticle_frozen (es : list Event) (s : App) :
  reachable s -> pipePlaced s = true -> existsb isReset es = false ->
  let s' := run es s in
  pipePlaced s' = true
  /\ (forall r, reticle s' = Some r -> ar_visible r = false)
  /\ (forall r, fallbackReticle s' = Some r -> fr_visible r && fr_labelVisible r = false)
  /\ (forall e, isFrame e = true ->
        reticle (step e s') = reticle s'
        /\ fallbackReticle (step e s') = fallbackReticle s')
  /\ (fallbackMode s = true -> fallbackReticle s' = fallbackReticle s)
  /\ (forall c s0,
        reachable s0 -> pipePlaced s0 = false -> fallbackMode s0 = true ->
        s = commitPlacement c s0 ->
        exists r, fallbackReticle s' = Some r
                  /\ fr_visible r = true /\ fr_labelVisible r = false).
Proof.
  intros Hr Hp He s'.
  assert (Hp' : pipePlaced s' = true) by (apply run_keeps_placed; assumption).
  pose proof (reachable_inv s' (reachable_run es s Hr)) as Hinv.
  assert (Hfrozen : fallbackMode s = true -> fallbackReticle s' = fallbackReticle s).
  { intros Hf. destruct (reachable_startedInv s Hr Hf) as [Ha _].
    apply run_ring_frozen; assumption. }
  split; [exact Hp'|]. split; [|split; [|split; [|split]]].
  - apply inv_reticle; assumption.
  - apply inv_label; assumption.
  - intros e Hf. apply frame_placed; assumption.
  - exact Hfrozen.
  - intros c s0 Hr0 Hp0 Hf0 Es.
    assert (Hpc : pipePlaced (commitPlacement c s0) = true) by (rewrite <- Es; exact Hp).
    destruct (commit_ring c s0 (reachable_fallbackInv s0 Hr0) Hp0 Hf0 Hpc)
      as (r & Er & Hv & Hl).
    assert (Hf : fallbackMode s = true).
    { rewrite Es. destruct (commit_flags c s0) as (E & _). rewrite E. exact Hf0. }
    exists r. rewrite (Hfrozen Hf), Es. auto.
Qed.

Lemma placed_reticle_frozen_witness :
  let es := [Animate; PlaceButton; DistanceSlider 250; Animate] in
  let s := run fallbackPlacedTrace initial in
  let s' := run es s in
  pipePlaced s' = true
  /\ (forall r, reticle s' = Some r -> ar_visible r = false)
  /\ (forall r, fallbackReticle s' = Some r -> fr_visible r && fr_labelVisible r = false)
  /\ (forall e, isFrame e = true ->
        reticle (step e s') = reticle s'
        /\ fallbackReticle (step e s') = fallbackReticle s')
  /\ (fallbackMode s = true -> fallbackReticle s' = fallbackReticle s)
  /\ (forall c s0,
        reachable s0 -> pipePlaced s0 = false -> fallbackMode s0 = true ->
        s = commitPlacement c s0 ->
        exists r, fallbackReticle s' = Some r
                  /\ fr_visible r = true /\ fr_labelVisible r = false).
Proof.
  apply (placed_reticle_frozen [Animate; PlaceButton; DistanceSlider 250; Animate]
           (run fallbackPlacedTrace initial)).
  - exists fallbackPlacedTrace. reflexivity.
  - reflexivity.
  - reflexivity.
Defined.

(** ** Ground projection *)

Lemma distanceToSquared_nonneg (a b : Vec3) : 0 <= Vector3.distanceToSquared a b.
Proof.
  unfold Vector3.distanceToSquared.
  assert (Hsq : forall q : Q, 0 <= q * q) by (intro q; Lqa.nra).
  pose proof (Hsq (Vector3.x a - Vector3.x b)).
  pose proof (Hsq (Vector3.y a - Vector3.y b)).
  pose proof (Hsq (Vector3.z a - Vector3.z b)).
  Lqa.lra.
Qed.

Lemma distanceToSquared_equiv (a a' b : Vec3) :
  a =v= a' -> Vector3.distanceToSquared a b == Vector3.distanceToSquared a' b.
Proof.
  intros (Hx & Hy & Hz). unfold Vector3.distanceToSquared.
  rewrite Hx, Hy, Hz. reflexivity.
Qed.

(** The test on the squares is the test on the distance. *)
Lemma distanceTo_ltb_iff (a b : Vec3) (r : Q) :
  0 <= r ->
  Vector3.distanceTo_ltb a b r = true <-> (RealView.distanceTo a b < Q2R r)%R.
Proof.
  intros Hr. unfold Vector3.distanceTo_ltb, RealView.distanceTo.
  rewrite Qltb_lt.
  pose proof (Qle_Rle _ _ (distanceToSquared_nonneg a b)) as Hd.
  pose proof (Qle_Rle _ _ Hr) as Hr'.
  replace (Q2R 0) with 0%R in Hd, Hr' by (unfold Q2R; simpl; Lra.lra).
  rewrite <- (sqrt_Rsqr (Q2R r) Hr') at 1.
  split; intro H.
  - apply sqrt_lt_1_alt. split; [exact Hd|].
    apply Qlt_Rlt in H. rewrite Q2R_mult in H. exact H.
  - apply sqrt_lt_0_alt in H. apply Rlt_Qlt. rewrite Q2R_mult. exact H.
Qed.

Lemma distanceTo_equiv (a a' b : Vec3) :
  a =v= a' -> RealView.distanceTo a b = RealView.distanceTo a' b.
Proof.
  intros H. unfold RealView.distanceTo.
  rewrite (Qeq_eqR _ _ (distanceToSquared_equiv a a' b H)). reflexivity.
Qed.

Lemma groundPoint_intersection (c : Camera) :
  ~ Vector3.y (cam_dir c) == 0 -> groundPoint c =v= groundIntersection c.
Proof.
  intros Hd. unfold groundPoint, groundIntersection, Vector3.equiv. simpl.
  repeat split; try reflexivity. field.
  intros E. apply Hd. unfold cam_dir. simpl. rewrite E. reflexivity.
Qed.

Lemma projectFallbackReticle_down (c : Camera) (r : FallbackReticle) :
  Vector3.y (cam_dir c) < -0.01 ->
  projectFallbackReticle c r
  = if Vector3.distanceTo_ltb (groundPoint c) (cam_position c) 30
    then mkFallbackReticle (groundPoint c) (fr_visible r) (fr_labelVisible r)
    else r.
Proof.
  intros Hd. unfold projectFallbackReticle. cbv zeta.
  apply Qltb_lt in Hd. rewrite Hd. reflexivity.
Qed.

Lemma projectFallbackReticle_level (c : Camera) (r : FallbackReticle) :
  -0.01 <= Vector3.y (cam_dir c) ->
  projectFallbackReticle c r
  = mkFallbackReticle
      (vec3 (Vector3.x (cam_position c) + Vector3.x (cam_dir c) * 3) 0
         (Vector3.z (cam_position c) + Vector3.z (cam_dir c) * 3))
      (fr_visible r) (fr_labelVisible r).
Proof.
  intros Hd. unfold projectFallbackReticle. cbv zeta.
  apply Qltb_ge in Hd. rewrite Hd. reflexivity.
Qed.

(** A frame of the fallback loop whose reticle is live ([fallbackReticle]
    visible, nothing placed) runs [updateFallbackReticle] on the camera the
    frame ends with. *)
Lemma animate_live (s : App) (r : FallbackReticle) :
  fallbackReticle s = Some r -> fr_visible r = true -> pipePlaced s = false ->
  fallbackReticle (animate s)
  = Some (projectFallbackReticle (camera (animate s)) r).
Proof.
  intros Er Ev Hp. rewrite animate_halves.
  destruct (followGyroscope_fallbackReticle s) as [Ef Eq].
  set (t := followGyroscope s) in *.
  unfold followCamera, updateFallbackReticle.
  rewrite Ef, Er, Ev, Eq, Hp. reflexivity.
Qed.

(** C5, as stated, fails: with the camera pitched up, forward direction
    (0, 3/5, -4/5), the frame puts the reticle 2.4 m ahead of the camera on
    the ground, not 3 m. *)
Lemma upward_reticle_not_three_metres :
  let s := fallbackLookingUp in
  let c := camera (step Animate s) in
  (lengthSquared (cam_dir c) == 1
   /\ -0.01 <= Vector3.y (cam_dir c)
   /\ option_map fr_position (fallbackReticle (step Animate s))
      = Some (vec3 0 0 (- 12 # 5))
   /\ ~ horizontalDistanceSquared (vec3 0 0 (- 12 # 5)) (cam_position c) == 3 * 3)
  /\ ~ reticleThreeMetresAhead.
Proof.
  split.
  - split; [reflexivity|]. split; [vm_compute; discriminate|].
    split; [reflexivity|]. vm_compute. discriminate.
  - intros H.
    destruct (H fallbackLookingUp
                (mkFallbackReticle (vec3 (0 # 8) 0 (34 # 136)) true true))
      as (r' & Er & _ & Hd).
    + apply reachable_trace.
    + vm_compute. reflexivity.
    + reflexivity.
    + vm_compute. reflexivity.
    + vm_compute. reflexivity.
    + vm_compute. discriminate.
    + vm_compute in Er. injection Er as <-. vm_compute in Hd. discriminate Hd.
Qed.

(** C5, amended: in a frame of the fallback loop whose reticle is live and
    whose camera looks level or upward ([D.y >= -0.01]), the reticle is put
    at height 0, displaced from the camera by three times the horizontal
    part of [D]: at (P.x + 3 D.x, 0, P.z + 3 D.z).  Its horizontal distance
    from the camera is 3 m times the length of that horizontal part; for a
    unit [D] its square is 9 (1 - D.y^2), which is 3 m only when the camera
    is level. *)
Theorem level_reticle_three_times_forward (s : App) (r : FallbackReticle) :
  fallbackReticle s = Some r -> fr_visible r = true -> pipePlaced s = false ->
  -0.01 <= Vector3.y (cam_dir (camera (animate s))) ->
  let p := cam_position (camera (animate s)) in
  let d := cam_dir (camera (animate s)) in
  let q := vec3 (Vector3.x p + Vector3.x d * 3) 0 (Vector3.z p + Vector3.z d * 3) in
  fallbackReticle (animate s) = Some (mkFallbackReticle q (fr_visible r) (fr_labelVisible r))
  /\ horizontalDistanceSquared q p
     == 9 * (Vector3.x d * Vector3.x d + Vector3.z d * Vector3.z d)
  /\ (lengthSquared d == 1 ->
      horizontalDistanceSquared q p == 9 * (1 - Vector3.y d * Vector3.y d)).
Proof.
  intros Er Ev Hp Hd p d q.
  split; [|split].
  - rewrite (animate_live s r Er Ev Hp).
    rewrite (projectFallbackReticle_level _ r Hd). reflexivity.
  - unfold horizontalDistanceSquared, q.
    cbn [Vector3.x Vector3.y Vector3.z]. ring.
  - unfold horizontalDistanceSquared, lengthSquared, q.
    cbn [Vector3.x Vector3.y Vector3.z]. intros Hu.
    rewrite <- Hu. ring.
Qed.

Lemma level_reticle_three_times_forward_witness :
  let s := fallbackLookingUp in
  let p := cam_position (camera (animate s)) in
  let d := cam_dir (camera (animate s)) in
  let q := vec3 (Vector3.x p + Vector3.x d * 3) 0 (Vector3.z p + Vector3.z d * 3) in
  fallbackReticle (animate s) = Some (mkFallbackReticle q true true)
  /\ horizontalDistanceSquared q p
     == 9 * (Vector3.x d * Vector3.x d + Vector3.z d * Vector3.z d)
  /\ (lengthSquared d == 1 ->
      horizontalDistanceSquared q p == 9 * (1 - Vector3.y d * Vector3.y d)).
Proof.
  apply (level_reticle_three_times_forward fallbackLookingUp
           (mkFallbackReticle (vec3 (0 # 8) 0 (34 # 136)) true true)).
  - reflexivity.
  - reflexivity.
  - reflexivity.
  - vm_compute. discriminate.
Defined.

(** C7. In a frame of the fallback loop whose reticle is live and whose
    camera looks downward ([D.y < -0.01]): when the intersection of the
    forward ray with the ground, [P + D * t] with [t = -P.y / D.y], is 30 m
    or more from the camera, the reticle is what it was before the frame;
    when it is closer than 30 m, the reticle is moved onto the intersection
    (the script writes its height as the literal 0). *)
Theorem downward_reticle_clamped (s : App) (r : FallbackReticle) :
  fallbackReticle s = Some r -> fr_visible r = true -> pipePlaced s = false ->
  Vector3.y (cam_dir (camera (animate s))) < -0.01 ->
  let c := camera (animate s) in
  ((Q2R 30 <= RealView.distanceTo (groundIntersection c) (cam_position c))%R ->
   fallbackReticle (animate s) = Some r)
  /\ ((RealView.distanceTo (groundIntersection c) (cam_position c) < Q2R 30)%R ->
      exists r', fallbackReticle (animate s) = Some r'
                 /\ fr_position r' =v= groundIntersection c
                 /\ Vector3.y (fr_position r') = 0
                 /\ fr_visible r' = fr_visible r
                 /\ fr_labelVisible r' = fr_labelVisible r).
Proof.
  intros Er Ev Hp Hd c.
  assert (Hnz : ~ Vector3.y (cam_dir c) == 0).
  { intros E. fold c in Hd. rewrite E in Hd. revert Hd. vm_compute. discriminate. }
  pose proof (groundPoint_intersection c Hnz) as Hg.
  pose proof (distanceTo_equiv _ _ (cam_position c) Hg) as Hdist.
  assert (H30 : 0 <= 30) by (vm_compute; discriminate).
  pose proof (distanceTo_ltb_iff (groundPoint c) (cam_position c) 30 H30) as Hiff.
  rewrite (animate_live s r Er Ev Hp). fold c.
  rewrite (projectFallbackReticle_down c r Hd).
  destruct (Vector3.distanceTo_ltb (groundPoint c) (cam_position c) 30) eqn:E.
  - assert (Hlt : (RealView.distanceTo (groundIntersection c) (cam_position c) < Q2R 30)%R).
    { rewrite <- Hdist. apply Hiff. reflexivity. }
    split.
    + intros Hfar. exfalso. Lra.lra.
    + intros _. eexists. split; [reflexivity|].
      split; [exact Hg|]. repeat split.
  - split.
    + intros _. reflexivity.
    + intros Hnear. rewrite <- Hdist in Hnear. apply Hiff in Hnear. discriminate Hnear.
Qed.

Lemma downward_reticle_clamped_witness :
  (exists r', fallbackReticle (animate fallbackStarted) = Some r'
              /\ fr_position r' =v= groundIntersection (camera (animate fallbackStarted))
              /\ Vector3.y (fr_position r') = 0
              /\ fr_visible r' = true
              /\ fr_labelVisible r' = true)
  /\ fallbackReticle (animate fallbackLookingAtHorizon)
     = fallbackReticle fallbackLookingAtHorizon.
Proof.
  assert (H30 : 0 <= 30) by (vm_compute; discriminate).
  split.
  - apply (downward_reticle_clamped fallbackStarted
             (mkFallbackReticle (vec3 (0 # 8) 0 (34 # 136)) true true)
             eq_refl eq_refl eq_refl).
    + vm_compute. reflexivity.
    + rewrite <- (distanceTo_equiv (groundPoint (camera (animate fallbackStarted)))).
      * apply (distanceTo_ltb_iff _ _ 30 H30). vm_compute. reflexivity.
      * apply groundPoint_intersection. vm_compute. discriminate.
  - apply (downward_reticle_clamped fallbackLookingAtHorizon
             (mkFallbackReticle (vec3 (0 # 8) 0 (34 # 136)) true true)
             eq_refl eq_refl eq_refl).
    + vm_compute. reflexivity.
    + rewrite <- (distanceTo_equiv (groundPoint (camera (animate fallbackLookingAtHorizon)))).
      * apply Rnot_lt_le. intros Hlt.
        apply (distanceTo_ltb_iff _ _ 30 H30) in Hlt. vm_compute in Hlt. discriminate Hlt.
      * apply groundPoint_intersection. vm_compute. discriminate.
Defined.

(** ** Double tap *)

(** A commit either changes nothing or leaves the pipe placed. *)
Lemma commit_cases (c : Commit) (s : App) :
  commitPlacement c s = s \/ pipePlaced (commitPlacement c s) = true.
Proof.
  destruct c; simpl.
  - unfold onARSelect. branch; auto.
  - unfold btnPlace_click. branch; auto.
  - unfold canvas_click. branch; auto.
Qed.

Lemma placed_holdsOne (s : App) :
  placementInv s -> pipePlaced s = true -> holdsOnePlacement s.
Proof.
  unfold placementInv, holdsOnePlacement. intros H Hp. rewrite Hp in H.
  destruct H as (H1 & H2 & H3 & _). auto.
Qed.

(** A served commit leaves the pipe placed. *)
Lemma served_places (c : Commit) (s : App) :
  fallbackInv s -> served c s -> pipePlaced (commitPlacement c s) = true.
Proof.
  intros Hinv Hs.
  destruct (pipePlaced s) eqn:Hp; [rewrite (commit_placed c s Hp); exact Hp|].
  destruct c; simpl in *.
  - unfold onARSelect. rewrite Hp. branch; reflexivity.
  - destruct (Hinv Hs) as (r & Er & _).
    unfold btnPlace_click. rewrite Hp, Hs, Er. reflexivity.
  - destruct Hs as [Hf Hd]. destruct (Hinv Hf) as (r & Er & _).
    unfold canvas_click. rewrite Hf, Hp. cbn [negb orb].
    assert (E : negb (useDeviceOrientation s) && wasDragged s = false).
    { destruct Hd as [-> | ->]; [reflexivity | apply andb_false_r]. }
    rewrite E, Er. reflexivity.
Qed.

Lemma commit_wasDragged (c : Commit) (s : App) :
  wasDragged (commitPlacement c s) = wasDragged s.
Proof.
  destruct (commit_placePipe c s) as [-> | (pos & ->)]; reflexivity.
Qed.

Lemma commit_useDeviceOrientation (c : Commit) (s : App) :
  useDeviceOrientation (commitPlacement c s) = useDeviceOrientation s.
Proof.
  destruct (commit_placePipe c s) as [-> | (pos & ->)]; reflexivity.
Qed.

Lemma set_wasDragged_same (s : App) : set_wasDragged (wasDragged s) s = s.
Proof. destruct s. reflexivity. Qed.

(** A tap in the fallback backend leaves the pipe placed, and a tap on a
    state a tap has left changes nothing. *)
Lemma tap_places (s : App) :
  reachable s -> fallbackMode s = true ->
  holdsOnePlacement (run tap s) /\ run tap (run tap s) = run tap s.
Proof.
  intros Hr Hf.
  destruct (reachable_startedInv s Hr Hf) as [_ Hc].
  (* the pointer goes down *)
  set (u := step PointerDown s).
  assert (Hu : reachable u) by (apply (reachable_run [PointerDown] s Hr)).
  assert (Fu : fallbackMode u = true /\ fallbackControlsReady u = true
               /\ (useDeviceOrientation u = true \/ wasDragged u = false)
               /\ (useDeviceOrientation u = false -> wasDragged u = false)).
  { subst u. cbn [step]. rewrite Hc. unfold canvas_pointerdown.
    destruct (useDeviceOrientation s) eqn:Eg.
    - repeat split; auto. intros H. congruence.
    - repeat split; auto. }
  destruct Fu as (Ufm & Ucr & Userved & Udrag).
  (* the click *)
  set (v := step CanvasClick u).
  assert (Ev : v = commitPlacement ByCanvasClick u) by reflexivity.
  assert (Hv : reachable v) by (apply (reachable_run [CanvasClick] u Hu)).
  assert (Pv : pipePlaced v = true).
  { rewrite Ev. apply served_places; [apply reachable_fallbackInv, Hu|].
    split; assumption. }
  assert (Et : run tap s = v) by reflexivity.
  rewrite Et. split; [apply placed_holdsOne; [apply reachable_inv, Hv | exact Pv]|].
  (* the second tap *)
  assert (Cv : fallbackControlsReady v = true).
  { rewrite Ev. destruct (commit_flags ByCanvasClick u) as (_ & _ & E).
    rewrite E. exact Ucr. }
  assert (Gv : useDeviceOrientation v = useDeviceOrientation u).
  { rewrite Ev. apply commit_useDeviceOrientation. }
  assert (Dv : wasDragged v = wasDragged u).
  { rewrite Ev. apply commit_wasDragged. }
  assert (Ed : step PointerDown v = v).
  { cbn [step]. rewrite Cv. unfold canvas_pointerdown.
    rewrite Gv. destruct (useDeviceOrientation u) eqn:Eg; [reflexivity|].
    rewrite <- (Udrag eq_refl), <- Dv. apply set_wasDragged_same. }
  change (run tap v) with (step CanvasClick (step PointerDown v)).
  rewrite Ed. exact (commit_placed ByCanvasClick v Pv).
Qed.

(** C6: from every reachable state, a commit action invoked twice in direct
    succession where the state serves it (the select of the tracked session
    anywhere; the tap or the place button in the fallback backend) results in
    exactly one Placement Store entry, and the second invocation changes no
    state.  So does a double select delivered to a tracked session and a
    double tap delivered to the fallback backend.  In general, after an
    invocation that has placed the pipe the next one, by whatever trigger,
    changes no state; a trigger repeated is idempotent; and never more than
    one entry exists (none only where both invocations found nothing to
    serve). *)
Theorem double_commit_single_placement (c1 c2 : Commit) (s : App) :
  reachable s ->
  let s1 := commitPlacement c1 s in
  let s2 := commitPlacement c2 s1 in
  (served c1 s -> holdsOnePlacement s2 /\ s2 = s1)
  /\ (xrSession s = true ->
      holdsOnePlacement (run [XRSelect; XRSelect] s)
      /\ run [XRSelect] (run [XRSelect] s) = run [XRSelect] s)
  /\ (fallbackMode s = true ->
      holdsOnePlacement (run (tap ++ tap) s)
      /\ run tap (run tap s) = run tap s)
  /\ (pipePlaced s1 = true -> s2 = s1)
  /\ commitPlacement c1 s1 = s1
  /\ (length (placedMarkers s2) <= 1)%nat
  /\ (pipePlaced s2 = true ->
      length (placedMarkers s2) = 1%nat
      /\ pipeGroup s2 <> None /\ placedPosition s2 <> None)
  /\ (pipePlaced s2 = false ->
      placedMarkers s2 = [] /\ pipeGroup s2 = None /\ placedPosition s2 = None).
Proof.
  intros Hr s1 s2.
  pose proof (commit_inv c1 s (reachable_inv s Hr)) as Hinv1.
  pose proof (commit_inv c2 s1 Hinv1) as Hinv.
  fold s1 in Hinv1. fold s2 in Hinv.
  split; [|split; [|split; [|split; [|split; [|split; [|split]]]]]].
  - intros Hs.
    assert (P1 : pipePlaced s1 = true)
      by (apply served_places; [apply reachable_fallbackInv, Hr | exact Hs]).
    assert (E : s2 = s1) by (apply commit_placed, P1).
    split; [|exact E]. rewrite E. apply placed_holdsOne; assumption.
  - intros Hx.
    assert (E1 : run [XRSelect] s = commitPlacement BySelect s).
    { unfold run. cbn [fold_left step]. rewrite Hx. reflexivity. }
    assert (P1 : pipePlaced (run [XRSelect] s) = true).
    { rewrite E1. apply served_places; [apply reachable_fallbackInv, Hr | exact I]. }
    assert (E2 : run [XRSelect] (run [XRSelect] s) = run [XRSelect] s).
    { set (t := run [XRSelect] s) in *. clearbody t.
      unfold run. cbn [fold_left step].
      destruct (xrSession t); [|reflexivity].
      exact (commit_placed BySelect t P1). }
    split; [|exact E2].
    change (run [XRSelect; XRSelect] s) with (run [XRSelect] (run [XRSelect] s)).
    rewrite E2. apply placed_holdsOne; [|exact P1].
    apply reachable_inv, reachable_run, Hr.
  - intros Hf. destruct (tap_places s Hr Hf) as [H1 H2].
    split; [|exact H2]. rewrite run_app, H2. exact H1.
  - intros Hp. apply commit_placed, Hp.
  - destruct (commit_cases c1 s) as [E|E].
    + unfold s1. rewrite E. exact E.
    + apply commit_placed, E.
  - unfold placementInv in Hinv. destruct (pipePlaced s2).
    + destruct Hinv as (_ & _ & Hm & _). rewrite Hm. apply le_n.
    + destruct Hinv as (_ & _ & Hm). rewrite Hm. apply le_0_n.
  - intros Hp. unfold placementInv in Hinv. rewrite Hp in Hinv.
    destruct Hinv as (H1 & H2 & H3 & _). auto.
  - intros Hp. unfold placementInv in Hinv. rewrite Hp in Hinv.
    destruct Hinv as (H1 & H2 & H3). auto.
Qed.

Lemma double_commit_single_placement_witness :
  let s := fallbackStarted in
  let s1 := commitPlacement ByCanvasClick s in
  let s2 := commitPlacement ByPlaceButton s1 in
  served ByCanvasClick s
  /\ (holdsOnePlacement s2 /\ s2 = s1)
  /\ (holdsOnePlacement (run (tap ++ tap) s) /\ run tap (run tap s) = run tap s)
  /\ (let t := run searchingTrace initial in
      holdsOnePlacement (run [XRSelect; XRSelect] t)
      /\ run [XRSelect] (run [XRSelect] t) = run [XRSelect] t).
Proof.
  cbv zeta.
  assert (Hs : served ByCanvasClick fallbackStarted).
  { split; [|right]; vm_compute; reflexivity. }
  destruct (double_commit_single_placement ByCanvasClick ByPlaceButton fallbackStarted
              (reachable_trace [StartFallback demoStart]))
    as (A & _ & B & _).
  destruct (double_commit_single_placement BySelect BySelect (run searchingTrace initial)
              (reachable_trace searchingTrace))
    as (_ & C & _).
  split; [exact Hs|]. split; [exact (A Hs)|]. split.
  - apply B. vm_compute. reflexivity.
  - apply C. vm_compute. reflexivity.
Defined.

(** ** Reset *)

(** C8, as stated, fails: in a tracked session reset leaves the tracked
    reticle as hidden as the commit had made it. *)
Lemma reset_leaves_tracked_reticle_hidden :
  let s := trackedPlaced in
  (xrSession s = true /\ fallbackMode s = false /\ pipePlaced s = true
   /\ reticle (step ResetButton s) = reticle s
   /\ activeReticleVisible (step ResetButton s) = false)
  /\ ~ resetShowsActiveReticle.
Proof.
  split; [by_computation|].
  intros H.
  assert (Hx : xrSession trackedPlaced = true) by (vm_compute; reflexivity).
  specialize (H trackedPlaced (reachable_trace trackedPlacedTrace) (or_introl Hx)).
  vm_compute in H. discriminate H.
Qed.

Lemma step_XRFrame (frame : option (list (option Vec3))) (s : App) :
  step (XRFrame frame) s = if xrLoop s then onXRFrame frame s else s.
Proof. reflexivity. Qed.

Lemma btnReset_click_tracked (s : App) :
  xrLoop (btnReset_click s) = xrLoop s
  /\ hitTestSource (btnReset_click s) = hitTestSource s
  /\ pipePlaced (btnReset_click s) = false
  /\ reticle (btnReset_click s) = reticle s.
Proof. repeat split. Qed.

(** After a reset the tracked frame loop writes its reticle again. *)
Lemma frame_after_reset (s : App) (pose : Vec3) (rest : list (option Vec3)) :
  xrLoop s = true -> hitTestSource s = true -> reticle s <> None ->
  reticle (step (XRFrame (Some (Some pose :: rest))) (step ResetButton s))
  = Some (mkARReticle true pose).
Proof.
  intros Hl Hh Hr. rewrite step_XRFrame.
  destruct (btnReset_click_tracked s) as (E1 & E2 & E3 & E4).
  change (step ResetButton s) with (btnReset_click s).
  set (t := btnReset_click s) in *. clearbody t.
  rewrite E1, Hl. unfold onXRFrame. rewrite E2, E3, Hh. simpl andb. cbv iota.
  rewrite <- E4 in Hr. destruct (reticle t) eqn:Et; [reflexivity | congruence].
Qed.

(** C8, amended: reset clears the Placement (flag, asset, base position,
    ground markers), issues no acquisition request and leaves the backends
    as they are; when the fallback backend is active its reticle is visible
    again, a fresh one at (0, 0, -3); the tracked reticle is left as it is
    and becomes visible with the next tracked frame that reports a hit
    pose. *)
Theorem reset_clears_placement (s : App) :
  let s' := step ResetButton s in
  (pipePlaced s' = false /\ placedPosition s' = None /\ pipeGroup s' = None
   /\ excavationGroup s' = None /\ placedMarkers s' = [])
  /\ (requests s' = requests s /\ cameraVideo s' = cameraVideo s
      /\ xrSession s' = xrSession s /\ hitTestSource s' = hitTestSource s
      /\ xrLoop s' = xrLoop s /\ fallbackMode s' = fallbackMode s
      /\ fallbackAnimateRunning s' = fallbackAnimateRunning s
      /\ useDeviceOrientation s' = useDeviceOrientation s)
  /\ (fallbackMode s = true ->
      fallbackReticle s' = Some createFallbackReticle
      /\ activeReticleVisible s' = true)
  /\ reticle s' = reticle s
  /\ (forall pose rest, xrLoop s = true -> hitTestSource s = true -> reticle s <> None ->
      reticle (step (XRFrame (Some (Some pose :: rest))) s') = Some (mkARReticle true pose)).
Proof.
  cbv zeta. split; [repeat split|]. split; [repeat split|]. split; [|split].
  - intros Hf. split; [reflexivity|].
    assert (E1 : fallbackMode (step ResetButton s) = fallbackMode s) by reflexivity.
    assert (E2 : fallbackReticle (step ResetButton s) = Some createFallbackReticle)
      by reflexivity.
    set (t := step ResetButton s) in *. clearbody t.
    unfold activeReticleVisible. rewrite E1, Hf, E2. reflexivity.
  - reflexivity.
  - intros pose rest Hl Hh Hr. apply frame_after_reset; assumption.
Qed.

(** ** Forward offset *)

(** C9, as stated, fails in its sign convention: on a Placement committed at
    the origin with yaw 0 the offset 500 puts the asset at z = -0.5, away
    from the camera (which looks along -Z), not towards +Z. *)
Lemma positive_offset_moves_away :
  let s := run [StartAR (SessionStarted true); XRFrame (Some [Some (vec3 0 0 0)]);
                XRSelect] initial in
  (placedPosition s = Some (vec3 0 0 0)
   /\ exists pos, effectivePose (step (DistanceSlider 500) s) = Some (pos, 0)
                  /\ Vector3.z pos == -0.5
                  /\ ~ 0 < Vector3.z pos)
  /\ ~ positiveOffsetTowardsCamera.
Proof.
  split.
  - split; [vm_compute; reflexivity|].
    eexists. split; [vm_compute; reflexivity|].
    split; vm_compute; [reflexivity | discriminate].
  - intros H.
    specialize (H 500
                  (run [StartAR (SessionStarted true);
                        XRFrame (Some [Some (vec3 0 0 0)]); XRSelect] initial)
                  (vec3 0 0 0) (vec3 0 0 (0 - 500 * 0.001)) 0).
    assert (Hz : Vector3.z (vec3 0 0 0) < Vector3.z (vec3 0 0 (0 - 500 * 0.001))).
    { apply H.
      - apply reachable_trace.
      - vm_compute. reflexivity.
      - reflexivity.
      - vm_compute. reflexivity. }
    vm_compute in Hz. discriminate Hz.
Qed.

Lemma distanceSlider_twice (v w : Q) (s : App) :
  pipeGroup (distanceSlider_input w (distanceSlider_input v s))
  = pipeGroup (distanceSlider_input w s).
Proof.
  destruct (pipeGroup s) as [g|] eqn:Eg.
  - destruct (placedPosition s) as [base|] eqn:Eb.
    + rewrite (distanceSlider_pipeGroup w s g base Eg Eb).
      rewrite (distanceSlider_pipeGroup w (distanceSlider_input v s)
                 (mkObject3D (Vector3.setZ (position g) (Vector3.z base - v * 0.001))
                    (rotation_y g) (visible g)) base).
      * reflexivity.
      * apply distanceSlider_pipeGroup; assumption.
      * rewrite distanceSlider_placedPosition. exact Eb.
    + unfold distanceSlider_input at 2. rewrite Eg, Eb. reflexivity.
  - unfold distanceSlider_input at 2. rewrite Eg. reflexivity.
Qed.

(** C9, amended: on a Placement with base position (0, 0, 0) and yaw 0, the
    offset 500 followed by the offset -200 yields an effective position with
    z == 0.2; offsets do not accumulate (after two offsets the asset is where
    the second alone puts it, computed from the stored base position); and
    the offset [v] puts the asset at z == -v/1000: a positive offset moves it
    towards -Z, away from the camera, a negative one towards +Z. *)
Theorem forward_offset_last_value_wins (s : App) :
  let s0 := placePipe (vec3 0 0 0) s in
  (exists pos, effectivePose (distanceSlider_input (-200) (distanceSlider_input 500 s0))
               = Some (pos, 0)
               /\ Vector3.x pos == 0 /\ Vector3.y pos == 0 /\ Vector3.z pos == 0.2)
  /\ (forall v w, effectivePose (distanceSlider_input w (distanceSlider_input v s0))
                  = effectivePose (distanceSlider_input w s0))
  /\ (forall v, exists pos, effectivePose (distanceSlider_input v s0) = Some (pos, 0)
                            /\ Vector3.z pos == - (v / 1000)
                            /\ (0 < v -> Vector3.z pos < 0)
                            /\ (v < 0 -> 0 < Vector3.z pos)).
Proof.
  intros s0.
  assert (Hone : forall v, pipeGroup (distanceSlider_input v s0)
                           = Some (mkObject3D (vec3 0 0 (0 - v * 0.001)) 0 true)).
  { intros v.
    rewrite (distanceSlider_pipeGroup v s0 (mkObject3D (vec3 0 0 0) 0 true) (vec3 0 0 0)).
    - reflexivity.
    - apply placePipe_pipeGroup.
    - apply placePipe_placedPosition. }
  split; [|split].
  - unfold effectivePose. rewrite distanceSlider_twice, Hone.
    eexists. split; [reflexivity|]. repeat split; vm_compute; reflexivity.
  - intros v w. unfold effectivePose. rewrite distanceSlider_twice. reflexivity.
  - intros v. unfold effectivePose. rewrite Hone.
    eexists. split; [reflexivity|]. cbn [Vector3.z position].
    assert (E : 0 - v * 0.001 == - (v / 1000)) by (field).
    split; [exact E|]. split; intros Hv; Lqa.lra.
Qed.

(** ** The camera stream *)

Lemma sameRequests_trans (a b c : App) :
  sameRequests a b -> sameRequests b c -> sameRequests a c.
Proof. unfold sameRequests. intros [A1 A2] [B1 B2]. split; congruence. Qed.

Lemma startCameraBackground_cached (o : StreamOutcome) (s : App) :
  cameraVideo s = true -> startCameraBackground o s = s.
Proof. intros H. unfold startCameraBackground. rewrite H. reflexivity. Qed.

Lemma animate_sameRequests (s : App) : sameRequests s (animate s).
Proof.
  unfold animate, updateFallbackReticle, updateCameraFromOrientation.
  destruct (useDeviceOrientation s); simpl; branch; simpl; split; reflexivity.
Qed.

Lemma placePipe_sameRequests (pos : Vec3) (s : App) : sameRequests s (placePipe pos s).
Proof. split; reflexivity. Qed.

Lemma commit_sameRequests (c : Commit) (s : App) : sameRequests s (commitPlacement c s).
Proof.
  destruct c; simpl.
  - unfold onARSelect. branch; solve [split; reflexivity].
  - unfold btnPlace_click. branch; solve [split; reflexivity].
  - unfold canvas_click. branch; solve [split; reflexivity].
Qed.

Lemma startFallbackMode_sameRequests (i : FallbackStart) (s : App) :
  cameraVideo s = true -> sameRequests s (startFallbackMode i s).
Proof.
  intros Hc. unfold startFallbackMode.
  destruct (fallbackMode s && fallbackAnimateRunning s); [split; reflexivity|].
  cbv zeta.
  set (s1 := set_fallbackMode true s).
  assert (E2 : startCameraBackground (stream i) s1 = s1)
    by (apply startCameraBackground_cached; exact Hc).
  rewrite E2.
  set (s3 := set_camera _ s1).
  set (s4 := set_fallbackReticle (Some createFallbackReticle) s3).
  set (s5 := if fallbackControlsReady s4 then s4 else _).
  set (s6 := if fallbackAnimateRunning s5 then s5 else _).
  assert (H5 : sameRequests s s5).
  { subst s5. unfold setupFallbackControls.
    destruct (fallbackControlsReady s4); [split; reflexivity|].
    destruct (useDeviceOrientation s4); split; reflexivity. }
  assert (H6 : sameRequests s s6).
  { subst s6. destruct (fallbackAnimateRunning s5); [exact H5|].
    apply sameRequests_trans with (set_fallbackAnimateRunning true s5).
    - destruct H5 as [A B]. split; assumption.
    - apply animate_sameRequests. }
  destruct (pipePlaced s6); [|exact H6].
  destruct H6 as [A B]. split; assumption.
Qed.

(** With the stream in hand no event asks for the camera again. *)
Lemma step_camera_cached (e : Event) (s : App) :
  cameraVideo s = true ->
  cameraVideo (step e s) = true
  /\ requested CameraStreamRequest (step e s) = requested CameraStreamRequest s.
Proof.
  intros Hc.
  assert (same : forall s', sameRequests s s' ->
                   cameraVideo s' = true
                   /\ requested CameraStreamRequest s' = requested CameraStreamRequest s).
  { intros s' [A B]. unfold requested. rewrite A, B. auto. }
  destruct e; cbn [step].
  - unfold startARSession. destruct o; split; solve [exact Hc | reflexivity].
  - apply same, startFallbackMode_sameRequests, Hc.
  - apply same. destruct (xrLoop s); [|split; reflexivity]. unfold onXRFrame.
    destruct frame as [hits|]; [|split; reflexivity].
    destruct (hitTestSource s && negb (pipePlaced s)); [|split; reflexivity].
    destruct hits as [|[pose|] rest]; split; reflexivity.
  - apply same. destruct (xrLoop s); split; reflexivity.
  - apply same. destruct (xrSession s); [|split; reflexivity].
    apply (commit_sameRequests BySelect).
  - apply same. destruct (xrSession s); [|split; reflexivity].
    unfold xrSession_end. cbv zeta.
    set (t := set_xrLoop false _).
    destruct (negb (fallbackMode t)); [|split; reflexivity].
    apply (sameRequests_trans s t); [split; reflexivity|].
    apply startFallbackMode_sameRequests. exact Hc.
  - apply same. destruct (fallbackAnimateRunning s); [|split; reflexivity].
    apply animate_sameRequests.
  - apply same.
    destruct (fallbackControlsReady s && negb (useDeviceOrientation s)); split; reflexivity.
  - destruct (fallbackControlsReady s); [|auto].
    unfold btnGyroPermission_click. destruct granted; split; solve [exact Hc | reflexivity].
  - apply same. destruct (useDeviceOrientation s); split; reflexivity.
  - apply same. destruct (fallbackControlsReady s); [|split; reflexivity].
    unfold canvas_pointerdown. destruct (useDeviceOrientation s); split; reflexivity.
  - apply same. destruct (fallbackControlsReady s); [|split; reflexivity].
    unfold canvas_pointermove.
    destruct (useDeviceOrientation s); [split; reflexivity|].
    destruct beyond; split; reflexivity.
  - apply same.
    destruct (fallbackControlsReady s && useDeviceOrientation s); split; reflexivity.
  - apply same, (commit_sameRequests ByPlaceButton).
  - apply same, (commit_sameRequests ByCanvasClick).
  - apply same. split; reflexivity.
  - apply same. split; reflexivity.
  - apply same. unfold distanceSlider_input.
    destruct (pipeGroup s), (placedPosition s); split; reflexivity.
  - apply same. split; reflexivity.
  - apply same. unfold setAR3DModel, autoPlaceAtDefaultPosition.
    branch; solve [split; reflexivity].
  - apply same.
    destruct (loadARPipeData_cases first s) as [-> | ->]; [split; reflexivity|].
    unfold autoPlaceAtDefaultPosition.
    branch; solve [split; reflexivity].
Qed.

(** C10. Once [cameraVideo] is set, a call of [startCameraBackground]
    returns the state as it is, whatever the platform would answer, and no
    sequence of events (hand-offs from the tracked session, fallback starts,
    resets included) issues another camera request or drops the stream: the
    stream is acquired at most once. *)
Theorem camera_stream_acquired_once (o : StreamOutcome) (es : list Event) (s : App) :
  cameraVideo s = true ->
  startCameraBackground o s = s
  /\ cameraVideo (run es s) = true
  /\ requested CameraStreamRequest (run es s) = requested CameraStreamRequest s.
Proof.
  intros Hc. split; [apply startCameraBackground_cached, Hc|].
  revert s Hc. induction es as [|e es IH]; intros s Hc; simpl.
  - split; [exact Hc | reflexivity].
  - destruct (step_camera_cached e s Hc) as [Hc' Hn].
    destruct (IH (step e s) Hc') as [H1 H2].
    split; [exact H1|]. rewrite <- Hn. exact H2.
Qed.

Lemma camera_stream_acquired_once_witness :
  let es := [StartAR (SessionStarted true); XREnd demoStart; ResetButton;
             StartFallback demoStart; XREnd demoStart] in
  startCameraBackground StreamGranted fallbackStarted = fallbackStarted
  /\ cameraVideo (run es fallbackStarted) = true
  /\ requested CameraStreamRequest (run es fallbackStarted)
     = requested CameraStreamRequest fallbackStarted.
Proof.
  apply (camera_stream_acquired_once StreamGranted _ fallbackStarted).
  reflexivity.
Defined.

(** * Further properties of the handlers *)

(** ** Starting the fallback backend twice *)

(** A second call of [startFallbackMode] returns at its guard: whatever the
    camera answers the second time, the state is the one the first call
    left. *)
Theorem startFallbackMode_twice (i j : FallbackStart) (s : App) :
  startFallbackMode j (startFallbackMode i s) = startFallbackMode i s.
Proof.
  destruct (fallbackMode s && fallbackAnimateRunning s) eqn:Eg.
  - assert (E : startFallbackMode i s = s)
      by (unfold startFallbackMode; rewrite Eg; reflexivity).
    rewrite E. unfold startFallbackMode. rewrite Eg. reflexivity.
  - destruct (startFallbackMode_backend i s Eg) as (B1 & B2 & _).
    set (t := startFallbackMode i s) in *. clearbody t.
    unfold startFallbackMode. rewrite B1, B2. reflexivity.
Qed.

(** ** Hand-off before anything is placed *)

(** When the tracked session ends before a commit, the fallback backend takes
    over with a visible reticle, nothing placed, and the place button (dead
    during the tracked session) commits at that reticle. *)
Theorem handoff_unplaced_reticle_usable (i : FallbackStart) (s : App) :
  xrSession s = true -> fallbackMode s = false -> pipePlaced s = false ->
  let s' := step (XREnd i) s in
  btnPlace_click s = s
  /\ fallbackMode s' = true /\ xrSession s' = false /\ pipePlaced s' = false
  /\ exists r, fallbackReticle s' = Some r /\ fr_visible r = true
               /\ effectivePose (step PlaceButton s') = Some (fr_position r, 0)
               /\ placedPosition (step PlaceButton s') = Some (fr_position r)
               /\ pipePlaced (step PlaceButton s') = true.
Proof.
  intros Hx Hf Hp.
  assert (E0 : btnPlace_click s = s)
    by (unfold btnPlace_click; rewrite Hp, Hf; reflexivity).
  cbn [step]. rewrite Hx. unfold xrSession_end. cbv zeta.
  set (t := set_xrLoop false _).
  assert (Hft : fallbackMode t = false) by exact Hf.
  assert (Hpt : pipePlaced t = false) by exact Hp.
  rewrite Hft. cbn [negb].
  assert (Hg : fallbackMode t && fallbackAnimateRunning t = false)
    by (rewrite Hft; reflexivity).
  destruct (startFallbackMode_backend i t Hg) as (B1 & _ & _ & B4 & _).
  destruct (startFallbackMode_samePlacement i t) as (E1 & _).
  destruct (startFallbackMode_reticle i t Hg) as (r & Er & Hv).
  set (u := startFallbackMode i t) in *. clearbody u.
  split; [exact E0|]. split; [exact B1|]. split; [rewrite B4; reflexivity|].
  split; [rewrite E1; exact Hpt|].
  exists r. split; [exact Er|]. split; [exact (Hv Hpt)|].
  assert (Eb : btnPlace_click u = placePipe (Vector3.clone (fr_position r)) u).
  { unfold btnPlace_click. rewrite E1, Hpt, B1, Er. reflexivity. }
  rewrite Eb. repeat split.
Qed.

Lemma handoff_unplaced_reticle_usable_witness :
  let s := run searchingTrace initial in
  let s' := step (XREnd demoStart) s in
  btnPlace_click s = s
  /\ fallbackMode s' = true /\ xrSession s' = false /\ pipePlaced s' = false
  /\ exists r, fallbackReticle s' = Some r /\ fr_visible r = true
               /\ effectivePose (step PlaceButton s') = Some (fr_position r, 0)
               /\ placedPosition (step PlaceButton s') = Some (fr_position r)
               /\ pipePlaced (step PlaceButton s') = true.
Proof.
  apply (handoff_unplaced_reticle_usable demoStart (run searchingTrace initial));
    vm_compute; reflexivity.
Defined.

(** ** The excavation volume goes with the asset *)

Lemma excavationInv_ext (s s' : App) :
  excavationState s' = excavationState s ->
  pipeGroup s' = pipeGroup s ->
  excavationGroup s' = excavationGroup s ->
  excavationInv s -> excavationInv s'.
Proof. unfold excavationInv. intros -> -> ->. auto. Qed.

Lemma placePipe_excavationInv (pos : Vec3) (s : App) :
  (excavationState s < 3)%nat -> excavationInv (placePipe pos s).
Proof. intros H. split; [exact H|]. repeat split. Qed.

Lemma commit_excavationInv (c : Commit) (s : App) :
  excavationInv s -> excavationInv (commitPlacement c s).
Proof.
  intros H. pose proof (proj1 H) as Hn. destruct c; simpl.
  - unfold onARSelect. branch; try assumption; apply placePipe_excavationInv, Hn.
  - unfold btnPlace_click. branch; try assumption; apply placePipe_excavationInv, Hn.
  - unfold canvas_click. branch; try assumption; apply placePipe_excavationInv, Hn.
Qed.

Lemma autoPlace_excavationInv (s : App) :
  excavationInv s -> excavationInv (autoPlaceAtDefaultPosition s).
Proof.
  intros H. pose proof (proj1 H) as Hn. unfold autoPlaceAtDefaultPosition.
  branch; try assumption; apply placePipe_excavationInv, Hn.
Qed.

Lemma animate_excavationInv (s : App) : excavationInv s -> excavationInv (animate s).
Proof.
  apply excavationInv_ext.
  - unfold animate, updateFallbackReticle, updateCameraFromOrientation.
    destruct (useDeviceOrientation s); simpl; branch; reflexivity.
  - apply animate_samePlacement.
  - apply animate_samePlacement.
Qed.

Lemma startFallbackMode_excavationState (i : FallbackStart) (s : App) :
  excavationState (startFallbackMode i s) = excavationState s.
Proof.
  unfold startFallbackMode.
  destruct (fallbackMode s && fallbackAnimateRunning s); [reflexivity|].
  cbv zeta.
  set (s1 := set_fallbackMode true s).
  set (s2 := startCameraBackground (stream i) s1).
  set (s3 := set_camera _ s2).
  set (s4 := set_fallbackReticle (Some createFallbackReticle) s3).
  set (s5 := if fallbackControlsReady s4 then s4 else _).
  set (s6 := if fallbackAnimateRunning s5 then s5 else _).
  assert (H2 : excavationState s2 = excavationState s).
  { subst s2. unfold startCameraBackground.
    destruct (cameraVideo s1), (stream i); reflexivity. }
  assert (H5 : excavationState s5 = excavationState s).
  { subst s5. unfold setupFallbackControls.
    destruct (fallbackControlsReady s4); [exact H2|].
    destruct (useDeviceOrientation s4); exact H2. }
  assert (H6 : excavationState s6 = excavationState s).
  { subst s6. destruct (fallbackAnimateRunning s5); [exact H5|].
    rewrite <- H5.
    set (t := set_fallbackAnimateRunning true s5).
    change (excavationState s5) with (excavationState t).
    unfold animate, updateFallbackReticle, updateCameraFromOrientation.
    destruct (useDeviceOrientation t); simpl; branch; reflexivity. }
  destruct (pipePlaced s6); exact H6.
Qed.

Lemma startFallbackMode_excavationInv (i : FallbackStart) (s : App) :
  excavationInv s -> excavationInv (startFallbackMode i s).
Proof.
  apply excavationInv_ext.
  - apply startFallbackMode_excavationState.
  - apply startFallbackMode_samePlacement.
  - apply startFallbackMode_samePlacement.
Qed.

Lemma step_excavationInv (e : Event) (s : App) :
  excavationInv s -> excavationInv (step e s).
Proof.
  intros H.
  assert (ext : forall s', excavationState s' = excavationState s ->
                           pipeGroup s' = pipeGroup s ->
                           excavationGroup s' = excavationGroup s -> excavationInv s').
  { intros s' E1 E2 E3. apply (excavationInv_ext s); assumption. }
  destruct e; cbn [step].
  - unfold startARSession. destruct o; apply ext; reflexivity.
  - apply startFallbackMode_excavationInv, H.
  - destruct (xrLoop s); [|exact H]. unfold onXRFrame.
    destruct frame as [hits|]; [|exact H].
    destruct (hitTestSource s && negb (pipePlaced s)); [|exact H].
    destruct hits as [|[pose|] rest]; try exact H; apply ext; reflexivity.
  - destruct (xrLoop s); [apply ext; reflexivity | exact H].
  - destruct (xrSession s); [apply (commit_excavationInv BySelect) |]; exact H.
  - destruct (xrSession s); [|exact H]. unfold xrSession_end. cbv zeta.
    set (t := set_xrLoop false _).
    assert (Ht : excavationInv t) by (apply ext; reflexivity).
    destruct (negb (fallbackMode t)); [apply startFallbackMode_excavationInv|]; exact Ht.
  - destruct (fallbackAnimateRunning s); [apply animate_excavationInv|]; exact H.
  - destruct (fallbackControlsReady s && negb (useDeviceOrientation s));
      [apply ext; reflexivity | exact H].
  - destruct (fallbackControlsReady s); [|exact H].
    unfold btnGyroPermission_click. destruct granted; apply ext; reflexivity.
  - destruct (useDeviceOrientation s); [apply ext; reflexivity | exact H].
  - destruct (fallbackControlsReady s); [|exact H]. unfold canvas_pointerdown.
    destruct (useDeviceOrientation s); [exact H | apply ext; reflexivity].
  - destruct (fallbackControlsReady s); [|exact H]. unfold canvas_pointermove.
    destruct (useDeviceOrientation s); [exact H|].
    destruct beyond; apply ext; reflexivity.
  - destruct (fallbackControlsReady s && useDeviceOrientation s);
      [apply ext; reflexivity | exact H].
  - apply (commit_excavationInv ByPlaceButton), H.
  - apply (commit_excavationInv ByCanvasClick), H.
  - (* ResetButton *)
    split; [apply Nat.lt_0_succ | exact I].
  - (* RotationSlider *)
    destruct H as [Hn H]. split; [exact Hn|].
    change (pipeGroup (rotationSlider_input angle s))
      with (option_map (fun g => mkObject3D (position g) angle (visible g)) (pipeGroup s)).
    change (excavationGroup (rotationSlider_input angle s))
      with (option_map (fun g => mkObject3D (position g) angle (visible g))
              (excavationGroup s)).
    change (excavationState (rotationSlider_input angle s)) with (excavationState s).
    destruct (pipeGroup s) as [g|], (excavationGroup s) as [x|]; simpl; try exact H.
    destruct H as (H1 & H2 & H3). auto.
  - (* DistanceSlider *)
    unfold distanceSlider_input.
    destruct (pipeGroup s) as [g|] eqn:Eg; [|exact H].
    destruct (placedPosition s) as [b|] eqn:Eb; [|exact H].
    destruct H as [Hn H]. rewrite Eg in H. split; [exact Hn|].
    cbn [pipeGroup excavationGroup excavationState set_pipeGroup set_excavationGroup].
    destruct (excavationGroup s) as [x|]; [|contradiction].
    destruct H as (H1 & H2 & H3). simpl. rewrite H1. auto.
  - (* ExcavationButton *)
    destruct H as [Hn H]. split.
    + apply Nat.mod_upper_bound. discriminate.
    + change (pipeGroup (btnExcavation_click s)) with (pipeGroup s).
      destruct (pipeGroup s) as [g|], (excavationGroup s) as [x|] eqn:Ex;
        try contradiction.
      * unfold btnExcavation_click. cbv zeta. simpl. rewrite Ex. simpl.
        destruct H as (H1 & H2 & _). auto.
      * unfold btnExcavation_click. cbv zeta. simpl. rewrite Ex. exact I.
  - (* ModelLoaded *)
    unfold setAR3DModel.
    destruct (pipePlaced s) eqn:Hp; [|apply autoPlace_excavationInv, H].
    destruct (pipeGroup s) as [g|] eqn:Eg; [|apply autoPlace_excavationInv, H].
    split; [exact (proj1 H)|]. repeat split.
  - (* PipeDataLoaded *)
    destruct (loadARPipeData_cases first s) as [-> | ->]; [exact H|].
    destruct (pipePlaced s) eqn:Hp; [|apply autoPlace_excavationInv, H].
    destruct (pipeGroup s) as [g|] eqn:Eg; [|apply autoPlace_excavationInv, H].
    destruct H as [Hn H]. rewrite Eg in H. split; [exact Hn|].
    cbn [pipeGroup excavationGroup excavationState set_pipeGroup set_placedPosition].
    destruct (excavationGroup s) as [x|]; [|contradiction]. exact H.
Qed.

Lemma reachable_excavationInv (s : App) : reachable s -> excavationInv s.
Proof.
  intros [es ->].
  assert (G : forall es s, excavationInv s -> excavationInv (run es s)).
  { clear es. induction es as [|e es IH]; intros s H; simpl; [exact H|].
    apply IH, step_excavationInv, H. }
  apply G. split; [apply Nat.lt_0_succ | exact I].
Qed.

(** In every reachable state the excavation volume exists exactly when the
    asset does and has the asset's position and yaw: sliders, reloads and
    rebuilds move both or neither. *)
Theorem excavation_follows_asset (s : App) :
  reachable s ->
  (pipeGroup s = None <-> excavationGroup s = None)
  /\ (forall g e, pipeGroup s = Some g -> excavationGroup s = Some e ->
        position e = position g /\ rotation_y e = rotation_y g).
Proof.
  intros Hr. destruct (reachable_excavationInv s Hr) as [_ H].
  destruct (pipeGroup s) as [g|], (excavationGroup s) as [e|]; try contradiction.
  - split; [split; discriminate|]. intros g' e' [= <-] [= <-].
    destruct H as (H1 & H2 & _). auto.
  - split; [split; reflexivity|]. discriminate.
Qed.

Lemma excavation_follows_asset_witness :
  (pipeGroup trackedPlaced = None <-> excavationGroup trackedPlaced = None)
  /\ (forall g e, pipeGroup trackedPlaced = Some g -> excavationGroup trackedPlaced = Some e ->
        position e = position g /\ rotation_y e = rotation_y g).
Proof.
  apply (excavation_follows_asset trackedPlaced).
  apply (reachable_trace trackedPlacedTrace).
Defined.

(** The excavation button is a three-state toggle: in every reachable state
    the volume is shown exactly when [excavationState] is 1 or 2, and three
    presses bring back the state and the volume as they were. *)
Theorem excavation_toggle_cycles (s : App) :
  reachable s ->
  (excavationState s < 3)%nat
  /\ (forall e, excavationGroup s = Some e -> visible e = (0 <? excavationState s)%nat)
  /\ (let s3 := step ExcavationButton (step ExcavationButton (step ExcavationButton s)) in
      excavationState s3 = excavationState s /\ excavationGroup s3 = excavationGroup s).
Proof.
  intros Hr. destruct (reachable_excavationInv s Hr) as [Hn H].
  assert (Hv : forall e, excavationGroup s = Some e ->
                         visible e = (0 <? excavationState s)%nat).
  { intros e Ee. rewrite Ee in H. destruct (pipeGroup s); [|contradiction]. apply H. }
  split; [exact Hn|]. split; [exact Hv|].
  cbn [step]. unfold btnExcavation_click. cbv zeta.
  cbn [excavationState excavationGroup set_excavationState set_excavationGroup].
  assert (En : (((excavationState s + 1) mod 3 + 1) mod 3 + 1) mod 3 = excavationState s).
  { destruct (excavationState s) as [|[|[|n]]]; try reflexivity. lia. }
  split; [exact En|]. rewrite En.
  destruct (excavationGroup s) as [e|]; [|reflexivity].
  simpl. rewrite <- (Hv e eq_refl). destruct e; reflexivity.
Qed.

Lemma excavation_toggle_cycles_witness :
  (excavationState trackedPlaced < 3)%nat
  /\ (forall e, excavationGroup trackedPlaced = Some e ->
                visible e = (0 <? excavationState trackedPlaced)%nat)
  /\ (let s3 := step ExcavationButton
                  (step ExcavationButton (step ExcavationButton trackedPlaced)) in
      excavationState s3 = excavationState trackedPlaced
      /\ excavationGroup s3 = excavationGroup trackedPlaced).
Proof.
  apply (excavation_toggle_cycles trackedPlaced).
  apply (reachable_trace trackedPlacedTrace).
Defined.

(** ** Sliders before the commit *)

(** Before anything is placed the rotation and the distance slider find
    neither asset nor excavation volume and leave the whole state as it
    is. *)
Theorem sliders_before_commit (angle value : Q) (s : App) :
  reachable s -> pipePlaced s = false ->
  step (RotationSlider angle) s = s /\ step (DistanceSlider value) s = s.
Proof.
  intros Hr Hp.
  pose proof (reachable_inv s Hr) as Hi. unfold placementInv in Hi. rewrite Hp in Hi.
  destruct Hi as (Hg & _ & _).
  assert (He : excavationGroup s = None).
  { destruct (reachable_excavationInv s Hr) as [_ H]. rewrite Hg in H.
    destruct (excavationGroup s); [contradiction | reflexivity]. }
  split.
  - cbn [step]. unfold rotationSlider_input.
    destruct s; simpl in *. subst. reflexivity.
  - cbn [step]. unfold distanceSlider_input. rewrite Hg. reflexivity.
Qed.

Lemma sliders_before_commit_witness :
  step (RotationSlider 90) fallbackStarted = fallbackStarted
  /\ step (DistanceSlider 500) fallbackStarted = fallbackStarted.
Proof.
  apply (sliders_before_commit 90 500 fallbackStarted).
  - apply (reachable_trace [StartFallback demoStart]).
  - vm_compute. reflexivity.
Defined.

(** ** Loading a model or pipe data while placed *)



(** ** A drag is not a tap *)

(** With the pointer rig in charge, a pointer move beyond the drag threshold
    makes the click that ends the gesture a no-op; the next pointer-down
    re-arms the tap, which then commits at the fallback reticle. *)
Theorem drag_suppresses_tap (p : Vec3) (q : Rotation) (s : App) (r : FallbackReticle) :
  fallbackControlsReady s = true -> useDeviceOrientation s = false ->
  fallbackMode s = true -> pipePlaced s = false -> fallbackReticle s = Some r ->
  let d := step (PointerMove true p q) s in
  step CanvasClick d = d
  /\ pipePlaced (step CanvasClick (step PointerDown d)) = true
  /\ placedPosition (step CanvasClick (step PointerDown d)) = Some (fr_position r).
Proof.
  intros Hc Hg Hf Hp Hr. cbn [step]. rewrite Hc.
  unfold canvas_pointermove. rewrite Hg.
  set (d := set_camera _ (set_wasDragged true s)).
  assert (D1 : fallbackControlsReady d = true) by exact Hc.
  assert (D2 : useDeviceOrientation d = false) by exact Hg.
  assert (D3 : wasDragged d = true) by reflexivity.
  assert (D4 : fallbackMode d = true) by exact Hf.
  assert (D5 : pipePlaced d = false) by exact Hp.
  assert (D6 : fallbackReticle d = Some r) by exact Hr.
  clearbody d. cbv zeta. split.
  - unfold canvas_click. rewrite D4, D5, D2, D3. reflexivity.
  - rewrite D1. unfold canvas_pointerdown. rewrite D2.
    set (u := set_wasDragged false d).
    assert (U : canvas_click u = placePipe (Vector3.clone (fr_position r)) u).
    { unfold canvas_click.
      change (fallbackMode u) with (fallbackMode d).
      change (pipePlaced u) with (pipePlaced d).
      change (useDeviceOrientation u) with (useDeviceOrientation d).
      change (wasDragged u) with false.
      change (fallbackReticle u) with (fallbackReticle d).
      rewrite D4, D5, D2, D6. reflexivity. }
    rewrite U. split; reflexivity.
Qed.

Lemma drag_suppresses_tap_witness :
  let d := step (PointerMove true (vec3 0 1.6 0) lookingUp) fallbackStarted in
  step CanvasClick d = d
  /\ pipePlaced (step CanvasClick (step PointerDown d)) = true
  /\ placedPosition (step CanvasClick (step PointerDown d))
     = Some (fr_position (mkFallbackReticle (vec3 (0 # 8) 0 (34 # 136)) true true)).
Proof.
  apply (drag_suppresses_tap (vec3 0 1.6 0) lookingUp fallbackStarted
           (mkFallbackReticle (vec3 (0 # 8) 0 (34 # 136)) true true));
    vm_compute; reflexivity.
Defined.

(** ** Reset, and the commit after it *)



(** ** The gyroscope and the pointer rig *)

Lemma animate_camera (s : App) :
  useDeviceOrientation (animate s) = useDeviceOrientation s
  /\ cam_position (camera (animate s)) = cam_position (camera s)
  /\ cam_quaternion (camera (animate s))
     = (if useDeviceOrientation s then deviceOrientation s
        else cam_quaternion (camera s)).
Proof.
  unfold animate, updateFallbackReticle, updateCameraFromOrientation.
  destruct (useDeviceOrientation s) eqn:E; simpl; branch; simpl; rewrite ?E;
    repeat split.
Qed.

Lemma commit_camera (c : Commit) (s : App) :
  useDeviceOrientation (commitPlacement c s) = useDeviceOrientation s
  /\ camera (commitPlacement c s) = camera s.
Proof.
  destruct c; simpl.
  - unfold onARSelect. branch; split; reflexivity.
  - unfold btnPlace_click. branch; split; reflexivity.
  - unfold canvas_click. branch; split; reflexivity.
Qed.

Lemma autoPlace_camera (s : App) :
  useDeviceOrientation (autoPlaceAtDefaultPosition s) = useDeviceOrientation s
  /\ camera (autoPlaceAtDefaultPosition s) = camera s.
Proof. unfold autoPlaceAtDefaultPosition. branch; split; reflexivity. Qed.

(** With the gyroscope in charge, [startFallbackMode] leaves it in charge and
    the camera at eye height. *)
Lemma startFallbackMode_gyro (i : FallbackStart) (s : App) :
  useDeviceOrientation s = true ->
  useDeviceOrientation (startFallbackMode i s) = true
  /\ (cam_position (camera s) = eyeHeight ->
      cam_position (camera (startFallbackMode i s)) = eyeHeight).
Proof.
  intros Hg. unfold startFallbackMode.
  destruct (fallbackMode s && fallbackAnimateRunning s); [split; auto|].
  cbv zeta.
  set (s1 := set_fallbackMode true s).
  set (s2 := startCameraBackground (stream i) s1).
  set (s3 := set_camera _ s2).
  set (s4 := set_fallbackReticle (Some createFallbackReticle) s3).
  set (s5 := if fallbackControlsReady s4 then s4 else _).
  set (s6 := if fallbackAnimateRunning s5 then s5 else _).
  assert (G2 : useDeviceOrientation s2 = true).
  { subst s2. unfold startCameraBackground.
    destruct (cameraVideo s1), (stream i); exact Hg. }
  assert (G4 : useDeviceOrientation s4 = true) by exact G2.
  assert (P4 : cam_position (camera s4) = eyeHeight) by reflexivity.
  assert (H5 : useDeviceOrientation s5 = true /\ cam_position (camera s5) = eyeHeight).
  { subst s5. unfold setupFallbackControls.
    destruct (fallbackControlsReady s4); [split; assumption|].
    rewrite G4. split; assumption. }
  destruct H5 as [G5 P5].
  assert (H6 : useDeviceOrientation s6 = true /\ cam_position (camera s6) = eyeHeight).
  { subst s6. destruct (fallbackAnimateRunning s5); [split; assumption|].
    destruct (animate_camera (set_fallbackAnimateRunning true s5)) as (A1 & A2 & _).
    rewrite A1, A2. split; assumption. }
  destruct (pipePlaced s6); split; intros; apply H6.
Qed.

Lemma step_gyro (e : Event) (s : App) :
  useDeviceOrientation s = true ->
  useDeviceOrientation (step e s) = true
  /\ (isViewerPose e = false -> cam_position (camera s) = eyeHeight ->
      cam_position (camera (step e s)) = eyeHeight).
Proof.
  intros Hg.
  assert (same : forall s', useDeviceOrientation s' = useDeviceOrientation s ->
                            cam_position (camera s') = cam_position (camera s) ->
                   useDeviceOrientation s' = true
                   /\ (isViewerPose e = false -> cam_position (camera s) = eyeHeight ->
                       cam_position (camera s') = eyeHeight)).
  { intros s' E1 E2. rewrite E1, E2. auto. }
  destruct e; cbn [step].
  - apply same; unfold startARSession; destruct o; reflexivity.
  - destruct (startFallbackMode_gyro i s Hg). auto.
  - apply same; (destruct (xrLoop s); [|reflexivity]); unfold onXRFrame;
      (destruct frame as [hits|]; [|reflexivity]);
      (destruct (hitTestSource s && negb (pipePlaced s)); [|reflexivity]);
      destruct hits as [|[pose|] rest]; reflexivity.
  - split; [destruct (xrLoop s); exact Hg | discriminate].
  - destruct (xrSession s); [|auto].
    destruct (commit_camera BySelect s) as [E1 E2]. apply same; [exact E1|].
    simpl in E2. rewrite E2. reflexivity.
  - destruct (xrSession s); [|auto]. unfold xrSession_end. cbv zeta.
    set (t := set_xrLoop false _).
    destruct (negb (fallbackMode t)); [|auto].
    destruct (startFallbackMode_gyro i t Hg). auto.
  - destruct (fallbackAnimateRunning s); [|auto].
    destruct (animate_camera s) as (A1 & A2 & _). apply same; assumption.
  - rewrite Hg, andb_false_r. auto.
  - destruct (fallbackControlsReady s); [|auto].
    unfold btnGyroPermission_click. destruct granted.
    + split; [reflexivity|]. intros _ _. reflexivity.
    + apply same; reflexivity.
  - rewrite Hg. apply same; reflexivity.
  - destruct (fallbackControlsReady s); [|auto].
    unfold canvas_pointerdown. rewrite Hg. auto.
  - destruct (fallbackControlsReady s); [|auto].
    unfold canvas_pointermove. rewrite Hg. auto.
  - destruct (fallbackControlsReady s && useDeviceOrientation s);
      [apply same; reflexivity | auto].
  - destruct (commit_camera ByPlaceButton s) as [E1 E2]. apply same; [exact E1|].
    simpl in E2. rewrite E2. reflexivity.
  - destruct (commit_camera ByCanvasClick s) as [E1 E2]. apply same; [exact E1|].
    simpl in E2. rewrite E2. reflexivity.
  - apply same; reflexivity.
  - apply same; reflexivity.
  - apply same; unfold distanceSlider_input;
      destruct (pipeGroup s), (placedPosition s); reflexivity.
  - apply same; reflexivity.
  - destruct (autoPlace_camera s) as [E1 E2].
    apply same; unfold setAR3DModel;
      (destruct (pipePlaced s); [destruct (pipeGroup s)|]); try reflexivity;
      try exact E1; rewrite E2; reflexivity.
  - destruct (autoPlace_camera s) as [E1 E2].
    destruct (loadARPipeData_cases first s) as [-> | ->];
      [apply same; reflexivity|].
    apply same;
      (destruct (pipePlaced s); [destruct (pipeGroup s)|]); try reflexivity;
      try exact E1; rewrite E2; reflexivity.
Qed.

(** Once the gyroscope drives the camera it keeps doing so, whatever happens
    next; the pointer rig is out: a pointer-down or pointer-move changes no
    state; and a frame of the fallback loop gives the camera the rotation of
    the last orientation sample without moving it. *)
Theorem gyro_mode_exclusive (es : list Event) (s : App) :
  useDeviceOrientation s = true ->
  useDeviceOrientation (run es s) = true
  /\ step PointerDown s = s
  /\ (forall beyond p q, step (PointerMove beyond p q) s = s)
  /\ (fallbackAnimateRunning s = true ->
      cam_quaternion (camera (step Animate s)) = deviceOrientation s
      /\ cam_position (camera (step Animate s)) = cam_position (camera s)).
Proof.
  intros Hg. split.
  - revert s Hg. induction es as [|e es IH]; intros s Hg; simpl; [exact Hg|].
    apply IH. apply step_gyro, Hg.
  - split; [|split].
    + cbn [step]. unfold canvas_pointerdown. rewrite Hg.
      destruct (fallbackControlsReady s); reflexivity.
    + intros beyond p q. cbn [step]. unfold canvas_pointermove. rewrite Hg.
      destruct (fallbackControlsReady s); reflexivity.
    + intros Ha. cbn [step]. rewrite Ha.
      destruct (animate_camera s) as (_ & A2 & A3). rewrite Hg in A3. auto.
Qed.

Lemma gyro_mode_exclusive_witness :
  let es := [OrientationSample lookingUp; PointerDown;
             PointerMove true (vec3 3 3 3) lookAtDefault; Animate; ResetButton] in
  useDeviceOrientation (run es gyroStarted) = true
  /\ step PointerDown gyroStarted = gyroStarted
  /\ (forall beyond p q, step (PointerMove beyond p q) gyroStarted = gyroStarted)
  /\ (fallbackAnimateRunning gyroStarted = true ->
      cam_quaternion (camera (step Animate gyroStarted)) = deviceOrientation gyroStarted
      /\ cam_position (camera (step Animate gyroStarted))
         = cam_position (camera gyroStarted)).
Proof.
  apply (gyro_mode_exclusive _ gyroStarted). vm_compute. reflexivity.
Defined.

(** From the activation of the gyroscope on, and as long as no tracked
    session moves the camera with the viewer, the camera stays at eye height,
    (0, 1.6, 0): the device turns the view, nothing moves it. *)
Theorem gyro_keeps_eye_height (es : list Event) (s : App) :
  fallbackControlsReady s = true -> useDeviceOrientation s = false ->
  existsb isViewerPose es = false ->
  let s' := run es (step FirstOrientation s) in
  useDeviceOrientation s' = true /\ cam_position (camera s') = eyeHeight.
Proof.
  intros Hc Hg Hes. cbn [step]. rewrite Hc, Hg. cbn [negb andb].
  assert (A1 : useDeviceOrientation (activateDeviceOrientation s) = true) by reflexivity.
  assert (A2 : cam_position (camera (activateDeviceOrientation s)) = eyeHeight)
    by reflexivity.
  set (t := activateDeviceOrientation s) in *. clearbody t.
  cbv zeta. revert t A1 A2 Hes.
  induction es as [|e es IH]; intros t A1 A2 Hes; simpl in *; [auto|].
  apply orb_false_iff in Hes. destruct Hes as [He Hes].
  destruct (step_gyro e t A1) as [B1 B2].
  apply IH; auto.
Qed.

Lemma gyro_keeps_eye_height_witness :
  let es := [OrientationSample lookingUp; Animate; CanvasClick; ResetButton;
             XREnd demoStart; StartFallback demoStart; PinchFov 40] in
  let s' := run es (step FirstOrientation fallbackStarted) in
  useDeviceOrientation s' = true /\ cam_position (camera s') = eyeHeight.
Proof.
  apply (gyro_keeps_eye_height _ fallbackStarted); vm_compute; reflexivity.
Defined.

(** ** Who asks the platform for what *)

Lemma startFallbackMode_requests (i : FallbackStart) (s : App) :
  requests (startFallbackMode i s) = requests s
  \/ requests (startFallbackMode i s) = CameraStreamRequest :: requests s.
Proof.
  unfold startFallbackMode.
  destruct (fallbackMode s && fallbackAnimateRunning s); [left; reflexivity|].
  cbv zeta.
  set (s1 := set_fallbackMode true s).
  set (s2 := startCameraBackground (stream i) s1).
  set (s3 := set_camera _ s2).
  set (s4 := set_fallbackReticle (Some createFallbackReticle) s3).
  set (s5 := if fallbackControlsReady s4 then s4 else _).
  set (s6 := if fallbackAnimateRunning s5 then s5 else _).
  assert (H5 : requests s5 = requests s2).
  { subst s5. unfold setupFallbackControls.
    destruct (fallbackControlsReady s4); [reflexivity|].
    destruct (useDeviceOrientation s4); reflexivity. }
  assert (H6 : requests s6 = requests s2).
  { subst s6. destruct (fallbackAnimateRunning s5); [exact H5|].
    destruct (animate_sameRequests (set_fallbackAnimateRunning true s5)) as [_ E].
    rewrite E. exact H5. }
  assert (H : requests (if pipePlaced s6
                        then set_fallbackReticle
                               (option_map
                                  (fun r => mkFallbackReticle (fr_position r) false
                                              (fr_labelVisible r))
                                  (fallbackReticle s6)) s6
                        else s6) = requests s2).
  { destruct (pipePlaced s6); exact H6. }
  rewrite H. subst s2. unfold startCameraBackground.
  destruct (cameraVideo s1); [left; reflexivity|].
  destruct (stream i); right; reflexivity.
Qed.

Lemma commit_requests (c : Commit) (s : App) :
  requests (commitPlacement c s) = requests s.
Proof. apply commit_sameRequests. Qed.

(** An event leaves the request log alone or adds the one request it can
    issue. *)
Lemma step_requests_shape (e : Event) (s : App) :
  (requests (step e s) = requests s /\ isStartAR e = false)
  \/ exists r, issues r e = true /\ requests (step e s) = r :: requests s.
Proof.
  destruct e; cbn [step].
  - right. exists TrackedSessionRequest. split; [reflexivity|].
    unfold startARSession. destruct o; reflexivity.
  - destruct (startFallbackMode_requests i s) as [E|E].
    + left. split; [exact E | reflexivity].
    + right. exists CameraStreamRequest. split; [reflexivity | exact E].
  - left. split; [|reflexivity]. destruct (xrLoop s); [|reflexivity].
    unfold onXRFrame. destruct frame as [hits|]; [|reflexivity].
    destruct (hitTestSource s && negb (pipePlaced s)); [|reflexivity].
    destruct hits as [|[pose|] rest]; reflexivity.
  - left. split; [|reflexivity]. destruct (xrLoop s); reflexivity.
  - left. split; [|reflexivity]. destruct (xrSession s); [|reflexivity].
    apply (commit_requests BySelect).
  - destruct (xrSession s); [|left; split; reflexivity].
    unfold xrSession_end. cbv zeta.
    set (t := set_xrLoop false _).
    destruct (negb (fallbackMode t)); [|left; split; reflexivity].
    destruct (startFallbackMode_requests i t) as [E|E].
    + left. split; [exact E | reflexivity].
    + right. exists CameraStreamRequest. split; [reflexivity | exact E].
  - left. split; [|reflexivity]. destruct (fallbackAnimateRunning s); [|reflexivity].
    apply animate_sameRequests.
  - left. split; [|reflexivity].
    destruct (fallbackControlsReady s && negb (useDeviceOrientation s)); reflexivity.
  - destruct (fallbackControlsReady s); [|left; split; reflexivity].
    right. exists OrientationPermissionRequest. split; [reflexivity|].
    unfold btnGyroPermission_click. destruct granted; reflexivity.
  - left. split; [|reflexivity]. destruct (useDeviceOrientation s); reflexivity.
  - left. split; [|reflexivity]. destruct (fallbackControlsReady s); [|reflexivity].
    unfold canvas_pointerdown. destruct (useDeviceOrientation s); reflexivity.
  - left. split; [|reflexivity]. destruct (fallbackControlsReady s); [|reflexivity].
    unfold canvas_pointermove. destruct (useDeviceOrientation s); [reflexivity|].
    destruct beyond; reflexivity.
  - left. split; [|reflexivity].
    destruct (fallbackControlsReady s && useDeviceOrientation s); reflexivity.
  - left. split; [apply (commit_requests ByPlaceButton) | reflexivity].
  - left. split; [apply (commit_requests ByCanvasClick) | reflexivity].
  - left. split; reflexivity.
  - left. split; reflexivity.
  - left. split; [|reflexivity]. unfold distanceSlider_input.
    destruct (pipeGroup s), (placedPosition s); reflexivity.
  - left. split; reflexivity.
  - left. split; [|reflexivity]. unfold setAR3DModel, autoPlaceAtDefaultPosition.
    branch; reflexivity.
  - left. split; [|reflexivity].
    destruct (loadARPipeData_cases first s) as [-> | ->]; [reflexivity|].
    unfold autoPlaceAtDefaultPosition.
    branch; reflexivity.
Qed.

Lemma issues_unique (r r' : Request) (e : Event) :
  issues r e = true -> issues r' e = true -> r = r'.
Proof. destruct r, r', e; simpl; congruence. Qed.

Lemma Request_eqb_eq (r r' : Request) : Request_eqb r r' = true <-> r = r'.
Proof. destruct r, r'; simpl; split; congruence. Qed.

Lemma step_requests (r : Request) (e : Event) (s : App) :
  (requested r (step e s) <= requested r s + (if issues r e then 1 else 0))%nat
  /\ (r = TrackedSessionRequest ->
      requested r (step e s) = requested r s + (if issues r e then 1 else 0))%nat.
Proof.
  destruct (step_requests_shape e s) as [[E Hs] | (r0 & Hi & E)];
    unfold requested; rewrite E.
  - split; [lia|]. intros ->. destruct e; try discriminate Hs; simpl; lia.
  - simpl. destruct (Request_eqb r r0) eqn:Er.
    + apply Request_eqb_eq in Er. subst r0. rewrite Hi. simpl. split; lia.
    + destruct (issues r e) eqn:Hr.
      * rewrite (issues_unique r r0 e Hr Hi) in Er.
        destruct r0; discriminate Er.
      * split; lia.
Qed.

(** Requests are accounted for by the events that may issue them: over any
    sequence of events the platform is asked for a tracked session exactly
    once per press of the start button, for the orientation permission at
    most once per press of the gyroscope button, and for the camera at most
    once per fallback start or hand-off.  Commits, resets, frames, sliders
    and loads ask for nothing. *)
Theorem requests_accounted (r : Request) (es : list Event) (s : App) :
  (requested r (run es s) <= requested r s + length (filter (issues r) es))%nat
  /\ requested TrackedSessionRequest (run es s)
     = (requested TrackedSessionRequest s + length (filter isStartAR es))%nat.
Proof.
  revert s. induction es as [|e es IH]; intros s; simpl.
  - split; lia.
  - destruct (IH (step e s)) as [H1 H2].
    destruct (step_requests r e s) as [S1 _].
    destruct (step_requests TrackedSessionRequest e s) as [_ S2].
    specialize (S2 eq_refl).
    split.
    + destruct (issues r e); simpl; lia.
    + rewrite H2, S2.
      assert (E : issues TrackedSessionRequest e = isStartAR e) by (destruct e; reflexivity).
      rewrite E. destruct (isStartAR e); simpl; lia.
Qed.

(** ** The excavation manager *)

Lemma Math_round_bounds (x : Q) :
  (x - (1 # 2) < Math_round x /\ Math_round x <= x + (1 # 2))%Q.
Proof.
  unfold Math_round. split.
  - pose proof (Qlt_floor (x + (1 # 2))) as H.
    rewrite inject_Z_plus in H. change (inject_Z 1) with 1%Q in H. Lqa.lra.
  - apply Qfloor_le.
Qed.

Lemma orDefault_nonzero (x d : Q) :
  ~ (x == 0)%Q -> ExcavationManager.orDefault (Some x) d = x.
Proof.
  intro H. unfold ExcavationManager.orDefault.
  destruct (Qeq_bool x 0) eqn:E; [|reflexivity].
  apply Qeq_bool_iff in E. contradiction.
Qed.

Lemma orDefault_never_zero (v : option Q) (d : Q) :
  ~ (d == 0)%Q -> ~ (ExcavationManager.orDefault v d == 0)%Q.
Proof.
  intro Hd. unfold ExcavationManager.orDefault.
  destruct v as [x|]; [|exact Hd].
  destruct (Qeq_bool x 0) eqn:E; [exact Hd|].
  intro H. apply Qeq_bool_iff in H. congruence.
Qed.

(** [create] on the one-length form: for a length above 1 mm the two
    halves add up to it, the front half is the rounded half and exceeds the
    back half by at most 1 mm (and falls short of it by less), the caller's
    object now carries both halves, and a second [create] on that object gives
    the same parameters. *)
Theorem create_splits_legacy_length
  (a : ExcavationManager.Arg) (m : ExcavationManager.t) (L : Q) :
  ExcavationManager.arg_length a = Some L ->
  ExcavationManager.arg_lengthFront a = None ->
  (1 < L)%Q ->
  let a' := fst (ExcavationManager.create a m) in
  let m' := snd (ExcavationManager.create a m) in
  let p := ExcavationManager.params m' in
  (ExcavationManager.getTotalLength m' == L)%Q
  /\ ExcavationManager.lengthFront p = Math_round (L / 2)
  /\ (- (1) < ExcavationManager.lengthFront p - ExcavationManager.lengthBack p)%Q
  /\ (ExcavationManager.lengthFront p - ExcavationManager.lengthBack p <= 1)%Q
  /\ ExcavationManager.arg_lengthFront a' = Some (ExcavationManager.lengthFront p)
  /\ ExcavationManager.arg_lengthBack a' = Some (ExcavationManager.lengthBack p)
  /\ ExcavationManager.params (snd (ExcavationManager.create a' m')) = p.
Proof.
  intros HL HF Hlt a' m' p.
  destruct (Math_round_bounds (L / 2)) as [B1 B2].
  assert (Eh : (L / 2 == L * (1 # 2))%Q) by field.
  assert (Nf : ~ (Math_round (L / 2) == 0)%Q) by (intro E; Lqa.lra).
  assert (Nb : ~ (L - Math_round (L / 2) == 0)%Q) by (intro E; Lqa.lra).
  assert (Ef : ExcavationManager.lengthFront p = Math_round (L / 2)).
  { subst p m'. unfold ExcavationManager.create. rewrite HL, HF. cbn.
    apply orDefault_nonzero, Nf. }
  assert (Eb : ExcavationManager.lengthBack p = (L - Math_round (L / 2))%Q).
  { subst p m'. unfold ExcavationManager.create. rewrite HL, HF. cbn.
    apply orDefault_nonzero, Nb. }
  assert (Af : ExcavationManager.arg_lengthFront a' = Some (Math_round (L / 2))).
  { subst a'. unfold ExcavationManager.create. rewrite HL, HF. reflexivity. }
  assert (Ab : ExcavationManager.arg_lengthBack a'
               = Some (L - Math_round (L / 2))%Q).
  { subst a'. unfold ExcavationManager.create. rewrite HL, HF. reflexivity. }
  unfold ExcavationManager.getTotalLength. fold p. rewrite Ef, Eb.
  repeat split; try Lqa.lra; try assumption.
  subst p m' a'. unfold ExcavationManager.create. rewrite HL, HF. reflexivity.
Qed.

Lemma create_splits_legacy_length_witness :
  let m := snd (ExcavationManager.create SAMPLE_PIPE_DATA_excavation
                  ExcavationManager.initial) in
  (ExcavationManager.getTotalLength m == 6000)%Q
  /\ ExcavationManager.lengthFront (ExcavationManager.params m) = Math_round (6000 / 2).
Proof.
  pose proof (create_splits_legacy_length SAMPLE_PIPE_DATA_excavation
                ExcavationManager.initial 6000 eq_refl eq_refl) as H.
  cbv zeta in *. split; apply H; reflexivity.
Defined.

(** The hypothesis on the length is needed: a length of 1 mm is split into
    1 and 0, and the zero half is replaced by the default. *)
Lemma create_legacy_length_one (m : ExcavationManager.t) :
  (ExcavationManager.getTotalLength
     (snd (ExcavationManager.create
             (ExcavationManager.mkArg 800 1500 (Some 1) None None) m)) == 3001)%Q.
Proof. vm_compute. reflexivity. Qed.

(** The box [_buildMesh] draws, seen from the group's origin (the
    placement point): it reaches [lengthFront] towards -Z and [lengthBack]
    towards +Z, from the ground down to [depth], half the width to either
    side; the outline on the ground has the box's centre line and length, and
    the front and back labels sit over the middle of their parts. *)
Theorem built_box_spans_lengths (p : ExcavationManager.Params) :
  let g := ExcavationManager._buildMesh p in
  let size := ExcavationManager.mesh_size g in
  let c := ExcavationManager.mesh_position g in
  (Vector3.z c - Vector3.z size / 2 == - (ExcavationManager.lengthFront p / 1000)
   /\ Vector3.z c + Vector3.z size / 2 == ExcavationManager.lengthBack p / 1000
   /\ Vector3.y c + Vector3.y size / 2 == 0
   /\ Vector3.y c - Vector3.y size / 2 == - (ExcavationManager.depth p / 1000)
   /\ Vector3.x c - Vector3.x size / 2 == - (ExcavationManager.width p / 1000) / 2
   /\ Vector3.x c + Vector3.x size / 2 == (ExcavationManager.width p / 1000) / 2
   /\ Vector3.z (ExcavationManager.topLine_position g) == Vector3.z c
   /\ snd (ExcavationManager.topLine_size g) == Vector3.z size
   /\ Vector3.z (ExcavationManager.frontLabel g)
      == (- (ExcavationManager.lengthFront p / 1000) + 0) / 2
   /\ Vector3.z (ExcavationManager.backLabel g)
      == (0 + ExcavationManager.lengthBack p / 1000) / 2)%Q.
Proof.
  destruct p as [w d lf lb]. cbn.
  repeat split; field.
Qed.

Lemma call_builtFromParams (k : ExcavationManager.Call) (m : ExcavationManager.t) :
  builtFromParams m -> builtFromParams (ExcavationManager.call k m).
Proof.
  intros H g. destruct k as [a|c]; cbn.
  - intros [= <-]. reflexivity.
  - destruct (ExcavationManager.group m); [|discriminate].
    intros [= <-]. reflexivity.
Qed.

Lemma calls_builtFromParams (ks : list ExcavationManager.Call) (m : ExcavationManager.t) :
  builtFromParams m -> builtFromParams (ExcavationManager.calls ks m).
Proof.
  revert m. induction ks as [|k ks IH]; intros m H; [exact H|].
  apply IH, call_builtFromParams, H.
Qed.

Lemma initial_builtFromParams : builtFromParams ExcavationManager.initial.
Proof. intros g. discriminate. Qed.

(** Whatever calls the manager has served, the volume its label shows,
    the volume [getVolume] reports and the volume of the box in the scene are
    one number: width, depth and total length in metres, multiplied. *)
Theorem volume_label_matches_box
  (ks : list ExcavationManager.Call) (g : ExcavationManager.Group) :
  let m := ExcavationManager.calls ks ExcavationManager.initial in
  ExcavationManager.group m = Some g ->
  (ExcavationManager.vol g == ExcavationManager.getVolume m
   /\ ExcavationManager.getVolume m
      == Vector3.x (ExcavationManager.mesh_size g)
         * Vector3.y (ExcavationManager.mesh_size g)
         * Vector3.z (ExcavationManager.mesh_size g)
   /\ Vector3.z (ExcavationManager.mesh_size g)
      == ExcavationManager.getTotalLength m / 1000)%Q.
Proof.
  intros m Hg.
  rewrite (calls_builtFromParams ks _ initial_builtFromParams g Hg).
  fold m. unfold ExcavationManager.getVolume, ExcavationManager.getTotalLength.
  destruct (ExcavationManager.params m) as [w d lf lb]. cbn.
  repeat split; try reflexivity; field.
Qed.

Lemma volume_label_matches_box_witness :
  let ks := [ExcavationManager.Create SAMPLE_PIPE_DATA_excavation;
             ExcavationManager.Update
               (ExcavationManager.mkChanges (Some 1000) None None None)] in
  let m := ExcavationManager.calls ks ExcavationManager.initial in
  let g := ExcavationManager._buildMesh (ExcavationManager.mkParams 1000 1500 3000 3000) in
  ExcavationManager.group m = Some g
  /\ (ExcavationManager.vol g == ExcavationManager.getVolume m
      /\ ExcavationManager.getVolume m
         == Vector3.x (ExcavationManager.mesh_size g)
            * Vector3.y (ExcavationManager.mesh_size g)
            * Vector3.z (ExcavationManager.mesh_size g)
      /\ Vector3.z (ExcavationManager.mesh_size g)
         == ExcavationManager.getTotalLength m / 1000)%Q.
Proof.
  cbv zeta.
  assert (Hg : ExcavationManager.group
                 (ExcavationManager.calls
                    [ExcavationManager.Create SAMPLE_PIPE_DATA_excavation;
                     ExcavationManager.Update
                       (ExcavationManager.mkChanges (Some 1000) None None None)]
                    ExcavationManager.initial)
               = Some (ExcavationManager._buildMesh
                         (ExcavationManager.mkParams 1000 1500 3000 3000)))
    by (vm_compute; reflexivity).
  split; [exact Hg|].
  exact (volume_label_matches_box _ _ Hg).
Defined.

(** ** The excavation sliders and the commit *)

Lemma set_excavationGroup_same (s : App) :
  set_excavationGroup (excavationGroup s) s = s.
Proof. destruct s. reflexivity. Qed.

Lemma create_lengths_nonzero (a : ExcavationManager.Arg) (m : ExcavationManager.t) :
  let p := ExcavationManager.params (snd (ExcavationManager.create a m)) in
  ~ (ExcavationManager.lengthFront p == 0)%Q
  /\ ~ (ExcavationManager.lengthBack p == 0)%Q.
Proof.
  cbn. split; apply orDefault_never_zero; intro H; discriminate H.
Qed.

Lemma create_group (a : ExcavationManager.Arg) (m : ExcavationManager.t) :
  let m' := snd (ExcavationManager.create a m) in
  ExcavationManager.group m'
  = Some (ExcavationManager._buildMesh (ExcavationManager.params m')).
Proof. reflexivity. Qed.

Lemma create_getParams (m m0 : ExcavationManager.t) :
  ~ (ExcavationManager.lengthFront (ExcavationManager.params m) == 0)%Q ->
  ~ (ExcavationManager.lengthBack (ExcavationManager.params m) == 0)%Q ->
  ExcavationManager.params
    (snd (ExcavationManager.create (ExcavationManager.getParams m) m0))
  = ExcavationManager.params m.
Proof.
  intros Hf Hb. destruct m as [[w d lf lb] g].
  cbn -[ExcavationManager.orDefault] in *.
  rewrite (orDefault_nonzero lf 3000 Hf), (orDefault_nonzero lb 3000 Hb).
  reflexivity.
Qed.

(** A move of an excavation slider is invisible to the script: in a reachable
    state it leaves every variable of the script as it is (the volume keeps
    its position, its yaw and its visibility, nothing is placed or removed)
    and the sample untouched.  Where no volume stands the manager merges
    the new values and creates no group; where one stands the manager ends with both lengths
    non-zero (a zero from the slider has become the default 3000) and with a
    group built from its parameters. *)
Theorem excavation_slider_keeps_scene (c : ExcavationManager.Changes) (w : World) :
  reachable (app w) ->
  let w' := rebuildExcavation c w in
  app w' = app w
  /\ sampleExcavation w' = sampleExcavation w
  /\ (excavationGroup (app w) = None ->
      ExcavationManager.params (manager w')
      = ExcavationManager.assign (ExcavationManager.params (manager w)) c
      /\ (ExcavationManager.group (manager w) = None ->
          ExcavationManager.group (manager w') = None))
  /\ (excavationGroup (app w) <> None ->
      ~ (ExcavationManager.lengthFront (ExcavationManager.params (manager w')) == 0)%Q
      /\ ~ (ExcavationManager.lengthBack (ExcavationManager.params (manager w')) == 0)%Q
      /\ ExcavationManager.group (manager w')
         = Some (ExcavationManager._buildMesh (ExcavationManager.params (manager w')))).
Proof.
  intros Hr. cbv zeta.
  destruct (reachable_excavationInv _ Hr) as [_ Hinv].
  unfold rebuildExcavation.
  destruct (excavationGroup (app w)) as [e|] eqn:Ee.
  - destruct (pipeGroup (app w)) as [g|]; [|contradiction].
    destruct Hinv as (_ & _ & Hv).
    cbn [app manager sampleExcavation]. unfold Vector3.clone.
    split; [|split; [reflexivity|split]].
    + rewrite <- Hv.
      replace (mkObject3D (position e) (rotation_y e) (visible e)) with e
        by (destruct e; reflexivity).
      rewrite <- Ee. apply set_excavationGroup_same.
    + intro H. discriminate H.
    + intros _. split; [|split].
      * apply create_lengths_nonzero.
      * apply create_lengths_nonzero.
      * reflexivity.
  - cbn [app manager sampleExcavation].
    split; [reflexivity|split; [reflexivity|split]].
    + intros _. unfold ExcavationManager.update. cbn.
      split; [reflexivity|]. intros ->. reflexivity.
    + intro H. contradiction.
Qed.

Lemma excavation_slider_keeps_scene_witness :
  let w := mkWorld trackedPlaced
             (snd (ExcavationManager.create SAMPLE_PIPE_DATA_excavation
                     ExcavationManager.initial))
             (fst (ExcavationManager.create SAMPLE_PIPE_DATA_excavation
                     ExcavationManager.initial)) in
  let w' := rebuildExcavation
              (ExcavationManager.mkChanges None None (Some 0) None) w in
  app w' = app w
  /\ ExcavationManager.lengthFront (ExcavationManager.params (manager w')) = 3000.
Proof.
  cbv zeta. split.
  - apply (excavation_slider_keeps_scene
             (ExcavationManager.mkChanges None None (Some 0) None)
             (mkWorld trackedPlaced
                (snd (ExcavationManager.create SAMPLE_PIPE_DATA_excavation
                        ExcavationManager.initial))
                (fst (ExcavationManager.create SAMPLE_PIPE_DATA_excavation
                        ExcavationManager.initial)))).
    apply (reachable_trace trackedPlacedTrace).
  - vm_compute. reflexivity.
Defined.

Lemma sampleAsKept_create (a : ExcavationManager.Arg) (m : ExcavationManager.t) :
  sampleAsKept a ->
  sampleAsKept (fst (ExcavationManager.create a m))
  /\ ExcavationManager.params (snd (ExcavationManager.create a m))
     = ExcavationManager.mkParams 800 1500 3000 3000.
Proof.
  intros [-> | ->]; (split; [right; vm_compute; reflexivity | vm_compute; reflexivity]).
Qed.

(** Every commit takes the excavation parameters from the sample again: after
    [placePipe] the manager holds 800 x 1500 mm and 3000 mm to the front and
    to the back, whatever the sliders had set before, and the sample stays in
    the form the first [create] gave it.  The script's own state is that of
    [placePipe]. *)
Theorem commit_discards_slider_values (pos : Vec3) (w : World) :
  sampleAsKept (sampleExcavation w) ->
  let w' := placePipe_world pos w in
  ExcavationManager.params (manager w') = ExcavationManager.mkParams 800 1500 3000 3000
  /\ ExcavationManager.params (manager w')
     = ExcavationManager.params ExcavationManager.initial
  /\ sampleAsKept (sampleExcavation w')
  /\ app w' = placePipe pos (app w).
Proof.
  intros Hs. cbv zeta. unfold placePipe_world.
  destruct (sampleAsKept_create _ (manager w) Hs) as [H1 H2].
  destruct (ExcavationManager.create (sampleExcavation w) (manager w)) as [a m].
  cbn [app manager sampleExcavation fst snd] in *.
  repeat split; assumption.
Qed.

Lemma commit_discards_slider_values_witness :
  ExcavationManager.width (ExcavationManager.params (manager widenedThenReset)) = 1000
  /\ ExcavationManager.params
       (manager (placePipe_world (vec3 0 0 (-3)) widenedThenReset))
     = ExcavationManager.mkParams 800 1500 3000 3000.
Proof.
  split; [vm_compute; reflexivity|].
  apply (commit_discards_slider_values (vec3 0 0 (-3)) widenedThenReset).
  right. vm_compute. reflexivity.
Defined.

Lemma autoPlace_world_app (w : World) :
  app (autoPlaceAtDefaultPosition_world w) = autoPlaceAtDefaultPosition (app w).
Proof.
  unfold autoPlaceAtDefaultPosition_world, autoPlaceAtDefaultPosition.
  destruct (pipePlaced (app w)); [reflexivity|].
  destruct (fallbackReticle (app w)); unfold placePipe_world;
    destruct (ExcavationManager.create (sampleExcavation w) (manager w));
    reflexivity.
Qed.

(** Replacing the model of a placed asset keeps the excavation parameters the
    sliders have set (both lengths being non-zero), unlike a commit; the
    script's own state is that of [setAR3DModel], and the sample is not
    touched. *)
Theorem model_reload_keeps_slider_values (w : World) (g : Object3D) :
  pipePlaced (app w) = true ->
  pipeGroup (app w) = Some g ->
  ~ (ExcavationManager.lengthFront (ExcavationManager.params (manager w)) == 0)%Q ->
  ~ (ExcavationManager.lengthBack (ExcavationManager.params (manager w)) == 0)%Q ->
  let w' := setAR3DModel_world w in
  ExcavationManager.params (manager w') = ExcavationManager.params (manager w)
  /\ ExcavationManager.group (manager w')
     = Some (ExcavationManager._buildMesh (ExcavationManager.params (manager w)))
  /\ sampleExcavation w' = sampleExcavation w
  /\ app w' = setAR3DModel (app w).
Proof.
  intros Hp Hg Hf Hb. cbv zeta. unfold setAR3DModel_world. rewrite Hp, Hg.
  cbn [app manager sampleExcavation].
  pose proof (create_getParams (manager w) (manager w) Hf Hb) as E.
  repeat split; try exact E.
  rewrite create_group. cbv zeta. rewrite E. reflexivity.
Qed.

Lemma model_reload_keeps_slider_values_witness :
  let w := rebuildExcavation
             (ExcavationManager.mkChanges (Some 1000) None None None)
             (placePipe_world (vec3 0 0 (-3))
                (mkWorld initial ExcavationManager.initial
                   SAMPLE_PIPE_DATA_excavation)) in
  ExcavationManager.params (manager (setAR3DModel_world w))
  = ExcavationManager.mkParams 1000 1500 3000 3000.
Proof.
  cbv zeta.
  etransitivity.
  - eapply (model_reload_keeps_slider_values
              (rebuildExcavation
                 (ExcavationManager.mkChanges (Some 1000) None None None)
                 (placePipe_world (vec3 0 0 (-3))
                    (mkWorld initial ExcavationManager.initial
                       SAMPLE_PIPE_DATA_excavation)))).
    + vm_compute. reflexivity.
    + vm_compute. reflexivity.
    + vm_compute. discriminate.
    + vm_compute. discriminate.
  - vm_compute. reflexivity.
Defined.

(** ** The dependency check and the automatic reload *)

Lemma init_check_reloads (g : Globals) (retry : bool) :
  reloads (init_check g retry) = true ->
  ar_cdn_retry (init_check g retry) = true /\ proceeds (init_check g retry) = false.
Proof.
  unfold init_check, checkDependencies.
  destruct (THREE g), (0 <? length (missing g))%nat, retry; simpl;
    intro H; try discriminate H; split; reflexivity.
Qed.

Lemma init_check_after_reload (g : Globals) :
  reloads (init_check g true) = false
  /\ proceeds (init_check g true) = THREE g.
Proof.
  unfold init_check, checkDependencies.
  destruct (THREE g), (0 <? length (missing g))%nat; split; reflexivity.
Qed.

(** The automatic reload is tried once: in any succession of loads of the
    page in one tab, whatever each load gets from the CDN, the load that
    follows an automatic reload never arms the reload again, and it goes on
    with [init] whenever Three.js itself is there, even with loaders
    missing.  A load that arms the reload stops [init]. *)
Theorem reload_never_twice_in_a_row
  (gs : list Globals) (retry : bool) (n : nat) (c1 c2 : Checked) (g2 : Globals) :
  nth_error (pageLoads gs retry) n = Some c1 ->
  nth_error (pageLoads gs retry) (S n) = Some c2 ->
  nth_error gs (S n) = Some g2 ->
  reloads c1 = true ->
  proceeds c1 = false /\ reloads c2 = false /\ proceeds c2 = THREE g2.
Proof.
  revert gs retry. induction n as [|n IH]; intros gs retry H1 H2 Hg Hr.
  - destruct gs as [|g gs]; [discriminate H1|].
    destruct gs as [|g' gs]; [discriminate H2|].
    simpl in H1, H2, Hg. injection H1 as <-. injection H2 as <-. injection Hg as <-.
    destruct (init_check_reloads g retry Hr) as [E1 E2].
    rewrite E1. destruct (init_check_after_reload g') as [E3 E4].
    repeat split; assumption.
  - destruct gs as [|g gs]; [discriminate H1|].
    exact (IH gs _ H1 H2 Hg Hr).
Qed.

Lemma reload_never_twice_in_a_row_witness :
  proceeds (mkChecked false true true) = false
  /\ reloads (mkChecked true false false) = false
  /\ proceeds (mkChecked true false false)
     = THREE (mkGlobals true true false true true).
Proof.
  apply (reload_never_twice_in_a_row
           [mkGlobals true true false true true;
            mkGlobals true true false true true] false 0);
    reflexivity.
Defined.

(** While a loader stays missing (Three.js itself being there), the loads of
    one tab alternate: starting without the retry mark, the loads numbered
    0, 2, 4, ... arm the automatic reload and stop, those numbered
    1, 3, 5, ... go on without the loader and clear the mark. *)
Theorem persistent_failure_alternates
  (gs : list Globals) (n : nat) (c : Checked) :
  Forall (fun g => THREE g = true /\ missing g <> []) gs ->
  nth_error (pageLoads gs false) n = Some c ->
  reloads c = Nat.even n /\ proceeds c = Nat.odd n /\ ar_cdn_retry c = Nat.even n.
Proof.
  intros Hall.
  assert (G : forall gs retry n c,
             Forall (fun g => THREE g = true /\ missing g <> []) gs ->
             nth_error (pageLoads gs retry) n = Some c ->
             reloads c = xorb retry (Nat.even n)
             /\ proceeds c = negb (xorb retry (Nat.even n))
             /\ ar_cdn_retry c = xorb retry (Nat.even n)).
  { clear. intros gs. induction gs as [|g gs IH]; intros retry n c Hall Hn.
    - destruct n; discriminate Hn.
    - inversion Hall as [|? ? [Ht Hm] Hrest]; subst.
      assert (Ec : init_check g retry = mkChecked retry (negb retry) (negb retry)).
      { unfold init_check, checkDependencies. rewrite Ht.
        destruct (missing g) as [|d l]; [contradiction|].
        destruct retry; reflexivity. }
      destruct n as [|n]; simpl in Hn.
      + injection Hn as <-. rewrite Ec. simpl. destruct retry; repeat split.
      + rewrite Ec in Hn. simpl in Hn.
        destruct (IH _ _ _ Hrest Hn) as (R1 & R2 & R3).
        rewrite R1, R2, R3. rewrite Nat.even_succ, <- Nat.negb_even.
        destruct retry, (Nat.even n); repeat split. }
  intro Hn. destruct (G gs false n c Hall Hn) as (R1 & R2 & R3).
  rewrite R1, R2, R3, <- Nat.negb_even. simpl. repeat split.
Qed.

Lemma persistent_failure_alternates_witness :
  reloads (mkChecked false true true) = Nat.even 2
  /\ proceeds (mkChecked false true true) = Nat.odd 2
  /\ ar_cdn_retry (mkChecked false true true) = Nat.even 2.
Proof.
  apply (persistent_failure_alternates
           [mkGlobals true true false true true;
            mkGlobals true true false true true;
            mkGlobals true true false true true] 2).
  - repeat constructor; discriminate.
  - reflexivity.
Defined.

(** ** The pointer rig *)

Lemma Math_clamp_range (lo hi x : Q) :
  (lo <= hi)%Q ->
  (lo <= Math_max lo (Math_min hi x) /\ Math_max lo (Math_min hi x) <= hi)%Q.
Proof.
  intro H. unfold Math_max, Math_min.
  destruct (Qltb x hi) eqn:E1.
  - apply Qltb_lt in E1.
    destruct (Qltb lo x) eqn:E2.
    + apply Qltb_lt in E2. split; Lqa.lra.
    + split; Lqa.lra.
  - apply Qltb_ge in E1.
    destruct (Qltb lo hi) eqn:E2.
    + split; Lqa.lra.
    + split; Lqa.lra.
Qed.

Lemma clampQuotient_range (lo hi x y : Q) :
  (lo <= hi)%Q ->
  (lo <= Rig.clampQuotient lo hi x y /\ Rig.clampQuotient lo hi x y <= hi)%Q.
Proof.
  intro H. unfold Rig.clampQuotient.
  destruct (Qeq_bool y 0).
  - unfold Math_max. destruct (Qltb lo hi); split; Lqa.lra.
  - apply Math_clamp_range, H.
Qed.

Lemma canvas_pointermove_fov (b : bool) (p : Vec3) (r : Rotation) (s : App) :
  fov (camera (canvas_pointermove b p r s)) = fov (camera s).
Proof.
  unfold canvas_pointermove.
  destruct (useDeviceOrientation s); [reflexivity|]. destruct b; reflexivity.
Qed.

Lemma canvas_pointerdown_fov (s : App) :
  fov (camera (canvas_pointerdown s)) = fov (camera s).
Proof.
  unfold canvas_pointerdown. destruct (useDeviceOrientation s); reflexivity.
Qed.

Section RigProperties.

Variables sin cos : Q -> Q.

Lemma deliverAll_cons (i : Rig.Input) (inputs : list Rig.Input) (st : Rig.t * App) :
  Rig.deliverAll sin cos (i :: inputs) st
  = Rig.deliverAll sin cos inputs (Rig.deliver sin cos i st).
Proof. reflexivity. Qed.

Lemma deliver_inRange (i : Rig.Input) (st : Rig.t * App) :
  rigInRange st -> rigInRange (Rig.deliver sin cos i st).
Proof.
  destruct st as [g s]. unfold rigInRange. cbn [fst snd].
  intros (HV & HD & HF).
  assert (CV : forall x, (0.1 <= Math_max 0.1 (Math_min 1.4 x)
                          /\ Math_max 0.1 (Math_min 1.4 x) <= 1.4)%Q).
  { intro x. apply Math_clamp_range. Lqa.lra. }
  assert (CD : forall x, (0.5 <= Math_max 0.5 (Math_min 30 x)
                          /\ Math_max 0.5 (Math_min 30 x) <= 30)%Q).
  { intro x. apply Math_clamp_range. Lqa.lra. }
  assert (QD : forall x y, (0.5 <= Rig.clampQuotient 0.5 30 x y
                            /\ Rig.clampQuotient 0.5 30 x y <= 30)%Q).
  { intros x y. apply clampQuotient_range. Lqa.lra. }
  assert (QF : forall x y, (20 <= Rig.clampQuotient 20 100 x y
                            /\ Rig.clampQuotient 20 100 x y <= 100)%Q).
  { intros x y. apply clampQuotient_range. Lqa.lra. }
  destruct i; cbn [Rig.deliver].
  - unfold Rig.pointerdown.
    destruct (useDeviceOrientation s); [cbn; auto|].
    destruct button2; cbn [fst snd Rig.cameraAngleV Rig.cameraDistance]; [auto|].
    rewrite canvas_pointerdown_fov. auto.
  - unfold Rig.pointermove.
    destruct (useDeviceOrientation s); [cbn; auto|].
    destruct (Rig.isPanning g); [cbn; auto|].
    destruct (negb (Rig.isDragging g)); [cbn; auto|].
    cbv zeta. cbn [fst snd Rig.cameraAngleV Rig.cameraDistance].
    rewrite canvas_pointermove_fov. auto.
  - cbn. auto.
  - unfold Rig.wheel.
    destruct (useDeviceOrientation s); [cbn; auto|].
    cbv zeta. cbn [fst snd Rig.cameraAngleV Rig.cameraDistance]. cbn. auto.
  - cbn. auto.
  - unfold Rig.touchmove.
    destruct (Qltb 0 (Rig.lastPinchDist g)); [|cbn; auto].
    cbv zeta.
    destruct (useDeviceOrientation s); cbn; auto.
  - cbn. auto.
Qed.

(** The pointer rig stays in its ranges: whatever the pointer, the wheel and
    the two fingers do, and in either mode, the elevation stays in
    [[0.1, 1.4]] rad, the distance in [[0.5, 30]] m and the field of view in
    [[20, 100]] degrees, a pinch to zero distance included. *)
Theorem rig_stays_in_range (inputs : list Rig.Input) (st : Rig.t * App) :
  rigInRange st -> rigInRange (Rig.deliverAll sin cos inputs st).
Proof.
  revert st. induction inputs as [|i inputs IH]; intros st H; [exact H|].
  apply IH, deliver_inRange, H.
Qed.

Lemma moves_wasDragged (x0 y0 : Q) (moves : list (Q * Q * Rotation))
  (g : Rig.t) (s : App) :
  Rig.isDragging g = true -> Rig.isPanning g = false ->
  Rig.startX g = x0 -> Rig.startY g = y0 ->
  useDeviceOrientation s = false ->
  wasDragged
    (snd (Rig.deliverAll sin cos
            (map (fun m => let '(x, y, r) := m in Rig.Move x y r) moves) (g, s)))
  = wasDragged s || existsb (beyondThreshold x0 y0) moves.
Proof.
  revert g s. induction moves as [|[[x y] r] moves IH]; intros g s Hd Hp Hx Hy Hu.
  - simpl. rewrite orb_false_r. reflexivity.
  - cbn [map]. rewrite deliverAll_cons. cbn [Rig.deliver].
    unfold Rig.pointermove. rewrite Hu, Hp, Hd. cbn [negb]. cbv zeta.
    rewrite IH.
    + cbn [existsb beyondThreshold]. rewrite Hx, Hy.
      unfold canvas_pointermove. rewrite Hu.
      destruct (Qltb Rig.DRAG_THRESHOLD (Qabs (x - x0))
                || Qltb Rig.DRAG_THRESHOLD (Qabs (y - y0))).
      * cbn. rewrite orb_true_r. reflexivity.
      * cbn. reflexivity.
    + reflexivity.
    + reflexivity.
    + exact Hx.
    + exact Hy.
    + unfold canvas_pointermove. rewrite Hu.
      destruct (Qltb _ _ || Qltb _ _); exact Hu.
Qed.

(** A drag marks [wasDragged] exactly when some position of the pointer lies
    more than 8 pixels from where the button went down, along X or along Y:
    the length of the path does not count, nor where the pointer ends. *)
Theorem drag_marks_beyond_threshold
  (x0 y0 : Q) (moves : list (Q * Q * Rotation)) (g : Rig.t) (s : App) :
  useDeviceOrientation s = false ->
  Rig.isPanning g = false ->
  wasDragged (snd (Rig.deliverAll sin cos (drag x0 y0 moves) (g, s)))
  = existsb (beyondThreshold x0 y0) moves.
Proof.
  intros Hu Hp. unfold drag.
  rewrite deliverAll_cons. cbn [Rig.deliver].
  unfold Rig.pointerdown. rewrite Hu.
  rewrite (moves_wasDragged x0 y0); try reflexivity; try assumption.
  - unfold canvas_pointerdown. rewrite Hu. reflexivity.
  - unfold canvas_pointerdown. rewrite Hu. exact Hu.
Qed.

Lemma pointer_event_ready (e : Event) (s : App) :
  isPointerEvent e = true ->
  fallbackControlsReady (step e s) = fallbackControlsReady s.
Proof.
  destruct e; try discriminate; intros _; cbn [step].
  - destruct (fallbackControlsReady s) eqn:E; [|exact E].
    unfold canvas_pointerdown. destruct (useDeviceOrientation s); [exact E|exact E].
  - destruct (fallbackControlsReady s) eqn:E; [|exact E].
    unfold canvas_pointermove. destruct (useDeviceOrientation s); [exact E|].
    destruct beyond; exact E.
  - destruct (fallbackControlsReady s && useDeviceOrientation s) eqn:E; reflexivity.
Qed.

Lemma deliver_refines (i : Rig.Input) (g : Rig.t) (s : App) :
  fallbackControlsReady s = true ->
  exists es, snd (Rig.deliver sin cos i (g, s)) = run es s
             /\ forallb isPointerEvent es = true
             /\ (length es <= 1)%nat.
Proof.
  intro Hr.
  assert (none : exists es, s = run es s
                            /\ forallb isPointerEvent es = true
                            /\ (length es <= 1)%nat).
  { exists []. repeat split. simpl. lia. }
  assert (one : forall e, isPointerEvent e = true ->
                          exists es, step e s = run es s
                                     /\ forallb isPointerEvent es = true
                                     /\ (length es <= 1)%nat).
  { intros e He. exists [e]. simpl. rewrite He. repeat split. lia. }
  destruct i; cbn [Rig.deliver].
  - unfold Rig.pointerdown.
    destruct (useDeviceOrientation s) eqn:Eu; [exact none|].
    destruct button2; [exact none|]. cbn [snd].
    destruct (one PointerDown eq_refl) as (es & E & H).
    exists es. split; [|exact H]. rewrite <- E. cbn [step]. rewrite Hr. reflexivity.
  - unfold Rig.pointermove.
    destruct (useDeviceOrientation s) eqn:Eu; [exact none|].
    destruct (Rig.isPanning g).
    + cbv zeta. cbn [snd].
      match goal with
      | |- exists es, set_camera (mkCamera ?p ?r _) _ = _ /\ _ =>
          destruct (one (PointerMove false p r) eq_refl) as (es & E & H)
      end.
      exists es. split; [|exact H]. rewrite <- E. cbn [step]. rewrite Hr.
      unfold canvas_pointermove. rewrite Eu. reflexivity.
    + destruct (negb (Rig.isDragging g)); [exact none|].
      cbv zeta. cbn [snd].
      match goal with
      | |- exists es, canvas_pointermove ?b ?p ?r _ = _ /\ _ =>
          destruct (one (PointerMove b p r) eq_refl) as (es & E & H)
      end.
      exists es. split; [|exact H]. rewrite <- E. cbn [step]. rewrite Hr.
      reflexivity.
  - exact none.
  - unfold Rig.wheel.
    destruct (useDeviceOrientation s) eqn:Eu; [exact none|].
    cbv zeta. cbn [snd].
    match goal with
    | |- exists es, set_camera (mkCamera ?p ?r _) _ = _ /\ _ =>
        destruct (one (PointerMove false p r) eq_refl) as (es & E & H)
    end.
    exists es. split; [|exact H]. rewrite <- E. cbn [step]. rewrite Hr.
    unfold canvas_pointermove. rewrite Eu. reflexivity.
  - exact none.
  - unfold Rig.touchmove.
    destruct (Qltb 0 (Rig.lastPinchDist g)); [|exact none].
    cbv zeta.
    destruct (useDeviceOrientation s) eqn:Eu; cbn [snd].
    + match goal with
      | |- exists es, set_camera (mkCamera _ _ ?f) _ = _ /\ _ =>
          destruct (one (PinchFov f) eq_refl) as (es & E & H)
      end.
      exists es. split; [|exact H]. rewrite <- E. cbn [step]. rewrite Hr, Eu.
      reflexivity.
    + match goal with
      | |- exists es, set_camera (mkCamera ?p ?r _) _ = _ /\ _ =>
          destruct (one (PointerMove false p r) eq_refl) as (es & E & H)
      end.
      exists es. split; [|exact H]. rewrite <- E. cbn [step]. rewrite Hr.
      unfold canvas_pointermove. rewrite Eu. reflexivity.
  - exact none.
Qed.

Lemma run_pointer_ready (es : list Event) (s : App) :
  forallb isPointerEvent es = true ->
  fallbackControlsReady (run es s) = fallbackControlsReady s.
Proof.
  revert s. induction es as [|e es IH]; intros s H; [reflexivity|].
  simpl in H. apply andb_true_iff in H as [He Hes].
  simpl. rewrite (IH _ Hes). apply pointer_event_ready, He.
Qed.

(** The listeners of the pointer rig do to the script what its pointer
    events do: once the controls are set up, the state after any input to the
    canvas is the state after a sequence of [PointerDown], [PointerMove] and
    [PinchFov] events, at most one for each input; so a reachable state stays
    reachable, and what holds of every reachable state holds under pointer
    input. *)
Theorem pointer_input_refines_events
  (inputs : list Rig.Input) (g : Rig.t) (s : App) :
  fallbackControlsReady s = true ->
  exists es,
    snd (Rig.deliverAll sin cos inputs (g, s)) = run es s
    /\ forallb isPointerEvent es = true
    /\ (length es <= length inputs)%nat
    /\ (reachable s -> reachable (snd (Rig.deliverAll sin cos inputs (g, s)))).
Proof.
  revert g s. induction inputs as [|i inputs IH]; intros g s Hr.
  - exists []. repeat split. simpl. lia. intro H. exact H.
  - destruct (deliver_refines i g s Hr) as (es1 & E1 & P1 & L1).
    rewrite deliverAll_cons.
    destruct (Rig.deliver sin cos i (g, s)) as [g1 s1] eqn:Ed.
    cbn [snd] in E1.
    assert (Hr1 : fallbackControlsReady s1 = true).
    { rewrite E1, (run_pointer_ready es1 s P1). exact Hr. }
    destruct (IH g1 s1 Hr1) as (es2 & E2 & P2 & L2 & _).
    exists (es1 ++ es2).
    assert (E : snd (Rig.deliverAll sin cos inputs (g1, s1)) = run (es1 ++ es2) s).
    { rewrite run_app, <- E1. exact E2. }
    split; [exact E|]. split.
    + rewrite forallb_app, P1, P2. reflexivity.
    + split.
      * rewrite length_app. simpl. lia.
      * intro H. rewrite E. apply reachable_run, H.
Qed.

End RigProperties.

Lemma rig_stays_in_range_witness :
  rigInRange (Rig.initial, initial)
  /\ rigInRange
       (Rig.deliverAll (fun a => a) (fun _ => 1)
          [Rig.TouchStart 100; Rig.TouchMove 0 lookAtDefault;
           Rig.Down false 0 0; Rig.Move 0 500 lookAtDefault;
           Rig.Wheel (-100000) lookAtDefault]
          (Rig.initial, initial)).
Proof.
  assert (H : rigInRange (Rig.initial, initial)).
  { unfold rigInRange. cbn. repeat split; Lqa.lra. }
  split; [exact H|].
  apply (rig_stays_in_range (fun a => a) (fun _ => 1)). exact H.
Defined.

Lemma drag_marks_beyond_threshold_witness :
  wasDragged
    (snd (Rig.deliverAll (fun a => a) (fun _ => 1)
            (drag 100 100
               [(103, 104, lookAtDefault); (120, 100, lookAtDefault);
                (101, 101, lookAtDefault)])
            (Rig.initial, fallbackStarted)))
  = true.
Proof.
  etransitivity.
  - apply (drag_marks_beyond_threshold (fun a => a) (fun _ => 1)).
    + vm_compute. reflexivity.
    + reflexivity.
  - vm_compute. reflexivity.
Defined.

Lemma pointer_input_refines_events_witness :
  exists es,
    snd (Rig.deliverAll (fun a => a) (fun _ => 1)
           [Rig.Down false 0 0; Rig.Move 20 0 lookAtDefault; Rig.Up]
           (Rig.initial, fallbackStarted))
    = run es fallbackStarted
    /\ forallb isPointerEvent es = true
    /\ (length es <= 3)%nat
    /\ (reachable fallbackStarted ->
        reachable
          (snd (Rig.deliverAll (fun a => a) (fun _ => 1)
                  [Rig.Down false 0 0; Rig.Move 20 0 lookAtDefault; Rig.Up]
                  (Rig.initial, fallbackStarted)))).
Proof.
  apply (pointer_input_refines_events (fun a => a) (fun _ => 1)
           [Rig.Down false 0 0; Rig.Move 20 0 lookAtDefault; Rig.Up]
           Rig.initial fallbackStarted).
  vm_compute. reflexivity.
Defined.

(** ** Defaults of the pipe data *)

Lemma fillDefaults_complete (p : PipeData.Pipe) (i : nat) :
  pipeComplete (PipeData.fillDefaults p i).
Proof.
  destruct p as [pid ptype pcolor plabel]. unfold PipeData.fillDefaults, pipeComplete.
  cbn [PipeData.id PipeData.type PipeData.color PipeData.label].
  destruct pid as [|a pid], ptype as [|b ptype], plabel as [|c plabel];
    cbn [PipeData.falsy PipeData.id PipeData.type PipeData.color PipeData.label];
    destruct (N.eqb pcolor 0) eqn:Ec;
    cbn [PipeData.falsy PipeData.id PipeData.type PipeData.color PipeData.label];
    repeat match goal with
           | |- context [String.eqb ?x ?y] => destruct (String.eqb x y)
           end;
    repeat split; try reflexivity; try discriminate;
    try (apply N.eqb_neq; exact Ec).
Qed.

Lemma fillDefaults_keeps (p : PipeData.Pipe) (i : nat) :
  pipeKeeps p (PipeData.fillDefaults p i).
Proof.
  destruct p as [pid ptype pcolor plabel]. unfold PipeData.fillDefaults, pipeKeeps.
  cbn [PipeData.id PipeData.type PipeData.color PipeData.label].
  destruct pid as [|a pid], ptype as [|b ptype], plabel as [|c plabel];
    cbn [PipeData.falsy PipeData.id PipeData.type PipeData.color PipeData.label];
    destruct (N.eqb pcolor 0) eqn:Ec;
    cbn [PipeData.falsy PipeData.id PipeData.type PipeData.color PipeData.label];
    repeat split; intro H; try reflexivity; try discriminate H;
    apply N.eqb_eq in Ec; contradiction.
Qed.

Lemma fillDefaults_fixed (p : PipeData.Pipe) (i : nat) :
  pipeComplete p -> PipeData.fillDefaults p i = p.
Proof.
  destruct p as [pid ptype pcolor plabel]. unfold pipeComplete, PipeData.fillDefaults.
  cbn [PipeData.id PipeData.type PipeData.color PipeData.label].
  intros (H1 & H2 & H3 & H4).
  rewrite H1. cbn [PipeData.id PipeData.type PipeData.color PipeData.label].
  rewrite H2. cbn [PipeData.id PipeData.type PipeData.color PipeData.label].
  apply N.eqb_neq in H3. rewrite H3.
  cbn [PipeData.id PipeData.type PipeData.color PipeData.label].
  rewrite H4. reflexivity.
Qed.

(** The loop at the head of [loadARPipeData] completes every pipe (id, type,
    colour and label are set afterwards, a colour of 0 counting as not set),
    changes no property that was set, keeps the number and order of the
    pipes, and changes nothing when run a second time, at whatever indices. *)
Theorem pipe_defaults_complete_once (pipes : list PipeData.Pipe) (i j : nat) :
  Forall pipeComplete (PipeData.forEachFrom i pipes)
  /\ Forall2 pipeKeeps pipes (PipeData.forEachFrom i pipes)
  /\ PipeData.forEachFrom j (PipeData.forEachFrom i pipes)
     = PipeData.forEachFrom i pipes.
Proof.
  revert i j. induction pipes as [|p pipes IH]; intros i j; cbn [PipeData.forEachFrom].
  - repeat split; constructor.
  - destruct (IH (S i) (S j)) as (H1 & H2 & H3).
    split; [|split].
    + constructor; [apply fillDefaults_complete | exact H1].
    + constructor; [apply fillDefaults_keeps | exact H2].
    + rewrite H3, (fillDefaults_fixed _ j (fillDefaults_complete p i)). reflexivity.
Qed.

(** ** Fitting an imported model *)

Lemma Math_max_spec (a b : Q) :
  (a <= Math_max a b /\ b <= Math_max a b)%Q
  /\ (Math_max a b = a \/ Math_max a b = b).
Proof.
  unfold Math_max. destruct (Qltb a b) eqn:E.
  - apply Qltb_lt in E. split; [split; Lqa.lra | right; reflexivity].
  - apply Qltb_ge in E. split; [split; Lqa.lra | left; reflexivity].
Qed.

Lemma Math_max3_spec (a b c : Q) :
  let v := Math_max (Math_max a b) c in
  (a <= v /\ b <= v /\ c <= v)%Q /\ (v = a \/ v = b \/ v = c).
Proof.
  cbv zeta.
  destruct (Math_max_spec a b) as [[A1 A2] A3].
  destruct (Math_max_spec (Math_max a b) c) as [[B1 B2] B3].
  split.
  - repeat split; Lqa.lra.
  - destruct B3 as [-> | ->]; [|right; right; reflexivity].
    destruct A3 as [-> | ->]; [left | right; left]; reflexivity.
Qed.

Lemma Math_max3_scale (a b c a' b' c' k : Q) :
  (0 <= k)%Q -> (a' == a * k)%Q -> (b' == b * k)%Q -> (c' == c * k)%Q ->
  (Math_max (Math_max a' b') c' == Math_max (Math_max a b) c * k)%Q.
Proof.
  intros Hk Ea Eb Ec.
  destruct (Math_max3_spec a b c) as [(L1 & L2 & L3) S].
  destruct (Math_max3_spec a' b' c') as [(L1' & L2' & L3') S'].
  cbv zeta in *.
  set (v := Math_max (Math_max a b) c) in *.
  set (v' := Math_max (Math_max a' b') c') in *.
  clearbody v v'.
  pose proof (Qmult_le_compat_r _ _ k L1 Hk) as M1.
  pose proof (Qmult_le_compat_r _ _ k L2 Hk) as M2.
  pose proof (Qmult_le_compat_r _ _ k L3 Hk) as M3.
  apply Qle_antisym.
  - destruct S' as [-> | [-> | ->]]; Lqa.lra.
  - destruct S as [-> | [-> | ->]]; Lqa.lra.
Qed.

Lemma isEmpty_inhabited (b : Box3.t) : boxInhabited b -> Box3.isEmpty b = false.
Proof.
  intros (H1 & H2 & H3). unfold Box3.isEmpty.
  apply Qltb_ge in H1, H2, H3. rewrite H1, H2, H3. reflexivity.
Qed.

Lemma translate_inhabited (d : Vec3) (b : Box3.t) :
  boxInhabited b -> boxInhabited (Box3.translate d b).
Proof.
  destruct b as [[x0 y0 z0] [x1 y1 z1]], d as [dx dy dz].
  unfold boxInhabited. cbn. intros (H1 & H2 & H3). repeat split; Lqa.lra.
Qed.

Lemma scaleAbout_inhabited (p : Vec3) (k : Q) (b : Box3.t) :
  (0 <= k)%Q -> boxInhabited b -> boxInhabited (Box3.scaleAbout p k b).
Proof.
  destruct b as [[x0 y0 z0] [x1 y1 z1]], p as [px py pz].
  unfold boxInhabited. cbn. intros Hk (H1 & H2 & H3).
  repeat split; Lqa.nra.
Qed.

Lemma maxDim_translate (p p' : Vec3) (k k' : Q) (d : Vec3) (b : Box3.t) :
  boxInhabited b ->
  (ImportedModel.maxDim (ImportedModel.mk p' k' (Box3.translate d b))
   == ImportedModel.maxDim (ImportedModel.mk p k b))%Q.
Proof.
  intro H. unfold ImportedModel.maxDim. cbn [ImportedModel.box]. cbv zeta.
  unfold Box3.getSize.
  rewrite (isEmpty_inhabited _ H), (isEmpty_inhabited _ (translate_inhabited d b H)).
  destruct b as [[x0 y0 z0] [x1 y1 z1]], d as [dx dy dz]. cbn.
  rewrite <- (Qmult_1_r (Math_max (Math_max (x1 - x0) (y1 - y0)) (z1 - z0))).
  apply Math_max3_scale; Lqa.lra.
Qed.

Lemma maxDim_scaleAbout (p p' : Vec3) (s s' k : Q) (b : Box3.t) :
  (0 <= k)%Q -> boxInhabited b ->
  (ImportedModel.maxDim (ImportedModel.mk p' s' (Box3.scaleAbout p k b))
   == ImportedModel.maxDim (ImportedModel.mk p s b) * k)%Q.
Proof.
  intros Hk H. unfold ImportedModel.maxDim. cbn [ImportedModel.box]. cbv zeta.
  unfold Box3.getSize.
  rewrite (isEmpty_inhabited _ H), (isEmpty_inhabited _ (scaleAbout_inhabited p k b Hk H)).
  destruct b as [[x0 y0 z0] [x1 y1 z1]], p as [px py pz]. cbn.
  apply Math_max3_scale; [exact Hk| | |]; ring.
Qed.

Lemma settled_box (b : Box3.t) :
  boxInhabited b ->
  let d := Vector3.addY (Vector3.negate (Box3.getCenter b))
             (- (Vector3.y (Box3.getSize b) / 2)) in
  let b' := Box3.translate d b in
  (Vector3.x (Box3.min b') + Vector3.x (Box3.max b') == 0
   /\ Vector3.z (Box3.min b') + Vector3.z (Box3.max b') == 0
   /\ Vector3.y (Box3.max b') == 0
   /\ Vector3.y (Box3.min b')
      == - (Vector3.y (Box3.max b) - Vector3.y (Box3.min b)))%Q.
Proof.
  intro H. cbv zeta. unfold Box3.getCenter, Box3.getSize.
  rewrite (isEmpty_inhabited _ H).
  destruct b as [[x0 y0 z0] [x1 y1 z1]]. cbn.
  repeat split; field.
Qed.

(** The head of [setAR3DModel] puts an imported model under the placement
    point: afterwards its box is centred on the origin in X and Z and hangs
    from the ground plane ([max.y = 0]), so the model lies wholly at or below
    ground level; and a model that has any size ends between 0.2 m and 10 m in
    its largest dimension: exactly 2 m when it was larger than 10 m or
    smaller than 0.2 m, its own size otherwise. *)
Theorem fitted_model_hangs_from_ground (m : ImportedModel.t) :
  boxInhabited (ImportedModel.box m) ->
  let m' := ImportedModel.fit m in
  let b := ImportedModel.box m' in
  boxInhabited b
  /\ (Vector3.x (Box3.min b) + Vector3.x (Box3.max b) == 0)%Q
  /\ (Vector3.z (Box3.min b) + Vector3.z (Box3.max b) == 0)%Q
  /\ (Vector3.y (Box3.max b) == 0)%Q
  /\ ((0.0001 < ImportedModel.maxDim m)%Q ->
      (0.2 <= ImportedModel.maxDim m' /\ ImportedModel.maxDim m' <= 10)%Q)
  /\ ((10 < ImportedModel.maxDim m)%Q
      \/ (0.0001 < ImportedModel.maxDim m /\ ImportedModel.maxDim m < 0.2)%Q ->
      (ImportedModel.maxDim m' == 2)%Q /\
      (ImportedModel.scaled m' == ImportedModel.scaled m * (2 / ImportedModel.maxDim m))%Q)
  /\ ((0.2 <= ImportedModel.maxDim m /\ ImportedModel.maxDim m <= 10)%Q ->
      (ImportedModel.maxDim m' == ImportedModel.maxDim m)%Q
      /\ ImportedModel.scaled m' = ImportedModel.scaled m).
Proof.
  intros Hb. cbv zeta.
  destruct m as [p s b]. cbn [ImportedModel.box] in Hb.
  set (M := ImportedModel.maxDim (ImportedModel.mk p s b)).
  (* the model after the rescaling step *)
  set (m1 := if Qltb 0.0001 M then
               if Qltb (2 * 5) M || Qltb M (2 * 0.1) then
                 ImportedModel.mk p (s * (2 / M)) (Box3.scaleAbout p (2 / M) b)
               else ImportedModel.mk p s b
             else ImportedModel.mk p s b).
  assert (Efit : ImportedModel.fit (ImportedModel.mk p s b)
                 = ImportedModel.mk
                     (Vector3.add (ImportedModel.position m1)
                        (Vector3.addY
                           (Vector3.negate (Box3.getCenter (ImportedModel.box m1)))
                           (- (Vector3.y (Box3.getSize (ImportedModel.box m1)) / 2))))
                     (ImportedModel.scaled m1)
                     (Box3.translate
                        (Vector3.addY
                           (Vector3.negate (Box3.getCenter (ImportedModel.box m1)))
                           (- (Vector3.y (Box3.getSize (ImportedModel.box m1)) / 2)))
                        (ImportedModel.box m1))) by reflexivity.
  rewrite Efit. clear Efit.
  cbn [ImportedModel.box ImportedModel.scaled].
  assert (H1 : boxInhabited (ImportedModel.box m1)
               /\ ((0.0001 < M)%Q ->
                   (0.2 <= ImportedModel.maxDim m1 /\ ImportedModel.maxDim m1 <= 10)%Q)
               /\ ((10 < M)%Q \/ (0.0001 < M /\ M < 0.2)%Q ->
                   (ImportedModel.maxDim m1 == 2)%Q
                   /\ (ImportedModel.scaled m1 == s * (2 / M))%Q)
               /\ ((0.2 <= M /\ M <= 10)%Q ->
                   (ImportedModel.maxDim m1 == M)%Q /\ ImportedModel.scaled m1 = s)).
  { subst m1.
    destruct (Qltb 0.0001 M) eqn:E0.
    - apply Qltb_lt in E0.
      assert (Epos : (0 <= 2 / M)%Q).
      { apply Qle_shift_div_l; Lqa.lra. }
      assert (E2 : (M * (2 / M) == 2)%Q) by (field; Lqa.lra).
      destruct (Qltb (2 * 5) M) eqn:E1; [|destruct (Qltb M (2 * 0.1)) eqn:E3];
        cbn [orb ImportedModel.box ImportedModel.scaled].
      + apply Qltb_lt in E1.
        pose proof (maxDim_scaleAbout p p s (s * (2 / M)) (2 / M) b Epos Hb) as Es.
        fold M in Es. rewrite E2 in Es.
        split; [apply scaleAbout_inhabited; assumption|].
        split; [intros _; rewrite Es; split; Lqa.lra|].
        split; [intros _; split; [exact Es | reflexivity]|].
        intros [_ H]. Lqa.lra.
      + apply Qltb_ge in E1. apply Qltb_lt in E3.
        pose proof (maxDim_scaleAbout p p s (s * (2 / M)) (2 / M) b Epos Hb) as Es.
        fold M in Es. rewrite E2 in Es.
        split; [apply scaleAbout_inhabited; assumption|].
        split; [intros _; rewrite Es; split; Lqa.lra|].
        split; [intros _; split; [exact Es | reflexivity]|].
        intros [H _]. Lqa.lra.
      + apply Qltb_ge in E1, E3. fold M.
        split; [exact Hb|].
        split; [intros _; split; Lqa.lra|].
        split; [intros [H | [_ H]]; Lqa.lra|].
        intros _. split; reflexivity.
    - apply Qltb_ge in E0. fold M.
      split; [exact Hb|].
      split; [intro H; Lqa.lra|].
      split; [intros [H | [H _]]; Lqa.lra|].
      intros [H _]. Lqa.lra. }
  clearbody m1. destruct m1 as [p1 s1 b1].
  cbn [ImportedModel.box ImportedModel.scaled ImportedModel.position] in *.
  destruct H1 as (Hb1 & R1 & R2 & R3).
  destruct (settled_box b1 Hb1) as (C1 & C2 & C3 & _).
  pose proof (maxDim_translate p1
                (Vector3.add p1
                   (Vector3.addY (Vector3.negate (Box3.getCenter b1))
                      (- (Vector3.y (Box3.getSize b1) / 2))))
                s1 s1
                (Vector3.addY (Vector3.negate (Box3.getCenter b1))
                   (- (Vector3.y (Box3.getSize b1) / 2)))
                b1 Hb1) as Et.
  split; [apply translate_inhabited, Hb1|].
  split; [exact C1|]. split; [exact C2|]. split; [exact C3|].
  split; [intro H; rewrite Et; apply R1, H|].
  split.
  - intro H. destruct (R2 H) as [A B]. split; [rewrite Et; exact A | exact B].
  - intro H. destruct (R3 H) as [A B]. split; [rewrite Et; exact A | exact B].
Qed.

Lemma fitted_model_hangs_from_ground_witness :
  let m := ImportedModel.mk (vec3 1 2 3) 1
             (Box3.mk (vec3 (-50) 0 (-10)) (vec3 50 20 10)) in
  let b := ImportedModel.box (ImportedModel.fit m) in
  boxInhabited (ImportedModel.box m)
  /\ (Vector3.y (Box3.max b) == 0)%Q
  /\ (ImportedModel.maxDim (ImportedModel.fit m) == 2)%Q.
Proof.
  cbv zeta.
  assert (H : boxInhabited
                (ImportedModel.box
                   (ImportedModel.mk (vec3 1 2 3) 1
                      (Box3.mk (vec3 (-50) 0 (-10)) (vec3 50 20 10))))).
  { unfold boxInhabited. cbn. repeat split; Lqa.lra. }
  split; [exact H|].
  destruct (fitted_model_hangs_from_ground _ H) as (_ & _ & _ & T & _ & S & _).
  split; [exact T|].
  apply S. left. vm_compute. reflexivity.
Defined.
